(** * TWISTER environment adapters and collate utility: a shallow embedding

    Sources embedded here:
    - [nnet/envs/atari/atari_env.py]                    ([Module Atari])
    - [nnet/envs/dm_control/deep_mind_control_env.py]   ([Module DMC])
    - [nnet/envs/dm_control/{acrobot,pendulum,quadruped}.py]
    - [nnet/utils/collate_fn.py]                        ([Module Collate])
    - [nnet/modules/module.py], [to], [transfer_to_device] ([Module NNet])

    Python floats are IEEE binary64 numbers and are modelled by Rocq's
    primitive floats; a [torch.float32] scalar is the binary64 number that
    carries its value.  Tensors are a shape with row-major contents, the
    layout of a contiguous torch tensor.  Python exceptions are the [Err]
    results of an error monad.  The simulators (gym's Atari preprocessing
    wrapper, dm_control's pixel wrapper) are outside the repository: they
    are state machines given as records of functions, and [Module Toy] has
    two small ones on which the adapters are run.  The clock and the file
    system enter [step] as the time stamp [now] and leave it as the list of
    video files written.

    The definitions come first; the properties follow from [* Properties]
    on, the ones about a claim marked with its number; [* Further
    properties] has properties of the code beyond the claims, numbered
    X1 to X30, each with a running example where it has hypotheses. *)

From Stdlib Require Import String Ascii ZArith List Bool Lia.
From Stdlib Require Import Floats.PrimFloat Floats.SpecFloat Floats.FloatOps.
Import ListNotations.

Set Implicit Arguments.

(** ** Python exceptions and the error monad *)

Inductive PyError : Type :=
| AssertionError      (* a failed [assert] *)
| AttributeError      (* attribute not set yet, or absent on the object *)
| TypeError           (* e.g. [float += None] *)
| KeyError            (* missing [dict] key *)
| IndexError          (* sequence index out of range *)
| UnboundLocalError   (* local variable read before assignment *)
| ZeroDivisionError   (* division by zero *)
| TorchError          (* RuntimeError / ValueError raised by a torch operator *)
| SimulatorFailure.   (* anything the wrapped simulator raises *)

Inductive result (A : Type) : Type :=
| Ok (a : A)
| Err (e : PyError).

Arguments Ok {A} a.
Arguments Err {A} e.

Definition bind {A B} (m : result A) (k : A -> result B) : result B :=
  match m with
  | Ok a => k a
  | Err e => Err e
  end.

Declare Scope py_scope.
Delimit Scope py_scope with py.
Notation "x <- m ;; k" := (bind m (fun x => k))
  (at level 100, m at next level, right associativity) : py_scope.
Notation "' p <- m ;; k" := (bind m (fun x => match x with p => k end))
  (at level 100, p pattern, m at next level, right associativity) : py_scope.
Open Scope py_scope.

Definition is_ok {A} (m : result A) : bool :=
  match m with Ok _ => true | Err _ => false end.

(** Reading an instance attribute that may not have been assigned yet. *)
Definition attr {A} (o : option A) : result A :=
  match o with
  | Some a => Ok a
  | None => Err AttributeError
  end.

(** [for _ in range(n): x = body(x)], stopping at the first exception. *)
Fixpoint for_range {X} (n : nat) (body : X -> result X) (x : X) : result X :=
  match n with
  | O => Ok x
  | S n' => x' <- body x ;; for_range n' body x'
  end.

(** ** Numbers *)

(** [torch.tensor(x, dtype=torch.float32)] for a Python float: round to the
    nearest binary32 value (24-bit significand, exponent up to 128). *)
Definition to_float32 (x : float) : float :=
  match Prim2SF x with
  | S754_finite s m e => SF2Prim (binary_round 24 128 s m e)
  | _ => x
  end.

(** [torch.tensor(b, dtype=torch.float32)] for a Python bool: 1.0 or 0.0. *)
Definition bool_float32 (b : bool) : float :=
  if b then 1%float else 0%float.

(** A consumer reads a float-valued flag as true when it is not zero. *)
Definition flag_true (x : float) : bool := negb (PrimFloat.eqb x 0%float).

(** [float(n)] for a Python int. *)
Definition float_of_Z (n : Z) : float :=
  SF2Prim (binary_normalize prec emax n 0 false).

(** The value [item()] yields: a Python int or a Python float. *)
Inductive pynumber : Type :=
| PyInt (n : Z)
| PyFloat (x : float).

(** Samples of a [torch.uint8] image. *)
Definition uint8 : Type := Z.

(** ** Strings used for file names *)

(** [s.replace(" ", "_")] *)
Fixpoint replace_space (s : string) : string :=
  match s with
  | EmptyString => EmptyString
  | String c s' =>
      String (if Ascii.eqb c " "%char then "_"%char else c) (replace_space s')
  end.

Fixpoint ends_with_slash (s : string) : bool :=
  match s with
  | EmptyString => false
  | String c EmptyString => Ascii.eqb c "/"%char
  | String _ s' => ends_with_slash s'
  end.

(** [os.path.join(a, b)] on POSIX, two components. *)
Definition path_join (a b : string) : string :=
  match b with
  | String "/"%char _ => b
  | _ =>
      match a with
      | EmptyString => b
      | _ => if ends_with_slash a then (a ++ b)%string
             else (a ++ "/" ++ b)%string
      end
  end.

(** ** Tensors *)

Module Torch.

(** A contiguous tensor: its [shape] and its elements in row-major order. *)
Record tensor (A : Type) : Type := Tensor { shape : list nat; data : list A }.

Definition numel (s : list nat) : nat := fold_right Nat.mul 1 s.

(** The contents fill the shape. *)
Definition wf {A} (t : tensor A) : Prop := length (data t) = numel (shape t).

(** A tensor of shape [s]. *)
Definition has_shape {A} (s : list nat) (t : tensor A) : Prop :=
  shape t = s /\ wf t.

Fixpoint shape_eqb (s1 s2 : list nat) : bool :=
  match s1, s2 with
  | [], [] => true
  | a :: s1', b :: s2' => Nat.eqb a b && shape_eqb s1' s2'
  | _, _ => false
  end.

(** [t.item()]: the single element of a one-element tensor of any shape. *)
Definition item {A} (t : tensor A) : result A :=
  match data t with
  | [x] => Ok x
  | _ => Err TorchError
  end.

(** [t.tolist()] of a one-dimensional tensor. *)
Definition tolist {A} (t : tensor A) : list A := data t.

(** [t.unsqueeze(dim=0)] *)
Definition unsqueeze0 {A} (t : tensor A) : tensor A :=
  Tensor (1 :: shape t) (data t).

(** Elements of [d] at the positions [idx], in that order. *)
Definition gather {A} (d : list A) (idx : list nat) : list A :=
  flat_map (fun i => match nth_error d i with Some x => [x] | None => [] end) idx.

(** [t.permute(2, 0, 1)]: (h, w, c) to (c, h, w); out[k][i][j] = in[i][j][k]. *)
Definition permute201 {A} (t : tensor A) : result (tensor A) :=
  match shape t with
  | [h; w; c] =>
      Ok (Tensor [c; h; w]
            (gather (data t)
               (flat_map (fun k =>
                  flat_map (fun i =>
                    map (fun j => (i * w + j) * c + k) (seq 0 w)) (seq 0 h))
                  (seq 0 c))))
  | _ => Err TorchError
  end.

(** [t.permute(1, 2, 0)]: (c, h, w) to (h, w, c); out[i][j][k] = in[k][i][j]. *)
Definition permute120 {A} (t : tensor A) : result (tensor A) :=
  match shape t with
  | [c; h; w] =>
      Ok (Tensor [h; w; c]
            (gather (data t)
               (flat_map (fun i =>
                  flat_map (fun j =>
                    map (fun k => (k * h + i) * w + j) (seq 0 c)) (seq 0 w))
                  (seq 0 h))))
  | _ => Err TorchError
  end.

(** [t.repeat(n, 1, 1)]: a tensor of fewer than three dimensions is first
    given leading dimensions of size one; more than three is an error, as
    is a negative count.  The contents are tiled [n] times along axis 0. *)
Definition repeat3 {A} (n : Z) (t : tensor A) : result (tensor A) :=
  if (n <? 0)%Z then Err TorchError
  else
    match repeat 1 (3 - length (shape t)) ++ shape t with
    | [c; h; w] =>
        Ok (Tensor [Z.to_nat n * c; h; w]
              (concat (repeat (data t) (Z.to_nat n))))
    | _ => Err TorchError
    end.

(** [t[k:]] for a literal [k >= 0]. *)
Definition from0 {A} (k : nat) (t : tensor A) : result (tensor A) :=
  match shape t with
  | [] => Err IndexError
  | n :: rest => Ok (Tensor ((n - k) :: rest) (skipn (k * numel rest) (data t)))
  end.

(** [t[:k]] for [k >= 0]. *)
Definition upto0 {A} (k : nat) (t : tensor A) : result (tensor A) :=
  match shape t with
  | [] => Err IndexError
  | n :: rest =>
      Ok (Tensor (Nat.min k n :: rest)
            (firstn (Nat.min k n * numel rest) (data t)))
  end.

(** [t[a:b]] for [0 <= a], [0 <= b]. *)
Definition range0 {A} (a b : nat) (t : tensor A) : result (tensor A) :=
  u <- upto0 b t ;; from0 a u.

(** The last [k] entries along axis 0, [t[n-k:]] for a first dimension [n]. *)
Definition last0 {A} (k : nat) (t : tensor A) : result (tensor A) :=
  from0 (hd 0 (shape t) - k) t.

(** The [i]-th group of [c] channels, [t[i*c : (i+1)*c]]. *)
Definition frame_slice {A} (c i : nat) (t : tensor A) : result (tensor A) :=
  range0 (i * c) (i * c + c) t.

(** [torch.cat([a, b], dim=0)]: both at least one-dimensional and equal in
    every dimension but the first.  (torch's legacy exemption for an empty
    one-dimensional operand is left out: no tensor here is one-dimensional
    and empty.) *)
Definition cat0 {A} (a b : tensor A) : result (tensor A) :=
  match shape a, shape b with
  | na :: ra, nb :: rb =>
      if shape_eqb ra rb then Ok (Tensor ((na + nb) :: ra) (data a ++ data b))
      else Err TorchError
  | _, _ => Err TorchError
  end.

(** [torch.stack(l, dim=0)]: a non-empty list of tensors of one shape. *)
Definition stack0 {A} (l : list (tensor A)) : result (tensor A) :=
  match l with
  | [] => Err TorchError
  | t :: _ =>
      if forallb (fun u => shape_eqb (shape u) (shape t)) l
      then Ok (Tensor (length l :: shape t) (concat (map (@data A) l)))
      else Err TorchError
  end.

(** [t.unsqueeze(dim=-1).repeat(1, 1, 1, 3)]: a trailing axis of size one,
    then that axis tiled three times (every sample written three times);
    the four-argument [repeat] pads to four dimensions and rejects more. *)
Definition gray_to_rgb {A} (t : tensor A) : result (tensor A) :=
  if 3 <? length (shape t) then Err TorchError
  else Ok (Tensor (repeat 1 (3 - length (shape t)) ++ shape t ++ [3])
             (flat_map (fun x => [x; x; x]) (data t))).

(** [t.clip(lo, hi)] on floats; a NaN stays a NaN. *)
Definition clip1 (lo hi x : float) : float :=
  if PrimFloat.ltb x lo then lo else if PrimFloat.ltb hi x then hi else x.

Definition clip (lo hi : float) (t : tensor float) : tensor float :=
  Tensor (shape t) (map (clip1 lo hi) (data t)).

(** [torch.nn.functional.one_hot(k, num_classes=n).type(torch.float32)] for
    a zero-dimensional index [k]. *)
Definition one_hot (k n : nat) : tensor pynumber :=
  Tensor [n]
    (map (fun i => PyFloat (if Nat.eqb i k then 1%float else 0%float)) (seq 0 n)).

End Torch.

(** ** Python containers *)

(** [l[i]] on a list or tuple: a negative index counts from the end. *)
Definition py_index {X} (l : list X) (i : Z) : result X :=
  let n := Z.of_nat (length l) in
  let j := if (i <? 0)%Z then (i + n)%Z else i in
  if ((j <? 0) || (n <=? j))%Z then Err IndexError
  else match nth_error l (Z.to_nat j) with
       | Some x => Ok x
       | None => Err IndexError
       end.

(** Keys of a Python [dict]: strings or integers. *)
Inductive pykey : Type :=
| KStr (s : string)
| KInt (n : Z).

Definition pykey_eqb (a b : pykey) : bool :=
  match a, b with
  | KStr s, KStr s' => String.eqb s s'
  | KInt n, KInt n' => Z.eqb n n'
  | _, _ => false
  end.

(** A [dict] in insertion order. *)
Definition dict (V : Type) : Type := list (pykey * V).

(** [d[k]] *)
Fixpoint dict_get {V} (d : dict V) (k : pykey) : result V :=
  match d with
  | [] => Err KeyError
  | (k', v) :: d' => if pykey_eqb k' k then Ok v else dict_get d' k
  end.

(** [d[k] = v]: an existing key keeps its place, a new one goes last. *)
Fixpoint dict_set {V} (d : dict V) (k : pykey) (v : V) : dict V :=
  match d with
  | [] => [(k, v)]
  | (k', v') :: d' =>
      if pykey_eqb k' k then (k', v) :: d' else (k', v') :: dict_set d' k v
  end.

(** A list comprehension [[f(x) for x in l]] whose body may raise. *)
Fixpoint comprehension {X Y} (f : X -> result Y) (l : list X) : result (list Y) :=
  match l with
  | [] => Ok []
  | x :: l' => y <- f x ;; ys <- comprehension f l' ;; Ok (y :: ys)
  end.

(** ** [nnet/utils/collate_fn.py] *)

Module Collate.
Import Torch.

Section WithElements.

(** Element type of the sample tensors. *)
Variable A : Type.

(** One collate parameter, e.g. [{"axis": 0}]. *)
Definition params : Type := dict Z.

(** [inputs_params] / [targets_params]: the three types [__init__] admits. *)
Inductive collate_params : Type :=
| ParamsDict (d : dict params)
| ParamsList (l : list params)
| ParamsTuple (l : list params).

(** What [collate] returns: the container, or a bare stacked tensor. *)
Inductive collated : Type :=
| CDict (d : dict (tensor A))
| CList (l : list (tensor A))
| CTuple (l : list (tensor A))
| CBare (t : tensor A).

(** A sample: a sequence indexable by position. *)
Definition sample : Type := list (tensor A).

(** [torch.stack([sample[params["axis"]] for sample in samples], axis=0)] *)
Definition select_stack (samples : list sample) (p : params) : result (tensor A) :=
  collate <- comprehension
               (fun s : sample => ax <- dict_get p (KStr "axis") ;; py_index s ax)
               samples ;;
  stack0 collate.

(** The [for name, params in collate_params.items()] loop. *)
Fixpoint collate_dict_loop (samples : list sample) (items : dict params)
    (collates : dict (tensor A)) : result (dict (tensor A)) :=
  match items with
  | [] => Ok collates
  | (name, p) :: items' =>
      collate <- select_stack samples p ;;
      collate_dict_loop samples items' (dict_set collates name collate)
  end.

(** The [for params in collate_params] loop with [collates.append]. *)
Fixpoint collate_list_loop (samples : list sample) (ps : list params)
    (collates : list (tensor A)) : result (list (tensor A)) :=
  match ps with
  | [] => Ok collates
  | p :: ps' =>
      collate <- select_stack samples p ;;
      collate_list_loop samples ps' (collates ++ [collate])
  end.

(** [CollateFn.collate] *)
Definition collate (samples : list sample) (cp : collate_params) : result collated :=
  match cp with
  | ParamsDict d =>
      collates <- collate_dict_loop samples d [] ;;
      (* collates[0] if len(collates) == 1 else collates *)
      if Nat.eqb (length collates) 1
      then t <- dict_get collates (KInt 0) ;; Ok (CBare t)
      else Ok (CDict collates)
  | ParamsList l =>
      collates <- collate_list_loop samples l [] ;;
      if Nat.eqb (length collates) 1
      then t <- py_index collates 0 ;; Ok (CBare t)
      else Ok (CList collates)
  | ParamsTuple l =>
      collates <- collate_list_loop samples l [] ;;
      if Nat.eqb (length collates) 1
      then t <- py_index collates 0 ;; Ok (CBare t)
      else Ok (CTuple collates)
  end.

(** [CollateFn.forward]: the dict with keys ["inputs"] and ["targets"]. *)
Definition forward (inputs_params targets_params : collate_params)
    (samples : list sample) : result (collated * collated) :=
  inputs <- collate samples inputs_params ;;
  targets <- collate samples targets_params ;;
  Ok (inputs, targets).

End WithElements.

(** [CollateDefault.forward] *)
Definition collate_default {X : Type} (samples : X) : X := samples.

(** The default arguments of [CollateFn.__init__]. *)
Definition default_inputs_params : collate_params :=
  ParamsList [[(KStr "axis", 0%Z)]].
Definition default_targets_params : collate_params :=
  ParamsList [[(KStr "axis", 1%Z)]].

End Collate.

(** ** What both adapters share *)

Import Torch.

(** The [AttrDict(state=..., reward=..., done=..., is_first=..., is_last=...)]
    an adapter returns.  The four scalars are zero-dimensional float32
    tensors; the flags hold 0.0 or 1.0. *)
Record Transition : Type := {
  state : tensor uint8;
  reward : float;
  done : float;
  is_first : float;
  is_last : float
}.

(** [self.episode_video] and [self.episode_video_pre]: a Python list of
    frames while an episode is recorded, the stacked tensor once the
    episode was saved. *)
Inductive recording : Type :=
| Frames (l : list (tensor uint8))
| Stacked (t : tensor uint8).

(** [buffer.append(frame)]: a tensor has no [append]. *)
Definition rec_append (r : recording) (frame : tensor uint8) : result recording :=
  match r with
  | Frames l => Ok (Frames (l ++ [frame]))
  | Stacked _ => Err AttributeError
  end.

(** [torch.stack(buffer, dim=0)]: a tensor is not a sequence of tensors. *)
Definition rec_stack (r : recording) : result (tensor uint8) :=
  match r with
  | Frames l => stack0 l
  | Stacked _ => Err TypeError
  end.

(** [n] frames were appended to a recording buffer (nothing is touched
    when the loop does not run). *)
Definition rec_extends (n : nat) (before after : option recording) : Prop :=
  (n = 0 /\ after = before) \/
  exists fs news,
    before = Some (Frames fs) /\ after = Some (Frames (fs ++ news)) /\
    length news = n.

(** One call of [torchvision.io.write_video]. *)
Record video_file : Type := {
  filename : string;
  video_array : tensor uint8;
  video_fps : pynumber;
  video_codec : string
}.

(** [str(datetime.datetime.now()).replace(" ", "_") + "_" + str(score)],
    given the two [str] results. *)
Definition date_time_score (now score : string) : string :=
  (replace_space now ++ "_" ++ score)%string.

(** [obs_space()]: a one-entry tuple of [name, shape, dtype]. *)
Inductive dtype : Type := torch_uint8 | torch_float32.
Definition obs_entry : Type := (string * list nat * dtype)%type.

(** ** [nnet/envs/atari/atari_env.py] *)

Module Atari.

(** The wrapped [gym.wrappers.AtariPreprocessing] environment, as far as
    the adapter uses it.  [ale] is its whole state (emulator, random
    generator, lives counter). *)
Record Simulator : Type := {
  ale : Type;
  (** [self.env.reset()] *)
  sim_reset : ale -> result (ale * tensor uint8);
  (** [self.env.step(a)]: state, reward, done ([infos] is never read) *)
  sim_step : ale -> pynumber -> result (ale * (tensor uint8 * float * bool));
  (** [self.env.env.ale.game_over()] *)
  sim_game_over : ale -> bool;
  (** [self.env.env._get_image()] *)
  sim_get_image : ale -> tensor uint8;
  (** [self.env.action_space.n] *)
  sim_action_space_n : nat
}.

(** The attributes [__init__] sets and nothing changes afterwards. *)
Record Config : Type := {
  img_size : nat * nat;
  grayscale_obs : bool;
  terminal_on_life_loss : bool;
  episode_saving_path : option string;
  action_repeat : Z;
  history_frames : Z;
  num_actions : nat;
  fps : float
}.

(** Channels of one frame: 1 in grayscale, 3 in colour ([obs_space], and
    the number of channels [step] drops from the history). *)
Definition channels (c : Config) : nat :=
  if grayscale_obs c then 1 else 3.

(** Shape of the states the preprocessing wrapper emits for frames of
    height [h] and width [w]. *)
Definition raw_shape (c : Config) (h w : nat) : list nat :=
  if grayscale_obs c then [h; w] else [h; w; 3].

(** An [AtariEnv] object.  The last four attributes exist only once
    [reset] has assigned them. *)
Record AtariEnv (S : Simulator) : Type := {
  config : Config;
  env : ale S;
  episode_video : option recording;
  episode_video_pre : option recording;
  history : option (tensor uint8);
  episode_score : option float
}.

Section Adapter.

(** Python's [str] on a float. *)
Variable str_float : float -> string.

Variable S : Simulator.

(** [AtariEnv.__init__], given the simulator it has built from [game],
    [noop_max], [repeat_action_probability], [full_action_space] and the
    options below.  (Creating the recording directory is left out.) *)
Definition init (sim : ale S) (img_size : nat * nat) (action_repeat history_frames : Z)
    (episode_saving_path : option string)
    (terminal_on_life_loss grayscale_obs : bool) : result (AtariEnv S) :=
  if (action_repeat =? 0)%Z then Err ZeroDivisionError
  else
    Ok {| config := {| img_size := img_size;
                       grayscale_obs := grayscale_obs;
                       terminal_on_life_loss := terminal_on_life_loss;
                       episode_saving_path := episode_saving_path;
                       action_repeat := action_repeat;
                       history_frames := history_frames;
                       num_actions := sim_action_space_n S;
                       fps := (60 / float_of_Z action_repeat)%float |};
          env := sim;
          episode_video := None;
          episode_video_pre := None;
          history := None;
          episode_score := None |}.

(** [AtariEnv.obs_space] *)
Definition obs_space (e : AtariEnv S) : list obs_entry :=
  let c := config e in
  if grayscale_obs c
  then [("image"%string,
         [Z.to_nat (1 * history_frames c); fst (img_size c); snd (img_size c)],
         torch_uint8)]
  else [("image"%string,
         [Z.to_nat (3 * history_frames c); fst (img_size c); snd (img_size c)],
         torch_uint8)].

(** [AtariEnv.sample]; [k] is what [torch.randint(low=0, high=num_actions)]
    drew, so [k < num_actions]. *)
Definition sample (e : AtariEnv S) (k : nat) : tensor pynumber :=
  one_hot k (num_actions (config e)).

(** The "(C, H, W)" block of [preprocess]: a channel axis in front. *)
Definition to_chw (c : Config) (state : tensor uint8) : result (tensor uint8) :=
  if grayscale_obs c then Ok (unsqueeze0 state) else permute201 state.

(** [AtariEnv.preprocess]: state, reward, done, is_last. *)
Definition preprocess (e : AtariEnv S) (state : tensor uint8) (reward : float)
    (done : bool) : result (tensor uint8 * float * float * float) :=
  (* (C, H, W) *)
  state <- to_chw (config e) state ;;
  let reward := to_float32 reward in
  let done := bool_float32 done in
  let is_last :=
    if terminal_on_life_loss (config e)
    then bool_float32 (sim_game_over S (env e))
    else done in
  Ok (state, reward, done, is_last).

(** [AtariEnv.reset] *)
Definition reset (e : AtariEnv S) : result (AtariEnv S * Transition) :=
  '(sim, raw) <- sim_reset S (env e) ;;
  '(state, _, _, _) <-
     preprocess {| config := config e; env := sim;
                   episode_video := episode_video e;
                   episode_video_pre := episode_video_pre e;
                   history := history e;
                   episode_score := episode_score e |} raw 0%float false ;;
  (* Episode videos *)
  let '(video, video_pre) :=
    match episode_saving_path (config e) with
    | Some _ => (Some (Frames []), Some (Frames []))
    | None => (episode_video e, episode_video_pre e)
    end in
  (* Repeat history frames along channels *)
  hist <- (if (1 <? history_frames (config e))%Z
           then repeat3 (history_frames (config e)) state
           else Ok state) ;;
  Ok ({| config := config e; env := sim;
         episode_video := video; episode_video_pre := video_pre;
         history := Some hist;
         episode_score := Some 0%float |},
      {| state := hist;
         reward := to_float32 0;
         done := bool_float32 false;
         is_first := bool_float32 true;
         is_last := bool_float32 false |}).

(** The two [write_video] calls of a finished episode. *)
Definition save_episode (c : Config) (path now : string) (score : float)
    (video video_pre : tensor uint8) : result (list video_file) :=
  let date_time_score := date_time_score now (str_float score) in
  pre <- (if grayscale_obs c then gray_to_rgb video_pre else Ok video_pre) ;;
  Ok [ {| filename := path_join path (date_time_score ++ ".mp4")%string;
          video_array := video;
          video_fps := PyFloat (fps c);
          video_codec := "libx264"%string |};
       {| filename := path_join path (date_time_score ++ "_pre.mp4")%string;
          video_array := pre;
          video_fps := PyFloat (fps c);
          video_codec := "libx264"%string |} ].

(** The "Add to video" block of [step]. *)
Definition add_to_video (c : Config) (video video_pre : option recording)
    (image state : tensor uint8) : result (option recording * option recording) :=
  match episode_saving_path c with
  | Some _ =>
      v <- attr video ;;
      v <- rec_append v image ;;
      p <- attr video_pre ;;
      p <- rec_append p state ;;
      Ok (Some v, Some p)
  | None => Ok (video, video_pre)
  end.

(** The "Save Episode" block of [step]: the buffers it leaves and the
    files it writes. *)
Definition save_if_done (c : Config) (now : string) (done : bool) (score : float)
    (video video_pre : option recording)
    : result (option recording * option recording * list video_file) :=
  match done, episode_saving_path c with
  | true, Some path =>
      (* Stack videos *)
      v <- attr video ;;
      v <- rec_stack v ;;
      p <- attr video_pre ;;
      p <- rec_stack p ;;
      (* Save Videos *)
      files <- save_episode c path now score v p ;;
      Ok (Some (Stacked v), Some (Stacked p), files)
  | _, _ => Ok (video, video_pre, [])
  end.

(** The "Concat history frames along channels" block of [step]. *)
Definition shift_history (c : Config) (history : option (tensor uint8))
    (state : tensor uint8) : result (tensor uint8) :=
  if (1 <? history_frames c)%Z
  then
    h <- attr history ;;
    h <- from0 (if grayscale_obs c then 1 else 3) h ;;
    cat0 h state
  else Ok state.

(** [AtariEnv.step].  [now] is what [str(datetime.datetime.now())] yields
    during the call; the second component of the result lists the video
    files the call has written, in order. *)
Definition step (now : string) (e : AtariEnv S) (action : tensor pynumber)
    : result (AtariEnv S * list video_file * Transition) :=
  let c := config e in
  (* Env Step *)
  a <- item action ;;
  '(sim, (state, reward, done)) <- sim_step S (env e) a ;;
  (* Update Episode Score *)
  score <- attr (episode_score e) ;;
  let score := (score + reward)%float in
  (* Add to video *)
  '(video, video_pre) <-
     add_to_video c (episode_video e) (episode_video_pre e)
       (sim_get_image S sim) state ;;
  (* Save Episode *)
  '(video, video_pre, files) <- save_if_done c now done score video video_pre ;;
  (* Preprocessing *)
  '(state, reward, done, is_last) <-
     preprocess {| config := c; env := sim;
                   episode_video := video; episode_video_pre := video_pre;
                   history := history e; episode_score := Some score |}
       state reward done ;;
  (* Is First *)
  let is_first := bool_float32 false in
  (* Concat history frames along channels *)
  hist <- shift_history c (history e) state ;;
  Ok ({| config := c; env := sim;
         episode_video := video; episode_video_pre := video_pre;
         history := Some hist; episode_score := Some score |},
      files,
      {| state := hist; reward := reward; done := done;
         is_first := is_first; is_last := is_last |}).

(** The adapters of configuration [c] a training loop can hold: after a
    [reset], and after any number of successful [step]s. *)
Inductive running (c : Config) : AtariEnv S -> Prop :=
| run_reset e e' t :
    config e = c -> reset e = Ok (e', t) -> running c e'
| run_step now e action e' files t :
    running c e -> step now e action = Ok (e', files, t) -> running c e'.

End Adapter.

End Atari.

(** ** [nnet/envs/dm_control/deep_mind_control_env.py] and its three tasks *)

Module DMC.

(** [dm_env.StepType] and the [TimeStep] the pixel wrapper returns. *)
Inductive StepType : Type := FIRST | MID | LAST.

Record TimeStep : Type := {
  step_type : StepType;
  ts_reward : option float;       (* [None] on the first step of an episode *)
  pixels : tensor uint8           (* [observation["pixels"]], (h, w, c) *)
}.

(** [infos.last()] *)
Definition last (infos : TimeStep) : bool :=
  match step_type infos with
  | LAST => true
  | _ => false
  end.

(** The wrapped [pixels.Wrapper(suite.load(domain, task), ...)]. *)
Record Simulator : Type := {
  physics : Type;
  (** [self.env.reset()] *)
  sim_reset : physics -> result (physics * TimeStep);
  (** [self.env.step(action)] *)
  sim_step : physics -> list float -> result (physics * TimeStep);
  (** [self.env._env.physics.render(camera_id=...)] *)
  sim_render : physics -> Z -> tensor uint8
}.

(** The attributes set at construction.  [num_actions] is assigned by the
    task classes only, after the base [__init__] has run. *)
Record Config : Type := {
  camera_id : Z;
  img_size : nat * nat;
  domain : string;
  task : string;
  history_frames : Z;
  clip_low : float;
  clip_high : float;
  action_repeat : Z;
  episode_saving_path : option string;
  fps : Z;
  num_actions : option nat
}.

(** A [DeepMindControlEnv] object.  The last five attributes exist only
    once [reset] has assigned them. *)
Record DeepMindControlEnv (S : Simulator) : Type := {
  config : Config;
  env : physics S;
  episode_score : option float;
  episode_video : option recording;
  episode_video_pre : option recording;
  num_channels : option nat;
  history : option (tensor uint8)
}.

(** [DeepMindControlEnv.__init__] without the simulator it loads.
    (Creating the recording directory is left out.) *)
Definition init_config (domain task : string) (img_size : nat * nat)
    (history_frames : Z) (episode_saving_path : option string)
    (camera_id action_repeat : Z) : Config :=
  {| camera_id := camera_id;
     img_size := img_size;
     domain := domain;
     task := task;
     history_frames := history_frames;
     clip_low := (-1)%float;
     clip_high := 1%float;
     action_repeat := action_repeat;
     episode_saving_path := episode_saving_path;
     fps := 50;
     num_actions := None |}.

Definition with_num_actions (c : Config) (n : nat) : Config :=
  {| camera_id := camera_id c; img_size := img_size c; domain := domain c;
     task := task c; history_frames := history_frames c;
     clip_low := clip_low c; clip_high := clip_high c;
     action_repeat := action_repeat c;
     episode_saving_path := episode_saving_path c; fps := fps c;
     num_actions := Some n |}.

(** [assert task in names] *)
Definition assert_task (task : string) (names : list string) : result unit :=
  if existsb (String.eqb task) names then Ok tt else Err AssertionError.

(** [Acrobot.__init__] *)
Definition Acrobot (task : string) (img_size : nat * nat) (history_frames : Z)
    (episode_saving_path : option string) (action_repeat : Z) : result Config :=
  _ <- assert_task task ["swingup"%string] ;;
  Ok (with_num_actions
        (init_config "acrobot" task img_size history_frames
           episode_saving_path 0 action_repeat) 1).

(** [Pendulum.__init__] *)
Definition Pendulum (task : string) (img_size : nat * nat) (history_frames : Z)
    (episode_saving_path : option string) (action_repeat : Z) : result Config :=
  _ <- assert_task task ["swingup"%string] ;;
  Ok (with_num_actions
        (init_config "pendulum" task img_size history_frames
           episode_saving_path 0 action_repeat) 1).

(** [Quadruped.__init__] *)
Definition Quadruped (img_size : nat * nat) (history_frames : Z)
    (episode_saving_path : option string) (task : string) (action_repeat : Z)
    : result Config :=
  _ <- assert_task task ["walk"%string; "run"%string] ;;
  Ok (with_num_actions
        (init_config "quadruped" task img_size history_frames
           episode_saving_path 2 action_repeat) 12).

Section Adapter.

(** Python's [str] on a float. *)
Variable str_float : float -> string.

Variable S : Simulator.

(** A freshly constructed adapter around the simulator state [sim]. *)
Definition make (c : Config) (sim : physics S) : DeepMindControlEnv S :=
  {| config := c; env := sim; episode_score := None;
     episode_video := None; episode_video_pre := None;
     num_channels := None; history := None |}.

(** [DeepMindControlEnv.obs_space] *)
Definition obs_space (e : DeepMindControlEnv S) : list obs_entry :=
  [("image"%string,
    [3; fst (img_size (config e)); snd (img_size (config e))],
    torch_uint8)].

(** [DeepMindControlEnv.sample]; [draw i] is the [i]-th number
    [uniform_(clip_low, clip_high)] drew. *)
Definition sample (e : DeepMindControlEnv S) (draw : nat -> float)
    : result (tensor float) :=
  n <- attr (num_actions (config e)) ;;
  Ok (Tensor [n] (map draw (seq 0 n))).

(** [DeepMindControlEnv.process_infos]: pixels, reward, done. *)
Definition process_infos (infos : TimeStep)
    : result (tensor uint8 * option float * bool) :=
  obs_pixels <- permute201 (pixels infos) ;;
  Ok (obs_pixels, ts_reward infos, last infos).

(** [DeepMindControlEnv.get_obs], on the simulator state [sim]. *)
Definition get_obs (c : Config) (sim : physics S) : tensor uint8 :=
  sim_render S sim (camera_id c).

(** [DeepMindControlEnv.reset] *)
Definition reset (e : DeepMindControlEnv S)
    : result (DeepMindControlEnv S * Transition) :=
  let c := config e in
  '(sim, infos) <- sim_reset S (env e) ;;
  '(obs_pixels, _, _) <- process_infos infos ;;
  (* Episode videos *)
  let '(video, video_pre) :=
    match episode_saving_path c with
    | Some _ => (Some (Frames []), Some (Frames []))
    | None => (episode_video e, episode_video_pre e)
    end in
  (* Pixel Control *)
  let channels := hd 0 (shape obs_pixels) in
  hist <- repeat3 (history_frames c) obs_pixels ;;
  Ok ({| config := c; env := sim;
         episode_score := Some 0%float;
         episode_video := video; episode_video_pre := video_pre;
         num_channels := Some channels;
         history := Some hist |},
      {| state := hist;
         reward := to_float32 0;
         done := bool_float32 false;
         is_first := bool_float32 true;
         is_last := bool_float32 false |}).

(** The variables the action-repeat loop of [step] reads and writes. *)
Record Loop : Type := {
  l_env : physics S;
  l_video : option recording;
  l_video_pre : option recording;
  l_reward : float;
  l_done : bool;
  l_obs_pixels : option (tensor uint8)   (* unbound before the first pass *)
}.

(** The "Add to video" block of the loop. *)
Definition add_to_video (c : Config) (video video_pre : option recording)
    (sim : physics S) (obs_pixels : tensor uint8)
    : result (option recording * option recording) :=
  match episode_saving_path c with
  | Some _ =>
      v <- attr video ;;
      v <- rec_append v (get_obs c sim) ;;
      p <- attr video_pre ;;
      frame <- permute120 obs_pixels ;;
      p <- rec_append p frame ;;
      Ok (Some v, Some p)
  | None => Ok (video, video_pre)
  end.

(** [reward += step_reward] *)
Definition add_reward (reward : float) (step_reward : option float) : result float :=
  match step_reward with
  | Some r => Ok (reward + r)%float
  | None => Err TypeError
  end.

(** One pass of [for i in range(self.action_repeat)]. *)
Definition loop_body (c : Config) (action : tensor float) (l : Loop) : result Loop :=
  (* Env step *)
  '(sim, infos) <- sim_step S (l_env l) (tolist action) ;;
  '(obs_pixels, step_reward, step_done) <- process_infos infos ;;
  (* Add to video *)
  '(video, video_pre) <- add_to_video c (l_video l) (l_video_pre l) sim obs_pixels ;;
  (* Update reward / done *)
  reward <- add_reward (l_reward l) step_reward ;;
  Ok {| l_env := sim; l_video := video; l_video_pre := video_pre;
        l_reward := reward; l_done := l_done l || step_done;
        l_obs_pixels := Some obs_pixels |}.

(** The two [write_video] calls of a finished episode. *)
Definition save_episode (c : Config) (path now : string) (score : float)
    (video video_pre : tensor uint8) : list video_file :=
  let date_time_score := date_time_score now (str_float score) in
  [ {| filename := path_join path (date_time_score ++ ".mp4")%string;
       video_array := video;
       video_fps := PyInt (fps c);
       video_codec := "libx264"%string |};
    {| filename := path_join path (date_time_score ++ "_pre.mp4")%string;
       video_array := video_pre;
       video_fps := PyInt (fps c);
       video_codec := "libx264"%string |} ].

(** The "Save Episode" block of [step]: the buffers it leaves and the
    files it writes. *)
Definition save_if_done (c : Config) (now : string) (done : bool) (score : float)
    (video video_pre : option recording)
    : result (option recording * option recording * list video_file) :=
  match done, episode_saving_path c with
  | true, Some path =>
      (* Stack videos *)
      v <- attr video ;;
      v <- rec_stack v ;;
      p <- attr video_pre ;;
      p <- rec_stack p ;;
      (* Save Videos *)
      Ok (Some (Stacked v), Some (Stacked p), save_episode c path now score v p)
  | _, _ => Ok (video, video_pre, [])
  end.

(** The "Pixel Control RGB" block of [step]. *)
Definition shift_history (history : option (tensor uint8))
    (obs_pixels : option (tensor uint8)) : result (tensor uint8) :=
  h <- attr history ;;
  h <- from0 3 h ;;
  obs_pixels <- match obs_pixels with
                | Some o => Ok o
                | None => Err UnboundLocalError
                end ;;
  cat0 h obs_pixels.

(** [DeepMindControlEnv.step].  [now] is what [str(datetime.datetime.now())]
    yields during the call; the second component of the result lists the
    video files the call has written, in order. *)
Definition step (now : string) (e : DeepMindControlEnv S) (action : tensor float)
    : result (DeepMindControlEnv S * list video_file * Transition) :=
  let c := config e in
  (* Assert *)
  n <- attr (num_actions c) ;;
  _ <- (if shape_eqb (shape action) [n] then Ok tt else Err AssertionError) ;;
  (* Clip Actions *)
  let action := clip (clip_low c) (clip_high c) action in
  (* Forward Env with action repeat *)
  l <- for_range (Z.to_nat (action_repeat c)) (loop_body c action)
         {| l_env := env e;
            l_video := episode_video e; l_video_pre := episode_video_pre e;
            l_reward := 0%float; l_done := false; l_obs_pixels := None |} ;;
  (* Update Episode Score *)
  score <- attr (episode_score e) ;;
  let score := (score + l_reward l)%float in
  (* Save Episode *)
  '(video, video_pre, files) <-
     save_if_done c now (l_done l) score (l_video l) (l_video_pre l) ;;
  (* Reward *)
  let reward := to_float32 (l_reward l) in
  (* Done *)
  let done := bool_float32 false in
  (* Is_last *)
  let is_last := done in
  (* Is First *)
  let is_first := bool_float32 false in
  (* Pixel Control RGB *)
  hist <- shift_history (history e) (l_obs_pixels l) ;;
  Ok ({| config := c; env := l_env l;
         episode_score := Some score;
         episode_video := video; episode_video_pre := video_pre;
         num_channels := num_channels e;
         history := Some hist |},
      files,
      {| state := hist; reward := reward; done := done;
         is_first := is_first; is_last := is_last |}).

(** The time steps the simulator hands out over [n] consecutive
    [self.env.step(action)] calls from the state [sim]. *)
Fixpoint sim_steps (n : nat) (sim : physics S) (action : list float)
    : result (list TimeStep) :=
  match n with
  | O => Ok []
  | Datatypes.S n' =>
      '(sim', infos) <- sim_step S sim action ;;
      rest <- sim_steps n' sim' action ;;
      Ok (infos :: rest)
  end.

(** The adapters of configuration [c] a training loop can hold: after a
    [reset], and after any number of successful [step]s. *)
Inductive running (c : Config) : DeepMindControlEnv S -> Prop :=
| run_reset e e' t :
    config e = c -> reset e = Ok (e', t) -> running c e'
| run_step now e action e' files t :
    running c e -> step now e action = Ok (e', files, t) -> running c e'.

End Adapter.

End DMC.

(** ** Small simulators to run the adapters on *)

Module Toy.

(** A stand-in for [str] on floats: file names below only need some text. *)
Definition str_float (x : float) : string :=
  if PrimFloat.eqb x 0 then "0.0" else
  if PrimFloat.eqb x 1 then "1.0" else
  if PrimFloat.eqb x 2 then "2.0" else
  if PrimFloat.eqb x 3 then "3.0" else "x".

(** A 2 x 2 frame whose samples all hold [v]: (2, 2) in grayscale, (2, 2, 3)
    in colour. *)
Definition frame (gray : bool) (v : Z) : tensor uint8 :=
  if gray then Tensor [2; 2] (repeat v 4) else Tensor [2; 2; 3] (repeat v 12).

(** An Atari-like game with [n] actions and three lives in which every
    action costs one life and earns one point.  Its state is the number of
    lives left and the number of frames played.  As in gym's preprocessing
    wrapper, [done] is the game being over, or a life being lost when
    [terminal_on_life_loss] is set; an action outside the action set is
    rejected. *)
Definition atari (gray terminal_on_life_loss : bool) (n : nat) : Atari.Simulator :=
  {| Atari.ale := (nat * Z)%type;
     Atari.sim_reset := fun _ => Ok ((3, 0%Z), frame gray 0);
     Atari.sim_step := fun s a =>
       match a with
       | PyInt k =>
           if ((0 <=? k) && (k <? Z.of_nat n))%Z
           then
             let lives := fst s - 1 in
             let t := (snd s + 1)%Z in
             Ok ((lives, t),
                 (frame gray t, 1%float,
                  Nat.eqb lives 0 || (terminal_on_life_loss && Nat.ltb lives (fst s))))
           else Err SimulatorFailure
       | PyFloat _ => Err SimulatorFailure
       end;
     Atari.sim_game_over := fun s => Nat.eqb (fst s) 0;
     Atari.sim_get_image := fun s => Tensor [3; 2; 3] (repeat (snd s) 18);
     Atari.sim_action_space_n := n |}.

(** A control task whose episodes last [len] steps, rendered as 2 x 2
    colour frames holding the time.  A step after the last one starts a new
    episode, as dm_control does: its time step is the first of the new
    episode and carries no reward. *)
Definition dmc (len : Z) : DMC.Simulator :=
  {| DMC.physics := Z;
     DMC.sim_reset := fun _ =>
       Ok (0%Z, {| DMC.step_type := DMC.FIRST; DMC.ts_reward := None;
                   DMC.pixels := frame false 0 |});
     DMC.sim_step := fun t _ =>
       if (len <=? t)%Z
       then Ok (0%Z, {| DMC.step_type := DMC.FIRST; DMC.ts_reward := None;
                        DMC.pixels := frame false 0 |})
       else Ok ((t + 1)%Z,
                {| DMC.step_type := if (len <=? t + 1)%Z then DMC.LAST else DMC.MID;
                   DMC.ts_reward := Some (if Z.even t then 0.5%float else 0.25%float);
                   DMC.pixels := frame false (t + 1) |});
     DMC.sim_render := fun t _ => Tensor [3; 2; 3] (repeat t 18) |}.

(** The adapter after a [reset], for running examples. *)
Definition atari_started {S} (e : Atari.AtariEnv S) : Atari.AtariEnv S :=
  match Atari.reset e with
  | Ok (e', _) => e'
  | Err _ => e
  end.

Definition dmc_started {S} (e : DMC.DeepMindControlEnv S) : DMC.DeepMindControlEnv S :=
  match DMC.reset e with
  | Ok (e', _) => e'
  | Err _ => e
  end.

(** [AtariEnv(game, img_size=(2, 2), action_repeat=4, history_frames=h,
    episode_saving_path=path, terminal_on_life_loss=tll, grayscale_obs=gray)]
    on the four-action game. *)
Definition atari_env (gray tll : bool) (h : Z) (path : option string)
    : Atari.AtariEnv (atari gray tll 4) :=
  @Atari.Build_AtariEnv (atari gray tll 4)
    {| Atari.img_size := (2, 2);
       Atari.grayscale_obs := gray;
       Atari.terminal_on_life_loss := tll;
       Atari.episode_saving_path := path;
       Atari.action_repeat := 4;
       Atari.history_frames := h;
       Atari.num_actions := 4;
       Atari.fps := 15 |}
    (3, 0%Z) None None None None.

(** [Acrobot(img_size=(2, 2), history_frames=h, episode_saving_path=path,
    action_repeat=r)] on episodes of [len] steps. *)
Definition acrobot_env (len h r : Z) (path : option string)
    : DMC.DeepMindControlEnv (dmc len) :=
  DMC.make (dmc len)
    (DMC.with_num_actions
       (DMC.init_config "acrobot" "swingup" (2, 2) h path 0 r) 1)
    0%Z.

End Toy.

(** ** Rollouts *)

(** A training loop drives an adapter by calling [step] again and again.
    [atari_rollout] makes the calls of a list (each with the time stamp it
    would read and its action) and collects what each call returns; it
    stops at the first exception. *)
Section Rollouts.
Variable str_float : float -> string.
Variable S : Atari.Simulator.
Variable D : DMC.Simulator.

Fixpoint atari_rollout (e : Atari.AtariEnv S)
    (calls : list (string * tensor pynumber))
    : result (Atari.AtariEnv S * list (list video_file * Transition)) :=
  match calls with
  | [] => Ok (e, [])
  | (now, action) :: calls' =>
      '(e1, files, t) <- Atari.step str_float now e action ;;
      '(e2, outs) <- atari_rollout e1 calls' ;;
      Ok (e2, (files, t) :: outs)
  end.

(** What the simulator answers to the scalar actions [acts], one
    [self.env.step] each, and the state it ends in. *)
Fixpoint atari_sim_rollout (sim : Atari.ale S) (acts : list pynumber)
    : result (Atari.ale S * list (tensor uint8 * float * bool)) :=
  match acts with
  | [] => Ok (sim, [])
  | a :: acts' =>
      '(sim1, out) <- Atari.sim_step S sim a ;;
      '(sim2, outs) <- atari_sim_rollout sim1 acts' ;;
      Ok (sim2, out :: outs)
  end.

Fixpoint dmc_rollout (e : DMC.DeepMindControlEnv D)
    (calls : list (string * tensor float))
    : result (DMC.DeepMindControlEnv D * list (list video_file * Transition)) :=
  match calls with
  | [] => Ok (e, [])
  | (now, action) :: calls' =>
      '(e1, files, t) <- DMC.step str_float now e action ;;
      '(e2, outs) <- dmc_rollout e1 calls' ;;
      Ok (e2, (files, t) :: outs)
  end.

(** The same for the continuous-control simulator: [n] consecutive
    [self.env.step(action)] calls, with the state they end in. *)
Fixpoint dmc_sim_run (n : nat) (sim : DMC.physics D) (action : list float)
    : result (DMC.physics D * list DMC.TimeStep) :=
  match n with
  | O => Ok (sim, [])
  | Datatypes.S n' =>
      '(sim1, infos) <- DMC.sim_step D sim action ;;
      '(sim2, rest) <- dmc_sim_run n' sim1 action ;;
      Ok (sim2, infos :: rest)
  end.

(** The simulator states after each of those [n] calls. *)
Fixpoint dmc_sim_states (n : nat) (sim : DMC.physics D) (action : list float)
    : result (list (DMC.physics D)) :=
  match n with
  | O => Ok []
  | Datatypes.S n' =>
      '(sim1, _) <- DMC.sim_step D sim action ;;
      rest <- dmc_sim_states n' sim1 action ;;
      Ok (sim1 :: rest)
  end.

(** [n] simulator steps for each of the actions [acts] in turn. *)
Fixpoint dmc_sim_rollout (n : nat) (sim : DMC.physics D) (acts : list (list float))
    : result (DMC.physics D * list (list DMC.TimeStep)) :=
  match acts with
  | [] => Ok (sim, [])
  | a :: acts' =>
      '(sim1, trace) <- dmc_sim_run n sim a ;;
      '(sim2, traces) <- dmc_sim_rollout n sim1 acts' ;;
      Ok (sim2, trace :: traces)
  end.

End Rollouts.

(** The rewards of a list of time steps, and their running sum from 0.0
    in Python floats. *)
Definition trace_rewards (trace : list DMC.TimeStep) : list float :=
  flat_map (fun infos => match DMC.ts_reward infos with
                         | Some r => [r]
                         | None => []
                         end) trace.

Definition float_sum (rs : list float) : float :=
  fold_left PrimFloat.add rs 0%float.

(** ** [nnet/modules/module.py] *)

Module NNet.

(** A [torch.device], by its name: "cpu", "cuda:0". *)
Definition device : Type := string.

(** The identity of an [nn.Module] object. *)
Definition ref : Type := nat.

(** An [nn.Module] object as far as [.to] reads it: its identity, its
    registered child modules ([self.children()]) and, for an object of the
    class [Module] of this file, the modules of its [modules_buffer], which
    [register_module_buffer] keeps out of the children.  [Plain] is an
    object of any other [nn.Module] class.  One object may sit in several
    places; its identity tells. *)
#[warnings="-register-all"]
Inductive module_obj : Type :=
| Plain (id : ref) (children : list module_obj)
| Repo (id : ref) (children : list module_obj)
       (modules_buffer : list (pykey * module_obj)).

(** What [.to] changes: the device the parameters of each object are on,
    and the [device] attribute of each [Module] object. *)
Record placement : Type := {
  params_on : ref -> device;
  device_attr : ref -> device
}.

Definition set_params (r : ref) (d : device) (pl : placement) : placement :=
  {| params_on := fun r' => if Nat.eqb r' r then d else params_on pl r';
     device_attr := device_attr pl |}.

Definition set_attr (r : ref) (d : device) (pl : placement) : placement :=
  {| params_on := params_on pl;
     device_attr := fun r' => if Nat.eqb r' r then d else device_attr pl r' |}.

(** [nn.Module.to(device)], torch's own: the parameters of the registered
    children, recursively, then the object's; it calls no overridden [to]
    and knows of no [modules_buffer]. *)
Fixpoint nn_module_to (m : module_obj) (d : device) (pl : placement) : placement :=
  match m with
  | Plain id children =>
      set_params id d (fold_left (fun pl c => nn_module_to c d pl) children pl)
  | Repo id children _ =>
      set_params id d (fold_left (fun pl c => nn_module_to c d pl) children pl)
  end.

(** [m.to(device)] by the class of [m]: [Module.to] of this file, or
    torch's.  (A module moves in place and [to] returns it, so that
    [self.modules_buffer[key] = value.to(...)] stores the object it
    held.) *)
Fixpoint module_to (m : module_obj) (d : device) (pl : placement) : placement :=
  match m with
  | Plain _ _ => nn_module_to m d pl
  | Repo id children modules_buffer =>
      (* Set device *)
      let pl := set_attr id d pl in
      let pl := fold_left (fun pl c => module_to c d pl) children pl in
      (* Set modules buffer to device *)
      let pl := fold_left (fun pl kv => module_to (snd kv) d pl) modules_buffer pl in
      nn_module_to m d pl
  end.

(** A call returns a value or raises [Exception(message)]. *)
Inductive outcome (A : Type) : Type :=
| Returned (a : A)
| Raised (message : string).
Arguments Raised {A} message.

Section Structs.

(** Contents of a tensor. *)
Variable T : Type.

(** The values [transfer_to_device] tells apart: a dict, a list, a tuple
    ([plain] is false for an object of a subclass, which [isinstance]
    accepts as well), a tensor on its device, an [nn.Module] object,
    [None], and any other value, of which only [str(type(struct))] is
    read. *)
#[warnings="-register-all"]
Inductive pystruct : Type :=
| SDict (plain : bool) (items : list (pykey * pystruct))
| SList (plain : bool) (items : list pystruct)
| STuple (plain : bool) (items : list pystruct)
| STensor (t : T) (d : device)
| SModule (m : module_obj)
| SNone
| SOther (type_name : string).

(** The message of the exception [transfer_to_device] raises. *)
Definition incorrect_struct_type (type_name : string) : string :=
  ("Incorrect struct type: " ++ type_name
   ++ ". Must be dict, list module, tensor or None.")%string.

(** [{key: f(value) for key, value in struct.items()}], from the empty
    dict [acc]; the first exception ends it. *)
Definition dict_comprehension
    (f : pystruct -> placement -> outcome pystruct * placement)
    : list (pykey * pystruct) -> dict pystruct -> placement
      -> outcome (dict pystruct) * placement :=
  fix go items acc pl :=
    match items with
    | [] => (Returned acc, pl)
    | (key, value) :: items' =>
        match f value pl with
        | (Returned v, pl') => go items' (dict_set acc key v) pl'
        | (Raised m, pl') => (Raised m, pl')
        end
    end.

(** [[f(value) for value in struct]] *)
Definition list_comprehension
    (f : pystruct -> placement -> outcome pystruct * placement)
    : list pystruct -> placement -> outcome (list pystruct) * placement :=
  fix go items pl :=
    match items with
    | [] => (Returned [], pl)
    | value :: items' =>
        match f value pl with
        | (Returned v, pl') =>
            match go items' pl' with
            | (Returned vs, pl'') => (Returned (v :: vs), pl'')
            | (Raised m, pl'') => (Raised m, pl'')
            end
        | (Raised m, pl') => (Raised m, pl')
        end
    end.

(** [Module.transfer_to_device] of a module whose [self.device] is
    [self_device], with the placement of the [nn.Module] objects before
    and after the call.  The containers it builds are a plain dict, list
    and tuple. *)
Fixpoint transfer_to_device (self_device : device) (s : pystruct)
    (device : option device) (pl : placement) {struct s}
    : outcome pystruct * placement :=
  match s with
  | SDict _ items =>
      match dict_comprehension
              (fun value => transfer_to_device self_device value device)
              items [] pl with
      | (Returned d, pl') => (Returned (SDict true d), pl')
      | (Raised m, pl') => (Raised m, pl')
      end
  | SList _ items =>
      match list_comprehension
              (fun value => transfer_to_device self_device value device)
              items pl with
      | (Returned l, pl') => (Returned (SList true l), pl')
      | (Raised m, pl') => (Raised m, pl')
      end
  | STuple _ items =>
      match list_comprehension
              (fun value => transfer_to_device self_device value device)
              items pl with
      | (Returned l, pl') => (Returned (STuple true l), pl')
      | (Raised m, pl') => (Raised m, pl')
      end
  | STensor t _ =>
      (Returned (STensor t (match device with Some d => d | None => self_device end)),
       pl)
  | SModule m =>
      (Returned (SModule m),
       module_to m (match device with Some d => d | None => self_device end) pl)
  | SNone => (Returned SNone, pl)
  | SOther type_name => (Raised (incorrect_struct_type type_name), pl)
  end.

(** The same structure in plain containers with every tensor on the
    device [d]. *)
Fixpoint on_device (d : device) (s : pystruct) : pystruct :=
  match s with
  | SDict _ items => SDict true (map (fun kv => (fst kv, on_device d (snd kv))) items)
  | SList _ items => SList true (map (on_device d) items)
  | STuple _ items => STuple true (map (on_device d) items)
  | STensor t _ => STensor t d
  | SModule m => SModule m
  | SNone => SNone
  | SOther type_name => SOther type_name
  end.

(** The [nn.Module] objects met when [s] is read in order up to its first
    value of another type, and the type of that value. *)
Definition walk_list {X} (walk : X -> list module_obj * option string)
    : list X -> list module_obj * option string :=
  fix go items :=
    match items with
    | [] => ([], None)
    | value :: items' =>
        match walk value with
        | (ms, None) => let '(ms', bad) := go items' in (ms ++ ms', bad)
        | (ms, Some ty) => (ms, Some ty)
        end
    end.

Fixpoint walk (s : pystruct) : list module_obj * option string :=
  match s with
  | SDict _ items => walk_list (fun kv => walk (snd kv)) items
  | SList _ items => walk_list walk items
  | STuple _ items => walk_list walk items
  | STensor _ _ => ([], None)
  | SModule m => ([m], None)
  | SNone => ([], None)
  | SOther type_name => ([], Some type_name)
  end.

(** Every dict in [s] has distinct keys, as a Python dict has. *)
Fixpoint distinct_keys (ks : list pykey) : bool :=
  match ks with
  | [] => true
  | k :: ks' => negb (existsb (pykey_eqb k) ks') && distinct_keys ks'
  end.

Fixpoint well_keyed (s : pystruct) : bool :=
  match s with
  | SDict _ items =>
      distinct_keys (map fst items) && forallb (fun kv => well_keyed (snd kv)) items
  | SList _ items => forallb well_keyed items
  | STuple _ items => forallb well_keyed items
  | _ => true
  end.

(** What a call does, piece by piece: the placement it leaves, when it
    raises, and what it returns. *)
Definition transfer_spec (self_device : device) (dev : option device)
    (s : pystruct) : Prop :=
  let d := match dev with Some d => d | None => self_device end in
  forall pl,
    snd (transfer_to_device self_device s dev pl)
      = fold_left (fun pl m => module_to m d pl) (fst (walk s)) pl /\
    match snd (walk s) with
    | Some ty =>
        fst (transfer_to_device self_device s dev pl)
          = Raised (incorrect_struct_type ty)
    | None =>
        exists s', fst (transfer_to_device self_device s dev pl) = Returned s' /\
                   (well_keyed s = true -> s' = on_device d s)
    end.

End Structs.

(** The objects whose parameters torch's [to] moves from [m]: [m] and the
    registered children below it. *)
Fixpoint registered (m : module_obj) : list ref :=
  match m with
  | Plain id children => id :: flat_map registered children
  | Repo id children _ => id :: flat_map registered children
  end.

(** The objects whose parameters [m.to(device)] moves: through an object
    of the class [Module], also what its children's and its buffer
    modules' own [to] move. *)
Fixpoint moved (m : module_obj) : list ref :=
  match m with
  | Plain _ _ => registered m
  | Repo id children modules_buffer =>
      flat_map moved children
      ++ flat_map (fun kv => moved (snd kv)) modules_buffer
      ++ registered m
  end.

(** The [Module] objects whose [device] attribute [m.to(device)] sets:
    those whose overridden [to] is called. *)
Fixpoint retargeted (m : module_obj) : list ref :=
  match m with
  | Plain _ _ => []
  | Repo id children modules_buffer =>
      id :: flat_map retargeted children
         ++ flat_map (fun kv => retargeted (snd kv)) modules_buffer
  end.

End NNet.

(** * Properties *)

(** ** The error monad *)

Lemma bind_Ok_inv {A B} (m : result A) (k : A -> result B) (b : B) :
  bind m k = Ok b -> exists a, m = Ok a /\ k a = Ok b.
Proof. destruct m as [a|e]; simpl; intros H; [eauto | discriminate]. Qed.

Lemma attr_Ok_inv {A} (o : option A) (a : A) : attr o = Ok a -> o = Some a.
Proof. destruct o; simpl; congruence. Qed.

(** Inverts the first monadic step of a hypothesis [bind m k = Ok b]. *)
Tactic Notation "inv_bind" hyp(H) :=
  let a := fresh "a" in
  let Ha := fresh "Hm" in
  apply bind_Ok_inv in H; destruct H as (a & Ha & H).

Tactic Notation "inv_bind" hyp(H) "as" ident(x) ident(Hx) :=
  apply bind_Ok_inv in H; destruct H as (x & Hx & H).

(** ** Tensor operators *)

Lemma shape_eqb_refl (s : list nat) : shape_eqb s s = true.
Proof.
  induction s as [|a s IH]; simpl; [reflexivity|].
  now rewrite Nat.eqb_refl.
Qed.

Lemma shape_eqb_eq (s1 s2 : list nat) : shape_eqb s1 s2 = true -> s1 = s2.
Proof.
  revert s2; induction s1 as [|a s1 IH]; intros [|b s2]; simpl;
    try discriminate; auto.
  intros H. apply andb_prop in H. destruct H as [Hab Hs].
  apply Nat.eqb_eq in Hab. apply IH in Hs. congruence.
Qed.


Lemma item_Ok_single {A} (t : tensor A) (x : A) :
  item t = Ok x -> data t = [x].
Proof.
  unfold item. destruct (data t) as [|y [|z l]]; try discriminate. congruence.
Qed.

Lemma item_many {A} (t : tensor A) :
  length (data t) <> 1 -> item t = Err TorchError.
Proof.
  unfold item. destruct (data t) as [|y [|z l]]; simpl; intros H;
    try reflexivity. congruence.
Qed.

Lemma length_concat_repeat {A} (d : list A) (n : nat) :
  length (concat (repeat d n)) = n * length d.
Proof.
  induction n as [|n IH]; simpl; [reflexivity|].
  rewrite length_app, IH. reflexivity.
Qed.

(** The [i]-th block of [n] copies of [d] is [d]. *)
Lemma block_of_concat_repeat {A} (d : list A) (n i : nat) :
  i < n ->
  firstn (length d) (skipn (i * length d) (concat (repeat d n))) = d.
Proof.
  revert i; induction n as [|n IH]; intros i Hi; [lia|].
  destruct i as [|i]; simpl.
  - rewrite firstn_app, Nat.sub_diag, firstn_all. simpl. now rewrite app_nil_r.
  - rewrite skipn_app.
    rewrite (skipn_all2 d) by lia.
    replace (length d + i * length d - length d) with (i * length d) by lia.
    simpl. apply IH. lia.
Qed.

(** ** The collate utility *)

Section CollateFacts.
Import Collate.
Variable A : Type.

Lemma collate_list_loop_one (samples : list (sample A)) (p : params)
    (acc : list (tensor A)) :
  collate_list_loop samples [p] acc =
  (t <- select_stack samples p ;; Ok (acc ++ [t])).
Proof. simpl. destruct (select_stack samples p); reflexivity. Qed.

(** A one-entry list of parameters gives the bare stacked tensor, and so
    does a one-entry tuple. *)
Lemma collate_single_sequence (samples : list (sample A)) (p : params) :
  collate samples (ParamsList [p]) =
    (t <- select_stack samples p ;; Ok (CBare t)) /\
  collate samples (ParamsTuple [p]) =
    (t <- select_stack samples p ;; Ok (CBare t)).
Proof.
  unfold collate. rewrite collate_list_loop_one.
  destruct (select_stack samples p); simpl; auto.
Qed.

(** A one-entry mapping gives the bare stacked tensor when its key is the
    integer 0, and a [KeyError] under any other key: the result dict is
    indexed with 0. *)
Lemma collate_single_mapping (samples : list (sample A)) (name : pykey)
    (p : params) (t : tensor A) :
  select_stack samples p = Ok t ->
  collate samples (ParamsDict [(name, p)]) =
    if pykey_eqb name (KInt 0) then Ok (CBare t) else Err KeyError.
Proof.
  intros Hs. unfold collate. simpl. rewrite Hs. simpl.
  destruct (pykey_eqb name (KInt 0)); reflexivity.
Qed.

End CollateFacts.

(** C4 (the code departs from the claim).  Claim: a parameter structure
    (mapping, list or tuple) with exactly one entry collates to the bare
    stacked array.  For the mapping [{"x": {"axis": 0}}] and the single
    sample [(t0, t1)], selecting and stacking succeed, yet [collate] raises
    [KeyError]: [collates[0]] looks the key 0 up in the result dict.  The
    same parameters given as a list or as a tuple yield the bare array. *)
Theorem collate_single_mapping_key_error :
  let t0 := Tensor [2] [1%Z; 2%Z] in
  let t1 := Tensor [] [7%Z] in
  let p : Collate.params := [(KStr "axis", 0%Z)] in
  Collate.select_stack [[t0; t1]] p = Ok (Tensor [1; 2] [1%Z; 2%Z]) /\
  Collate.collate [[t0; t1]] (Collate.ParamsDict [(KStr "x", p)]) = Err KeyError /\
  Collate.collate [[t0; t1]] (Collate.ParamsList [p])
    = Ok (Collate.CBare (Tensor [1; 2] [1%Z; 2%Z])) /\
  Collate.collate [[t0; t1]] (Collate.ParamsTuple [p])
    = Ok (Collate.CBare (Tensor [1; 2] [1%Z; 2%Z])).
Proof. repeat split; reflexivity. Qed.

(** ** The Atari adapter *)

Section AtariFacts.
Import Atari.
Variable str_float : float -> string.
Variable S : Simulator.

(** What a successful [step] has done, block by block. *)
Lemma atari_step_inv (now : string) (e e' : AtariEnv S) (action : tensor pynumber)
    (files : list video_file) (t : Transition) :
  step str_float now e action = Ok (e', files, t) ->
  exists a sim raw r d score video video_pre obs,
    item action = Ok a /\
    sim_step S (env e) a = Ok (sim, (raw, r, d)) /\
    episode_score e = Some score /\
    add_to_video (config e) (episode_video e) (episode_video_pre e)
      (sim_get_image S sim) raw = Ok (video, video_pre) /\
    save_if_done str_float (config e) now d (score + r)%float video video_pre
      = Ok (episode_video e', episode_video_pre e', files) /\
    to_chw (config e) raw = Ok obs /\
    shift_history (config e) (history e) obs = Ok (state t) /\
    config e' = config e /\ env e' = sim /\
    history e' = Some (state t) /\
    episode_score e' = Some (score + r)%float /\
    reward t = to_float32 r /\
    done t = bool_float32 d /\
    is_first t = bool_float32 false /\
    is_last t = (if terminal_on_life_loss (config e)
                 then bool_float32 (sim_game_over S sim)
                 else bool_float32 d).
Proof.
  unfold step. intros H.
  inv_bind H. destruct (sim_step S (env e) a) as [[sim [[raw r] d]]|] eqn:Hsim;
    [|discriminate].
  simpl in H. inv_bind H. apply attr_Ok_inv in Hm0.
  inv_bind H. destruct a1 as [video video_pre].
  inv_bind H. destruct a1 as [[video' video_pre'] files'].
  unfold preprocess in H. simpl in H.
  inv_bind H. destruct a1 as [[[obs r32] d32] l32].
  inv_bind Hm3. injection Hm3 as <- <- <- <-.
  inv_bind H. injection H as <- <- <-.
  exists a, sim, raw, r, d, a0, video, video_pre, a1. simpl.
  repeat split; auto.
Qed.

(** C9.  The one-hot vector [sample] returns has [num_actions] elements, so
    with more than one action [step] fails on it at [action.item()]; and
    whenever [step] succeeds, the action tensor held exactly one element. *)
Theorem atari_step_rejects_one_hot_sample (now : string) (e : AtariEnv S) :
  (forall k, 1 < num_actions (config e) ->
     step str_float now e (sample e k) = Err TorchError) /\
  (forall action r,
     step str_float now e action = Ok r -> length (data action) = 1).
Proof.
  split.
  - intros k Hn. unfold step.
    rewrite item_many; [reflexivity|].
    unfold sample, one_hot. simpl. rewrite length_map, length_seq. lia.
  - intros action [[e' files] t] H.
    apply atari_step_inv in H.
    destruct H as (a & sim & raw & r & d & score & v & p & obs & Hitem & _).
    apply item_Ok_single in Hitem. now rewrite Hitem.
Qed.

End AtariFacts.

(** On the four-action game, the sampled action for index 2 is rejected
    and the one-element tensor holding 2 is accepted. *)
Lemma atari_step_rejects_one_hot_sample_witness :
  let e := Toy.atari_started (Toy.atari_env true false 2 None) in
  let action := Tensor [] [PyInt 2] in
  1 < Atari.num_actions (Atari.config e) /\
  Atari.step Toy.str_float "t" e (Atari.sample e 2) = Err TorchError /\
  exists r,
    Atari.step Toy.str_float "t" e action = Ok r /\
    length (data action) = 1.
Proof.
  cbv zeta.
  destruct (atari_step_rejects_one_hot_sample Toy.str_float "t"
              (Toy.atari_started (Toy.atari_env true false 2 None)))
    as [Hsample Hone].
  assert (Hn : 1 < 4) by lia.
  split; [exact Hn|].
  split; [exact (Hsample 2 Hn)|].
  eexists. split; [vm_compute; reflexivity|].
  eapply Hone. vm_compute. reflexivity.
Defined.

(** ** The continuous-control adapter *)

Section DmcFacts.
Import DMC.
Variable str_float : float -> string.
Variable S : Simulator.

Lemma process_infos_inv (infos : TimeStep) obs sr sd :
  process_infos infos = Ok (obs, sr, sd) ->
  permute201 (pixels infos) = Ok obs /\ sr = ts_reward infos /\ sd = last infos.
Proof.
  unfold process_infos. intros H. inv_bind H. injection H as <- <- <-. auto.
Qed.

Lemma add_to_video_inv (c : Config) video video_pre (sim : physics S) obs v p :
  add_to_video S c video video_pre sim obs = Ok (v, p) ->
  match episode_saving_path c with
  | Some _ => rec_extends 1 video v /\ rec_extends 1 video_pre p
  | None => v = video /\ p = video_pre
  end.
Proof.
  unfold add_to_video. destruct (episode_saving_path c) as [path|].
  - intros H. inv_bind H. apply attr_Ok_inv in Hm. subst video.
    inv_bind H. destruct a as [fs|]; [|discriminate]. injection Hm as <-.
    inv_bind H. apply attr_Ok_inv in Hm. subst video_pre.
    inv_bind H. inv_bind H. destruct a as [ps|]; [|discriminate].
    injection Hm0 as <-. injection H as <- <-.
    split; right; eexists _, [_]; eauto.
  - intros H. injection H as <- <-. auto.
Qed.

(** One pass of the loop. *)
Lemma loop_body_inv (c : Config) (action : tensor float) (l l1 : Loop S) :
  loop_body c action l = Ok l1 ->
  exists infos obs r,
    sim_step S (l_env l) (tolist action) = Ok (l_env l1, infos) /\
    permute201 (pixels infos) = Ok obs /\
    ts_reward infos = Some r /\
    l_reward l1 = (l_reward l + r)%float /\
    l_done l1 = l_done l || last infos /\
    l_obs_pixels l1 = Some obs /\
    match episode_saving_path c with
    | Some _ => rec_extends 1 (l_video l) (l_video l1) /\
                rec_extends 1 (l_video_pre l) (l_video_pre l1)
    | None => l_video l1 = l_video l /\ l_video_pre l1 = l_video_pre l
    end.
Proof.
  unfold loop_body. intros H.
  inv_bind H. destruct a as [sim infos].
  inv_bind H. destruct a as [[obs sr] sd].
  apply process_infos_inv in Hm0. destruct Hm0 as (Hobs & -> & ->).
  inv_bind H. destruct a as [v p]. apply add_to_video_inv in Hm0.
  inv_bind H. unfold add_reward in Hm1.
  destruct (ts_reward infos) as [r|] eqn:Hr; [|discriminate].
  injection Hm1 as <-. injection H as <-. simpl.
  exists infos, obs, r. repeat split; auto.
Qed.

Lemma rec_extends_trans (n m : nat) (a b c : option recording) :
  rec_extends n a b -> rec_extends m b c -> rec_extends (n + m) a c.
Proof.
  intros [[-> ->]|(fs & news & -> & -> & Hn)] [[-> ->]|(fs' & news' & Hb & -> & Hm)].
  - left; auto.
  - right. exists fs', news'. auto.
  - right. exists fs, news. rewrite Nat.add_0_r. auto.
  - injection Hb as <-. right. exists fs, (news ++ news').
    rewrite app_assoc, length_app. auto.
Qed.

(** The whole action-repeat loop: the rewards the simulator reported are
    added up in order, the termination flags are or-ed, the pixels of the
    last time step are kept, and every pass appends one frame to each
    recording buffer. *)
Lemma loop_spec (c : Config) (action : tensor float) (n : nat) :
  forall l l' : Loop S,
  for_range n (loop_body c action) l = Ok l' ->
  exists trace rs,
    sim_steps S n (l_env l) (tolist action) = Ok trace /\
    length trace = n /\
    map ts_reward trace = map Some rs /\
    l_reward l' = fold_left PrimFloat.add rs (l_reward l) /\
    l_done l' = l_done l || existsb last trace /\
    ((n = 0 /\ l' = l) \/
     exists front infos obs,
       trace = front ++ [infos] /\
       permute201 (pixels infos) = Ok obs /\
       l_obs_pixels l' = Some obs) /\
    match episode_saving_path c with
    | Some _ => rec_extends n (l_video l) (l_video l') /\
                rec_extends n (l_video_pre l) (l_video_pre l')
    | None => l_video l' = l_video l /\ l_video_pre l' = l_video_pre l
    end.
Proof.
  induction n as [|n IH]; intros l l' H.
  - simpl in H. injection H as <-. exists [], []. simpl.
    rewrite orb_false_r. repeat split; auto.
    destruct (episode_saving_path c); split; auto; left; auto.
  - simpl in H. inv_bind H. rename a into l1.
    apply loop_body_inv in Hm.
    destruct Hm as (infos & obs & r & Hstep & Hobs & Hr & Hrew & Hdone & Hpix & Hvid).
    apply IH in H.
    destruct H as (trace & rs & Htr & Hlen & Hrs & Hsum & Hor & Hlast & Hvid').
    exists (infos :: trace), (r :: rs). simpl.
    rewrite Hstep. simpl. rewrite Htr. simpl.
    repeat split.
    + now rewrite Hlen.
    + now rewrite Hr, Hrs.
    + now rewrite Hsum, Hrew.
    + now rewrite Hor, Hdone, orb_assoc.
    + right. destruct Hlast as [[-> ->]|(front & infos' & obs' & -> & Hobs' & Hpix')].
      * destruct trace; [|discriminate]. exists [], infos, obs. auto.
      * exists (infos :: front), infos', obs'. auto.
    + destruct (episode_saving_path c).
      * destruct Hvid as [Hv Hp], Hvid' as [Hv' Hp'].
        split; [exact (rec_extends_trans Hv Hv') | exact (rec_extends_trans Hp Hp')].
      * destruct Hvid as [Hv Hp], Hvid' as [Hv' Hp']. split; congruence.
Qed.

(** What a successful [step] has done, block by block. *)
Lemma dmc_step_inv (now : string) (e e' : DeepMindControlEnv S)
    (action : tensor float) (files : list video_file) (t : Transition) :
  step str_float now e action = Ok (e', files, t) ->
  exists n l score,
    num_actions (config e) = Some n /\
    shape action = [n] /\
    for_range (Z.to_nat (action_repeat (config e)))
      (loop_body (config e)
         (clip (clip_low (config e)) (clip_high (config e)) action))
      {| l_env := env e;
         l_video := episode_video e; l_video_pre := episode_video_pre e;
         l_reward := 0%float; l_done := false; l_obs_pixels := None |} = Ok l /\
    episode_score e = Some score /\
    save_if_done str_float (config e) now (l_done l) (score + l_reward l)%float
      (l_video l) (l_video_pre l)
      = Ok (episode_video e', episode_video_pre e', files) /\
    shift_history (history e) (l_obs_pixels l) = Ok (state t) /\
    config e' = config e /\ env e' = l_env l /\
    history e' = Some (state t) /\
    episode_score e' = Some (score + l_reward l)%float /\
    reward t = to_float32 (l_reward l) /\
    done t = bool_float32 false /\
    is_last t = bool_float32 false /\
    is_first t = bool_float32 false.
Proof.
  unfold step. intros H.
  inv_bind H. apply attr_Ok_inv in Hm. rename a into n.
  inv_bind H.
  destruct (shape_eqb (shape action) [n]) eqn:Hshape; [|discriminate].
  apply shape_eqb_eq in Hshape.
  inv_bind H. rename a0 into l.
  inv_bind H. apply attr_Ok_inv in Hm2. rename a0 into score.
  inv_bind H. destruct a0 as [[video video_pre] files'].
  inv_bind H. injection H as <- <- <-.
  exists n, l, score. simpl. repeat split; auto.
Qed.

(** The time steps of [dmc_sim_run] are those of [sim_steps]. *)
Lemma dmc_sim_run_steps (n : nat) :
  forall sim a sim' trace,
    dmc_sim_run S n sim a = Ok (sim', trace) -> sim_steps S n sim a = Ok trace.
Proof.
  induction n as [|n IH]; simpl; intros sim a sim' trace H.
  - injection H as _ <-. reflexivity.
  - inv_bind H as r1 H1. destruct r1 as [sim1 infos].
    inv_bind H as r2 H2. destruct r2 as [sim2 rest]. injection H as _ <-.
    rewrite H1. simpl. now rewrite (IH _ _ _ _ H2).
Qed.

(** The loop of [step] steps the simulator [n] times. *)
Lemma loop_sim_run (c : Config) (action : tensor float) (n : nat) :
  forall l l' : Loop S,
    for_range n (loop_body c action) l = Ok l' ->
    exists trace, dmc_sim_run S n (l_env l) (tolist action) = Ok (l_env l', trace).
Proof.
  induction n as [|n IH]; simpl; intros l l' H.
  - injection H as <-. eauto.
  - inv_bind H as l1 H1. apply loop_body_inv in H1.
    destruct H1 as (infos & obs & r & Hstep & _).
    apply IH in H. destruct H as (trace & Htrace).
    rewrite Hstep. simpl. rewrite Htrace. simpl. eauto.
Qed.

(** The rewards of time steps that all carry one. *)
Lemma trace_rewards_all (trace : list TimeStep) (rs : list float) :
  map ts_reward trace = map Some rs -> trace_rewards trace = rs.
Proof.
  revert rs; induction trace as [|infos trace IH]; intros [|r rs] H;
    try discriminate; [reflexivity|].
  simpl in H. injection H as Hr Hrest. unfold trace_rewards. simpl.
  rewrite Hr. simpl. f_equal. now apply IH.
Qed.

(** One [step] against the simulator. *)
Lemma dmc_step_mirror now (e e' : DeepMindControlEnv S) action files t score :
  episode_score e = Some score ->
  step str_float now e action = Ok (e', files, t) ->
  exists trace,
    dmc_sim_run S (Z.to_nat (action_repeat (config e))) (env e)
      (tolist (clip (clip_low (config e)) (clip_high (config e)) action))
      = Ok (env e', trace) /\
    reward t = to_float32 (float_sum (trace_rewards trace)) /\
    episode_score e' = Some (score + float_sum (trace_rewards trace))%float /\
    config e' = config e.
Proof.
  intros Hscore H. apply dmc_step_inv in H.
  destruct H as (n & l & score' & _ & _ & Hloop & Hscore' & _ & _ & Hc & Henv & _
                 & Hscore1 & Hr & _).
  rewrite Hscore in Hscore'. injection Hscore' as <-.
  pose proof (loop_sim_run _ _ _ _ Hloop) as (trace & Hrun).
  pose proof Hrun as Hsteps. apply dmc_sim_run_steps in Hsteps.
  apply loop_spec in Hloop.
  destruct Hloop as (trace' & rs & Htr & _ & Hrs & Hsum & _).
  cbn [l_env l_reward] in *. rewrite Hsteps in Htr. injection Htr as <-.
  apply trace_rewards_all in Hrs. subst rs.
  exists trace. rewrite Henv, Hr, Hscore1, Hsum. auto.
Qed.

(** C7.  The reward of the transition a continuous-control [step] returns
    is the sum of the rewards the simulator reported over the
    [action_repeat] sub-steps of that call (given the clipped action),
    added in order from 0.0 as Python floats and stored as a float32. *)
Theorem dmc_step_reward_is_sum (now : string) (e e' : DeepMindControlEnv S)
    (action : tensor float) (files : list video_file) (t : Transition) :
  step str_float now e action = Ok (e', files, t) ->
  exists trace rs,
    sim_steps S (Z.to_nat (action_repeat (config e))) (env e)
      (tolist (clip (clip_low (config e)) (clip_high (config e)) action))
      = Ok trace /\
    length trace = Z.to_nat (action_repeat (config e)) /\
    map ts_reward trace = map Some rs /\
    reward t = to_float32 (fold_left PrimFloat.add rs 0%float).
Proof.
  intros H. apply dmc_step_inv in H.
  destruct H as (n & l & score & _ & _ & Hloop & _ & _ & _ & _ & _ & _ & _ & Hr & _).
  apply loop_spec in Hloop.
  destruct Hloop as (trace & rs & Htr & Hlen & Hrs & Hsum & _).
  exists trace, rs. simpl in *. rewrite Hr, Hsum. auto.
Qed.

(** The [done] and [is_last] of a continuous-control transition are the
    constant 0.0, whatever the sub-steps reported. *)
Lemma dmc_step_done_is_zero (now : string) (e e' : DeepMindControlEnv S)
    (action : tensor float) (files : list video_file) (t : Transition) :
  step str_float now e action = Ok (e', files, t) ->
  done t = 0%float /\ is_last t = 0%float.
Proof.
  intros H. apply dmc_step_inv in H.
  destruct H as (n & l & score & _ & _ & _ & _ & _ & _ & _ & _ & _ & _ & _ & Hd & Hl & _).
  auto.
Qed.

End DmcFacts.

(** Two sub-steps of the toy task report 0.5 and 0.25; the step returns
    0.75. *)
Lemma dmc_step_reward_is_sum_witness :
  let e := Toy.dmc_started (Toy.acrobot_env 4 2 2 None) in
  let action := Tensor [1] [5%float] in
  exists e' files t,
    DMC.step Toy.str_float "t" e action = Ok (e', files, t) /\
    reward t = 0.75%float /\
    exists trace rs,
      DMC.sim_steps (Toy.dmc 4) 2 (DMC.env e) (tolist (clip (-1) 1 action))
        = Ok trace /\
      length trace = 2 /\
      map DMC.ts_reward trace = map Some rs /\
      reward t = to_float32 (fold_left PrimFloat.add rs 0%float).
Proof.
  cbv zeta. eexists _, _, _.
  split; [vm_compute; reflexivity|].
  split; [vm_compute; reflexivity|].
  eapply (@dmc_step_reward_is_sum Toy.str_float (Toy.dmc 4) "t"
            (Toy.dmc_started (Toy.acrobot_env 4 2 2 None))).
  vm_compute. reflexivity.
Defined.

(** C1 (the code departs from the claim).  Claim: [done] is true iff one of
    the sub-steps reported termination.  On a one-step episode with
    [action_repeat = 1] the only sub-step is the last of its episode, and
    the transition still carries [done = 0.0]: [step] overwrites the or-ed
    flag with [torch.tensor(False)] before returning. *)
Theorem dmc_step_done_drops_termination :
  let e := Toy.dmc_started (Toy.acrobot_env 1 1 1 None) in
  let action := Tensor [1] [0%float] in
  exists e' files t trace,
    DMC.step Toy.str_float "t" e action = Ok (e', files, t) /\
    DMC.sim_steps (Toy.dmc 1) 1 (DMC.env e) (tolist (clip (-1) 1 action))
      = Ok trace /\
    existsb DMC.last trace = true /\
    done t = 0%float /\
    flag_true (done t) = false.
Proof.
  cbv zeta. eexists _, _, _, _.
  split; [vm_compute; reflexivity|].
  split; [vm_compute; reflexivity|].
  repeat split.
Qed.

(** ** [is_last] against [done] *)

(** C8.  Without terminate-on-life-loss an Atari transition has [is_last]
    equal to [done], and so has every continuous-control transition.  With
    the option set, [is_last] is the emulator's game-over flag, not [done]:
    the game in which every action costs a life, started with three lives,
    reaches after [__init__], [reset] and one [step] a transition with
    [done] true and [is_last] false. *)
Theorem is_last_equals_done_unless_life_loss :
  (forall str (S : Atari.Simulator) now (e e' : Atari.AtariEnv S) action files t,
     Atari.step str now e action = Ok (e', files, t) ->
     Atari.terminal_on_life_loss (Atari.config e) = false ->
     is_last t = done t) /\
  (forall str (S : DMC.Simulator) now (e e' : DMC.DeepMindControlEnv S)
          action files t,
     DMC.step str now e action = Ok (e', files, t) ->
     is_last t = done t) /\
  (forall str (S : Atari.Simulator) now (e e' : Atari.AtariEnv S) action files t,
     Atari.step str now e action = Ok (e', files, t) ->
     Atari.terminal_on_life_loss (Atari.config e) = true ->
     is_last t = bool_float32 (Atari.sim_game_over S (Atari.env e'))) /\
  (exists (e0 e1 e2 : Atari.AtariEnv (Toy.atari true true 4)) t1 files t2,
     Atari.init (Toy.atari true true 4) (3, 0%Z) (2, 2) 4 2 None true true = Ok e0 /\
     Atari.terminal_on_life_loss (Atari.config e0) = true /\
     Atari.reset e0 = Ok (e1, t1) /\
     Atari.step Toy.str_float "t" e1 (Tensor [] [PyInt 0]) = Ok (e2, files, t2) /\
     flag_true (done t2) = true /\
     flag_true (is_last t2) = false).
Proof.
  split; [|split; [|split]].
  - intros str S now e e' action files t H Htll.
    apply atari_step_inv in H.
    destruct H as (a & sim & raw & r & d & score & v & p & obs & H).
    decompose [and] H. rewrite Htll in *. congruence.
  - intros str S now e e' action files t H.
    apply dmc_step_done_is_zero in H. destruct H. congruence.
  - intros str S now e e' action files t H Htll.
    apply atari_step_inv in H.
    destruct H as (a & sim & raw & r & d & score & v & p & obs & H).
    decompose [and] H. rewrite Htll in *. congruence.
  - eexists _, _, _, _, _, _.
    split; [vm_compute; reflexivity|].
    split; [reflexivity|].
    split; [vm_compute; reflexivity|].
    split; [vm_compute; reflexivity|].
    split; reflexivity.
Qed.

(** With the option off, the same game's first step has [is_last = done]. *)
Lemma is_last_equals_done_unless_life_loss_witness :
  let e := Toy.atari_started (Toy.atari_env true false 2 None) in
  exists e' files t,
    Atari.step Toy.str_float "t" e (Tensor [] [PyInt 0]) = Ok (e', files, t) /\
    Atari.terminal_on_life_loss (Atari.config e) = false /\
    is_last t = done t.
Proof.
  cbv zeta. eexists _, _, _.
  split; [vm_compute; reflexivity|].
  split; [reflexivity|].
  eapply (proj1 is_last_equals_done_unless_life_loss Toy.str_float
            (Toy.atari true false 4) "t"%string
            (Toy.atari_started (Toy.atari_env true false 2 None)) _
            (Tensor [] [PyInt 0])).
  - vm_compute. reflexivity.
  - reflexivity.
Defined.

(** ** What [step] checks about the action *)






(** ** Episode recording *)

Lemma flag_true_bool_float32 (b : bool) : flag_true (bool_float32 b) = b.
Proof. destruct b; reflexivity. Qed.

Lemma rec_stack_inv (r : recording) (v : tensor uint8) :
  rec_stack r = Ok v -> exists fs, r = Frames fs /\ stack0 fs = Ok v.
Proof. destruct r as [fs|s]; simpl; intros H; [eauto | discriminate]. Qed.

Section AtariRecording.
Import Atari.
Variable str_float : float -> string.
Variable S : Simulator.

Lemma atari_add_to_video_inv (c : Config) video video_pre image raw v1 p1 path :
  episode_saving_path c = Some path ->
  add_to_video c video video_pre image raw = Ok (v1, p1) ->
  exists fs ps,
    video = Some (Frames fs) /\ video_pre = Some (Frames ps) /\
    v1 = Some (Frames (fs ++ [image])) /\ p1 = Some (Frames (ps ++ [raw])).
Proof.
  unfold add_to_video. intros -> H.
  inv_bind H. apply attr_Ok_inv in Hm. subst video.
  inv_bind H. destruct a as [fs|]; [|discriminate]. injection Hm as <-.
  inv_bind H. apply attr_Ok_inv in Hm. subst video_pre.
  inv_bind H. destruct a as [ps|]; [|discriminate]. injection Hm as <-.
  injection H as <- <-. eauto 6.
Qed.

Lemma atari_save_if_done_inv (c : Config) now score video video_pre v2 p2 files path :
  episode_saving_path c = Some path ->
  save_if_done str_float c now true score video video_pre = Ok (v2, p2, files) ->
  exists fs ps v p p3,
    video = Some (Frames fs) /\ video_pre = Some (Frames ps) /\
    stack0 fs = Ok v /\ stack0 ps = Ok p /\
    (if grayscale_obs c then gray_to_rgb p else Ok p) = Ok p3 /\
    map filename files =
      [ path_join path (date_time_score now (str_float score) ++ ".mp4");
        path_join path (date_time_score now (str_float score) ++ "_pre.mp4")
      ]%string /\
    map video_array files = [v; p3] /\
    v2 = Some (Stacked v) /\ p2 = Some (Stacked p).
Proof.
  unfold save_if_done. intros -> H.
  inv_bind H as r Hr. apply attr_Ok_inv in Hr. subst video.
  inv_bind H as v Hv. apply rec_stack_inv in Hv. destruct Hv as (fs & -> & Hv).
  inv_bind H as r' Hr'. apply attr_Ok_inv in Hr'. subst video_pre.
  inv_bind H as p Hp. apply rec_stack_inv in Hp. destruct Hp as (ps & -> & Hp).
  inv_bind H as fl Hfl. unfold save_episode in Hfl. inv_bind Hfl as p3 Hp3.
  injection Hfl as <-. injection H as <- <- <-.
  exists fs, ps, v, p, p3. simpl.
  repeat split; auto.
Qed.

End AtariRecording.

Section DmcRecording.
Import DMC.
Variable str_float : float -> string.

Lemma dmc_save_if_done_inv (c : Config) now score video video_pre v2 p2 files path :
  episode_saving_path c = Some path ->
  save_if_done str_float c now true score video video_pre = Ok (v2, p2, files) ->
  exists fs ps v p,
    video = Some (Frames fs) /\ video_pre = Some (Frames ps) /\
    stack0 fs = Ok v /\ stack0 ps = Ok p /\
    map filename files =
      [ path_join path (date_time_score now (str_float score) ++ ".mp4");
        path_join path (date_time_score now (str_float score) ++ "_pre.mp4")
      ]%string /\
    map video_array files = [v; p] /\
    v2 = Some (Stacked v) /\ p2 = Some (Stacked p).
Proof.
  unfold save_if_done. intros -> H.
  inv_bind H as r Hr. apply attr_Ok_inv in Hr. subst video.
  inv_bind H as v Hv. apply rec_stack_inv in Hv. destruct Hv as (fs & -> & Hv).
  inv_bind H as r' Hr'. apply attr_Ok_inv in Hr'. subst video_pre.
  inv_bind H as p Hp. apply rec_stack_inv in Hp. destruct Hp as (ps & -> & Hp).
  injection H as <- <- <-.
  exists fs, ps, v, p. simpl.
  repeat split; auto.
Qed.

End DmcRecording.

Section DmcLoopFrames.
Import DMC.
Variable S : Simulator.

(** What the loop of a recording [step] appends to the two buffers: per
    sub-step the camera image rendered on the state the simulator has
    reached, and the pixel observation of the sub-step taken to channels
    first and back. *)
Lemma loop_frames (c : Config) (action : tensor float) (path : string) (n : nat) :
  episode_saving_path c = Some path ->
  forall (l l' : Loop S) fs ps,
    l_video l = Some (Frames fs) ->
    l_video_pre l = Some (Frames ps) ->
    for_range n (loop_body c action) l = Ok l' ->
    exists states trace pre,
      dmc_sim_states S n (l_env l) (tolist action) = Ok states /\
      dmc_sim_run S n (l_env l) (tolist action) = Ok (l_env l', trace) /\
      length states = n /\ length pre = n /\
      Forall2 (fun infos frame =>
                 exists obs, permute201 (pixels infos) = Ok obs /\
                             permute120 obs = Ok frame) trace pre /\
      l_video l' = Some (Frames (fs ++ map (get_obs S c) states)) /\
      l_video_pre l' = Some (Frames (ps ++ pre)).
Proof.
  intros Hp. induction n as [|n IH]; intros l l' fs ps Hv Hpre H.
  - simpl in H. injection H as <-. exists [], [], []. simpl.
    rewrite !app_nil_r. repeat split; auto.
  - simpl in H. inv_bind H as l1 H1.
    unfold loop_body in H1.
    inv_bind H1 as r Hstep. destruct r as [sim infos].
    unfold process_infos in H1.
    inv_bind H1 as r Hproc. destruct r as [[obs sr] sd].
    inv_bind Hproc as obs' Hobs. injection Hproc as -> <- <-.
    inv_bind H1 as r Hadd. destruct r as [v1 p1].
    inv_bind H1 as rw Hrw. injection H1 as <-.
    unfold add_to_video in Hadd. rewrite Hp, Hv, Hpre in Hadd. simpl in Hadd.
    inv_bind Hadd as frame Hframe. injection Hadd as <- <-.
    eapply IH in H; [|reflexivity|reflexivity].
    destruct H as (states & trace & pre & Hst & Hrun & Hls & Hlp & Hall & Hv' & Hp').
    cbn [l_env] in Hst, Hrun.
    exists (sim :: states), (infos :: trace), (frame :: pre).
    cbn [dmc_sim_states dmc_sim_run]. rewrite Hstep. cbn [bind].
    rewrite Hst, Hrun. cbn [bind map length].
    rewrite Hv', Hp', <- !app_assoc, Hls, Hlp.
    repeat split; auto. constructor; [eauto | exact Hall].
Qed.

End DmcLoopFrames.

(** ** [reset] *)

Lemma to_float32_zero : to_float32 0 = 0%float.
Proof. reflexivity. Qed.

Section AtariReset.
Import Atari.
Variable S : Simulator.

(** What a successful [reset] has done. *)
Lemma atari_reset_inv (e e' : AtariEnv S) (t : Transition) :
  reset e = Ok (e', t) ->
  exists sim raw obs,
    sim_reset S (env e) = Ok (sim, raw) /\
    to_chw (config e) raw = Ok obs /\
    (if (1 <? history_frames (config e))%Z
     then repeat3 (history_frames (config e)) obs
     else Ok obs) = Ok (state t) /\
    config e' = config e /\ env e' = sim /\
    history e' = Some (state t) /\
    episode_score e' = Some 0%float /\
    reward t = 0%float /\ done t = 0%float /\
    is_first t = 1%float /\ is_last t = 0%float /\
    match episode_saving_path (config e) with
    | Some _ => episode_video e' = Some (Frames []) /\
                episode_video_pre e' = Some (Frames [])
    | None => episode_video e' = episode_video e /\
              episode_video_pre e' = episode_video_pre e
    end.
Proof.
  unfold reset. intros H.
  inv_bind H as sr Hsr. destruct sr as [sim raw].
  inv_bind H as pre Hpre. destruct pre as [[[obs r] d] l].
  unfold preprocess in Hpre. simpl in Hpre.
  inv_bind Hpre as obs' Hobs. injection Hpre as <- _ _ _.
  destruct (episode_saving_path (config e)) as [path|] eqn:Hpath;
    inv_bind H as hist Hhist; injection H as <- <-;
    exists sim, raw, obs'; simpl; repeat split; auto.
Qed.

End AtariReset.

Section DmcReset.
Import DMC.
Variable S : Simulator.

(** What a successful [reset] has done. *)
Lemma dmc_reset_inv (e e' : DeepMindControlEnv S) (t : Transition) :
  reset e = Ok (e', t) ->
  exists sim infos obs,
    sim_reset S (env e) = Ok (sim, infos) /\
    permute201 (pixels infos) = Ok obs /\
    repeat3 (history_frames (config e)) obs = Ok (state t) /\
    config e' = config e /\ env e' = sim /\
    history e' = Some (state t) /\
    episode_score e' = Some 0%float /\
    num_channels e' = Some (hd 0 (shape obs)) /\
    reward t = 0%float /\ done t = 0%float /\
    is_first t = 1%float /\ is_last t = 0%float /\
    match episode_saving_path (config e) with
    | Some _ => episode_video e' = Some (Frames []) /\
                episode_video_pre e' = Some (Frames [])
    | None => episode_video e' = episode_video e /\
              episode_video_pre e' = episode_video_pre e
    end.
Proof.
  unfold reset. intros H.
  inv_bind H as sr Hsr. destruct sr as [sim infos].
  inv_bind H as pi Hpi. destruct pi as [[obs r] d].
  apply process_infos_inv in Hpi. destruct Hpi as (Hobs & _ & _).
  destruct (episode_saving_path (config e)) as [path|] eqn:Hpath;
    inv_bind H as hist Hhist; injection H as <- <-;
    exists sim, infos, obs; simpl; repeat split; auto.
Qed.

End DmcReset.

(** ** Saving a finished episode *)

(** C3, as amended.  With recording enabled, a [step] that observes the
    end of an episode (the simulator's [done] for Atari, a sub-step that is
    the last of its episode for continuous control) stacks both recording
    buffers, this call's frames included, and writes them to two video
    files before it returns: [<now>_<score>.mp4] and [<now>_<score>_pre.mp4]
    in the recording directory, [score] being the episode score after this
    step.  This call's frames are, for Atari, the screen image of the
    simulator after its step and the state that step returned; for
    continuous control, per sub-step, the camera image rendered after the
    sub-step and its pixel observation (taken to channels first and
    back).  [step] does not empty the buffers: each is left holding its
    stacked tensor.  They are set to empty lists by [reset]. *)
Theorem done_step_writes_two_videos :
  (forall str (S : Atari.Simulator) now (e e' : Atari.AtariEnv S) action files t path,
     Atari.step str now e action = Ok (e', files, t) ->
     Atari.episode_saving_path (Atari.config e) = Some path ->
     flag_true (done t) = true ->
     exists frames frames_pre a sim raw r v p p3 score,
       item action = Ok a /\
       Atari.sim_step S (Atari.env e) a = Ok (sim, (raw, r, true)) /\
       Atari.episode_video e = Some (Frames frames) /\
       Atari.episode_video_pre e = Some (Frames frames_pre) /\
       stack0 (frames ++ [Atari.sim_get_image S sim]) = Ok v /\
       stack0 (frames_pre ++ [raw]) = Ok p /\
       (if Atari.grayscale_obs (Atari.config e) then gray_to_rgb p else Ok p)
         = Ok p3 /\
       Atari.episode_score e' = Some score /\
       map filename files =
         [ path_join path (date_time_score now (str score) ++ ".mp4");
           path_join path (date_time_score now (str score) ++ "_pre.mp4")
         ]%string /\
       map video_array files = [v; p3] /\
       Atari.episode_video e' = Some (Stacked v) /\
       Atari.episode_video_pre e' = Some (Stacked p)) /\
  (forall str (S : DMC.Simulator) now (e e' : DMC.DeepMindControlEnv S)
          action files t path trace,
     DMC.step str now e action = Ok (e', files, t) ->
     DMC.episode_saving_path (DMC.config e) = Some path ->
     DMC.sim_steps S (Z.to_nat (DMC.action_repeat (DMC.config e))) (DMC.env e)
       (tolist (clip (DMC.clip_low (DMC.config e)) (DMC.clip_high (DMC.config e))
                  action)) = Ok trace ->
     existsb DMC.last trace = true ->
     exists frames frames_pre states news_pre v p score,
       DMC.episode_video e = Some (Frames frames) /\
       DMC.episode_video_pre e = Some (Frames frames_pre) /\
       dmc_sim_states S (Z.to_nat (DMC.action_repeat (DMC.config e))) (DMC.env e)
         (tolist (clip (DMC.clip_low (DMC.config e)) (DMC.clip_high (DMC.config e))
                    action)) = Ok states /\
       Forall2 (fun infos frame =>
                  exists obs, permute201 (DMC.pixels infos) = Ok obs /\
                              permute120 obs = Ok frame) trace news_pre /\
       length states = Z.to_nat (DMC.action_repeat (DMC.config e)) /\
       length news_pre = Z.to_nat (DMC.action_repeat (DMC.config e)) /\
       stack0 (frames ++ map (DMC.get_obs S (DMC.config e)) states) = Ok v /\
       stack0 (frames_pre ++ news_pre) = Ok p /\
       DMC.episode_score e' = Some score /\
       map filename files =
         [ path_join path (date_time_score now (str score) ++ ".mp4");
           path_join path (date_time_score now (str score) ++ "_pre.mp4")
         ]%string /\
       map video_array files = [v; p] /\
       DMC.episode_video e' = Some (Stacked v) /\
       DMC.episode_video_pre e' = Some (Stacked p)) /\
  (forall (S : Atari.Simulator) (e e' : Atari.AtariEnv S) t path,
     Atari.reset e = Ok (e', t) ->
     Atari.episode_saving_path (Atari.config e) = Some path ->
     Atari.episode_video e' = Some (Frames []) /\
     Atari.episode_video_pre e' = Some (Frames [])) /\
  (forall (S : DMC.Simulator) (e e' : DMC.DeepMindControlEnv S) t path,
     DMC.reset e = Ok (e', t) ->
     DMC.episode_saving_path (DMC.config e) = Some path ->
     DMC.episode_video e' = Some (Frames []) /\
     DMC.episode_video_pre e' = Some (Frames [])).
Proof.
  split; [|split; [|split]].
  - intros str S now e e' action files t path H Hpath Hdone.
    apply atari_step_inv in H.
    destruct H as (a & sim & raw & r & d & score & v1 & p1 & obs & Hitem & Hsim & _
                   & Hadd & Hsave & _ & _ & _ & _ & _ & Hscore & _ & Hd & _).
    rewrite Hd, flag_true_bool_float32 in Hdone. subst d.
    destruct (atari_add_to_video_inv _ _ _ _ _ Hpath Hadd)
      as (fs & ps & Hv & Hp & -> & ->).
    destruct (atari_save_if_done_inv _ _ _ _ _ _ Hpath Hsave)
      as (fs' & ps' & v & p & p3 & Hfs & Hps & Hsv & Hsp & Hp3 & Hnames & Harr & Hv2 & Hp2).
    injection Hfs as <-. injection Hps as <-.
    exists fs, ps, a, sim, raw, r, v, p, p3, (score + r)%float.
    repeat split; auto.
  - intros str S now e e' action files t path trace H Hpath Htrace Hlast.
    apply dmc_step_inv in H.
    destruct H as (n & l & score & _ & _ & Hloop & _ & Hsave & _ & _ & _ & _
                   & Hscore & _).
    pose proof Hloop as Hspec. apply loop_spec in Hspec.
    destruct Hspec as (trace' & rs & Htr & Hlen & _ & _ & Hor & _ & Hvid).
    cbn [DMC.l_env DMC.l_video DMC.l_video_pre DMC.l_done] in Htr, Hor, Hvid.
    rewrite Htrace in Htr. injection Htr as <-.
    rewrite Hlast in Hor. rewrite Hor in Hsave. rewrite Hpath in Hvid.
    destruct Hvid as [Hv Hp].
    assert (Hn : length trace <> 0) by (destruct trace; simpl in *; congruence).
    destruct Hv as [[Hz _]|(fs & news & Hv0 & _ & _)]; [congruence|].
    destruct Hp as [[Hz _]|(ps & news_pre & Hp0 & _ & _)]; [congruence|].
    eapply loop_frames in Hloop; [|exact Hpath|exact Hv0|exact Hp0].
    destruct Hloop as (states & trace' & pre & Hst & Hrun & Hls & Hlp & Hall & Hv1 & Hp1).
    cbn [DMC.l_env] in Hst, Hrun.
    apply dmc_sim_run_steps in Hrun. rewrite Htrace in Hrun. injection Hrun as <-.
    destruct (dmc_save_if_done_inv _ _ _ _ _ _ Hpath Hsave)
      as (fs' & ps' & v & p & Hfs & Hps & Hsv & Hsp & Hnames & Harr & Hv2 & Hp2).
    rewrite Hv1 in Hfs. injection Hfs as <-.
    rewrite Hp1 in Hps. injection Hps as <-.
    exists fs, ps, states, pre, v, p, (score + DMC.l_reward l)%float.
    repeat split; auto.
  - intros S e e' t path H Hpath.
    apply atari_reset_inv in H.
    destruct H as (sim & raw & obs & H). decompose [and] H.
    rewrite Hpath in *. tauto.
  - intros S e e' t path H Hpath.
    apply dmc_reset_inv in H.
    destruct H as (sim & infos & obs & H). decompose [and] H.
    rewrite Hpath in *. tauto.
Qed.

(** The first step of the game with life-loss termination ends the
    recorded episode: two files are written, named after the time stamp and
    the score 1.0; the first holds the screen image of the game after the
    step, the second the state the step returned.  The only step of a
    one-step recorded control episode writes its rendered frame and its
    pixel observation. *)
Lemma done_step_writes_two_videos_witness :
  let e := Toy.atari_started (Toy.atari_env true true 2 (Some "videos"%string)) in
  let d := Toy.dmc_started (Toy.acrobot_env 1 1 1 (Some "videos"%string)) in
  let now := "2025-01-01 10:00:00"%string in
  (exists e' files t,
     Atari.step Toy.str_float now e (Tensor [] [PyInt 0]) = Ok (e', files, t) /\
     Atari.episode_saving_path (Atari.config e) = Some "videos"%string /\
     flag_true (done t) = true /\
     map filename files =
       [ "videos/2025-01-01_10:00:00_1.0.mp4";
         "videos/2025-01-01_10:00:00_1.0_pre.mp4" ]%string /\
     map video_array files =
       [ Tensor [1; 3; 2; 3] (repeat 1%Z 18); Tensor [1; 2; 2; 3] (repeat 1%Z 12) ] /\
     exists frames frames_pre a sim raw r v p p3 score,
       item (Tensor [] [PyInt 0]) = Ok a /\
       Atari.sim_step (Toy.atari true true 4) (Atari.env e) a
         = Ok (sim, (raw, r, true)) /\
       Atari.episode_video e = Some (Frames frames) /\
       Atari.episode_video_pre e = Some (Frames frames_pre) /\
       stack0 (frames ++ [Atari.sim_get_image (Toy.atari true true 4) sim]) = Ok v /\
       stack0 (frames_pre ++ [raw]) = Ok p /\
       (if Atari.grayscale_obs (Atari.config e) then gray_to_rgb p else Ok p)
         = Ok p3 /\
       Atari.episode_score e' = Some score /\
       map filename files =
         [ path_join "videos" (date_time_score now (Toy.str_float score) ++ ".mp4");
           path_join "videos" (date_time_score now (Toy.str_float score) ++ "_pre.mp4")
         ]%string /\
       map video_array files = [v; p3] /\
       Atari.episode_video e' = Some (Stacked v) /\
       Atari.episode_video_pre e' = Some (Stacked p)) /\
  (exists d' files t trace,
     DMC.step Toy.str_float now d (Tensor [1] [0%float]) = Ok (d', files, t) /\
     DMC.sim_steps (Toy.dmc 1) 1 (DMC.env d) [0%float] = Ok trace /\
     existsb DMC.last trace = true /\
     map video_array files =
       [ Tensor [1; 3; 2; 3] (repeat 1%Z 18); Tensor [1; 2; 2; 3] (repeat 1%Z 12) ] /\
     exists frames frames_pre states news_pre v p score,
       DMC.episode_video d = Some (Frames frames) /\
       DMC.episode_video_pre d = Some (Frames frames_pre) /\
       dmc_sim_states (Toy.dmc 1) 1 (DMC.env d) [0%float] = Ok states /\
       Forall2 (fun infos frame =>
                  exists obs, permute201 (DMC.pixels infos) = Ok obs /\
                              permute120 obs = Ok frame) trace news_pre /\
       length states = 1 /\
       length news_pre = 1 /\
       stack0 (frames ++ map (DMC.get_obs (Toy.dmc 1) (DMC.config d)) states) = Ok v /\
       stack0 (frames_pre ++ news_pre) = Ok p /\
       DMC.episode_score d' = Some score /\
       map filename files =
         [ path_join "videos" (date_time_score now (Toy.str_float score) ++ ".mp4");
           path_join "videos" (date_time_score now (Toy.str_float score) ++ "_pre.mp4")
         ]%string /\
       map video_array files = [v; p] /\
       DMC.episode_video d' = Some (Stacked v) /\
       DMC.episode_video_pre d' = Some (Stacked p)).
Proof.
  cbv zeta. split.
  - eexists _, _, _.
    split; [vm_compute; reflexivity|].
    split; [reflexivity|].
    split; [vm_compute; reflexivity|].
    split; [vm_compute; reflexivity|].
    split; [vm_compute; reflexivity|].
    eapply (proj1 done_step_writes_two_videos Toy.str_float (Toy.atari true true 4)
              "2025-01-01 10:00:00"%string
              (Toy.atari_started (Toy.atari_env true true 2 (Some "videos"%string)))
              _ (Tensor [] [PyInt 0])).
    + vm_compute. reflexivity.
    + reflexivity.
    + vm_compute. reflexivity.
  - eexists _, _, _, _.
    split; [vm_compute; reflexivity|].
    split; [vm_compute; reflexivity|].
    split; [vm_compute; reflexivity|].
    split; [vm_compute; reflexivity|].
    eapply (proj1 (proj2 done_step_writes_two_videos) Toy.str_float (Toy.dmc 1)
              "2025-01-01 10:00:00"%string
              (Toy.dmc_started (Toy.acrobot_env 1 1 1 (Some "videos"%string)))
              _ (Tensor [1] [0%float])).
    + vm_compute. reflexivity.
    + reflexivity.
    + vm_compute. reflexivity.
    + vm_compute. reflexivity.
Defined.

(** C3, the claim as stated fails.  After the step that ends a recorded
    episode and writes its two files, neither adapter holds an empty
    recording buffer: [episode_video] is the stacked tensor, and a further
    Atari [step] without [reset] fails on [episode_video.append]. *)
Lemma recording_buffers_not_emptied_by_step :
  let a := Toy.atari_started (Toy.atari_env true true 2 (Some "videos"%string)) in
  let d := Toy.dmc_started (Toy.acrobot_env 1 1 1 (Some "videos"%string)) in
  let now := "2025-01-01 10:00:00"%string in
  (exists a' files t v,
     Atari.step Toy.str_float now a (Tensor [] [PyInt 0]) = Ok (a', files, t) /\
     flag_true (done t) = true /\
     length files = 2 /\
     Atari.episode_video a' = Some (Stacked v) /\
     Atari.episode_video a' <> Some (Frames []) /\
     Atari.episode_video_pre a' <> Some (Frames []) /\
     Atari.step Toy.str_float now a' (Tensor [] [PyInt 0]) = Err AttributeError) /\
  (exists d' files t v,
     DMC.step Toy.str_float now d (Tensor [1] [0%float]) = Ok (d', files, t) /\
     length files = 2 /\
     DMC.episode_video d' = Some (Stacked v) /\
     DMC.episode_video d' <> Some (Frames []) /\
     DMC.episode_video_pre d' <> Some (Frames [])).
Proof.
  cbv zeta. split.
  - eexists _, _, _, _.
    split; [vm_compute; reflexivity|].
    split; [vm_compute; reflexivity|].
    split; [reflexivity|].
    split; [reflexivity|].
    split; [discriminate|].
    split; [discriminate|].
    vm_compute. reflexivity.
  - eexists _, _, _, _.
    split; [vm_compute; reflexivity|].
    split; [reflexivity|].
    split; [reflexivity|].
    split; discriminate.
Qed.

(** ** Slices of tensors along the channel axis *)

Section TensorSlices.
Variable A : Type.

Lemma range0_eq (t : tensor A) (n a b : nat) (rest : list nat) :
  shape t = n :: rest -> b <= n ->
  range0 a b t =
    Ok (Tensor ((b - a) :: rest)
          (skipn (a * numel rest) (firstn (b * numel rest) (data t)))).
Proof.
  intros Hs Hb. unfold range0, upto0, from0. rewrite Hs. simpl.
  rewrite Nat.min_l by exact Hb. reflexivity.
Qed.

Lemma repeat3_frames (n : Z) (obs hist : tensor A) (c h w : nat) :
  shape obs = [c; h; w] -> wf obs ->
  repeat3 n obs = Ok hist ->
  (0 <= n)%Z /\
  shape hist = [Z.to_nat n * c; h; w] /\
  wf hist /\
  forall i, i < Z.to_nat n -> frame_slice c i hist = Ok obs.
Proof.
  intros Hs Hwf. unfold repeat3. rewrite Hs. simpl.
  destruct (n <? 0)%Z eqn:Hn; [discriminate|].
  intros H. injection H as <-. apply Z.ltb_ge in Hn.
  unfold wf in *. rewrite Hs in Hwf. simpl in *.
  repeat split; auto.
  - rewrite length_concat_repeat, Hwf. lia.
  - intros i Hi. unfold frame_slice.
    rewrite range0_eq with (n := Z.to_nat n * c) (rest := [h; w]);
      [|reflexivity|simpl; nia].
    simpl. destruct obs as [s d]. simpl in *. subst s.
    replace (i * c + c - i * c) with c by lia. do 2 f_equal.
    + rewrite skipn_firstn_comm.
      replace ((i * c + c) * (h * (w * 1)) - i * c * (h * (w * 1)))
        with (length d) by nia.
      replace (i * c * (h * (w * 1))) with (i * length d) by nia.
      now apply block_of_concat_repeat.
Qed.

Lemma frame_slice_self (obs : tensor A) (c h w : nat) :
  shape obs = [c; h; w] -> wf obs -> frame_slice c 0 obs = Ok obs.
Proof.
  intros Hs Hwf. unfold frame_slice.
  rewrite range0_eq with (n := c) (rest := [h; w]); [|assumption|lia].
  destruct obs as [s d]. unfold wf in Hwf. simpl in *. subst s.
  rewrite Nat.sub_0_r. do 2 f_equal.
  apply firstn_all2. simpl in Hwf. lia.
Qed.

Lemma shift_window (old obs new : tensor A) (H c h w : nat) :
  1 <= H ->
  shape old = [H * c; h; w] -> wf old ->
  shape obs = [c; h; w] -> wf obs ->
  (u <- from0 c old ;; cat0 u obs) = Ok new ->
  shape new = [H * c; h; w] /\ wf new /\
  upto0 ((H - 1) * c) new = last0 ((H - 1) * c) old /\
  last0 c new = Ok obs.
Proof.
  intros HH Hso Hwo Hsb Hwb.
  destruct H as [|H']; [lia|]. clear HH.
  destruct old as [so D], obs as [sb d]. unfold wf in *. simpl in *. subst so sb.
  unfold last0. unfold from0, cat0, upto0. simpl.
  rewrite !Nat.eqb_refl. simpl. intros Hn. injection Hn as <-.
  simpl in *. rewrite Nat.sub_0_r.
  set (m := h * (w * 1)) in *. set (X := H' * c) in *.
  clearbody m X.
  assert (HD : length D = c * m + X * m) by (rewrite Hwo; lia).
  assert (Hskip : length (skipn (c * m) D) = X * m)
    by (rewrite length_skipn; lia).
  repeat split.
  - f_equal. lia.
  - rewrite length_app, Hskip, Hwb. nia.
  - f_equal. f_equal.
    + f_equal. lia.
    + replace (Nat.min X (c + X - c + c)) with X by lia.
      replace (c + X - X) with c by lia.
      rewrite firstn_app, Hskip, Nat.sub_diag. simpl.
      rewrite app_nil_r. apply firstn_all2. lia.
  - f_equal. f_equal.
    + f_equal. lia.
    + replace (c + X - c + c - c) with X by lia.
      rewrite skipn_app, Hskip, Nat.sub_diag. simpl.
      rewrite skipn_all2 by lia. reflexivity.
Qed.


Lemma length_flat_map_const {X Y} (f : X -> list Y) (l : list X) (n : nat) :
  (forall x, In x l -> length (f x) = n) ->
  length (flat_map f l) = length l * n.
Proof.
  induction l as [|x l IH]; simpl; intros Hf; [reflexivity|].
  rewrite length_app, Hf, IH by auto. reflexivity.
Qed.

Lemma length_gather (d : list A) (idx : list nat) :
  Forall (fun i => i < length d) idx ->
  length (gather d idx) = length idx.
Proof.
  intros Hall. unfold gather.
  rewrite length_flat_map_const with (n := 1); [lia|].
  intros i Hi. rewrite Forall_forall in Hall. specialize (Hall i Hi).
  destruct (nth_error d i) eqn:E; [reflexivity|].
  apply nth_error_None in E. lia.
Qed.

Lemma permute201_image (t u : tensor A) :
  permute201 t = Ok u ->
  exists h w c, shape t = [h; w; c] /\ shape u = [c; h; w] /\ (wf t -> wf u).
Proof.
  unfold permute201.
  destruct (shape t) as [|h [|w [|c [|x s]]]] eqn:Hs; try discriminate.
  intros H. injection H as <-. exists h, w, c. simpl. repeat split.
  unfold wf. rewrite Hs. simpl. intros Hwf.
  rewrite length_gather.
  - rewrite length_flat_map_const with (n := h * w).
    + rewrite length_seq. lia.
    + intros k _. rewrite length_flat_map_const with (n := w).
      * now rewrite length_seq.
      * intros i _. now rewrite length_map, length_seq.
  - rewrite Forall_flat_map. apply Forall_forall. intros k Hk.
    rewrite Forall_flat_map. apply Forall_forall. intros i Hi.
    rewrite Forall_map. apply Forall_forall. intros j Hj.
    apply in_seq in Hk, Hi, Hj. rewrite Hwf.
    assert (H1 : i * w + j + 1 <= h * w) by nia.
    assert (H2 : (i * w + j + 1) * c <= h * w * c)
      by (apply Nat.mul_le_mono_r; exact H1).
    replace (h * (w * (c * 1))) with (h * w * c) by lia.
    lia.
Qed.

End TensorSlices.


Lemma shift_window_one {A} (old obs : tensor A) (c h w : nat) :
  has_shape [1 * c; h; w] old -> has_shape [c; h; w] obs ->
  upto0 ((1 - 1) * c) obs = last0 ((1 - 1) * c) old /\ last0 c obs = Ok obs.
Proof.
  intros [Hso Hwo] [Hsb Hwb].
  destruct old as [so D], obs as [sb d]. unfold wf in *. simpl in *. subst so sb.
  unfold last0. unfold upto0, from0. simpl.
  rewrite !Nat.add_0_r, Nat.sub_0_r, !Nat.sub_diag in *. simpl. split.
  - rewrite skipn_all2 by (rewrite Hwo; simpl; lia). reflexivity.
  - now rewrite Nat.sub_0_r.
Qed.

(** ** The history buffer *)

Section AtariHistory.
Import Atari.
Variable S : Simulator.

Lemma atari_to_chw_image (c : Config) (raw obs : tensor uint8) (h w : nat) :
  to_chw c raw = Ok obs ->
  has_shape (raw_shape c h w) raw ->
  has_shape [channels c; h; w] obs.
Proof.
  unfold to_chw, raw_shape, channels, has_shape.
  destruct (grayscale_obs c); intros H [Hs Hwf].
  - injection H as <-. unfold wf in *. simpl. rewrite Hs in *. simpl in *.
    split; [reflexivity | lia].
  - apply permute201_image in H.
    destruct H as (h' & w' & c' & Hs' & Hu & Hwfu).
    rewrite Hs in Hs'. injection Hs' as <- <- <-. auto.
Qed.

(** After [reset] the history is [history_frames] copies of the first
    observation. *)
Lemma atari_reset_history (e e' : AtariEnv S) (t : Transition) sim raw h w :
  reset e = Ok (e', t) ->
  sim_reset S (env e) = Ok (sim, raw) ->
  has_shape (raw_shape (config e) h w) raw ->
  (1 <= history_frames (config e))%Z ->
  exists obs,
    to_chw (config e) raw = Ok obs /\
    has_shape [Z.to_nat (history_frames (config e)) * channels (config e); h; w]
      (state t) /\
    forall i, i < Z.to_nat (history_frames (config e)) ->
              frame_slice (channels (config e)) i (state t) = Ok obs.
Proof.
  intros H Hsim Hraw HH.
  apply atari_reset_inv in H.
  destruct H as (sim' & raw' & obs & Hsim' & Hobs & Hrep & _).
  rewrite Hsim in Hsim'. injection Hsim' as <- <-.
  exists obs. split; [exact Hobs|].
  destruct (atari_to_chw_image _ _ _ Hobs Hraw) as [Hs Hwf].
  destruct (1 <? history_frames (config e))%Z eqn:H1.
  - destruct (repeat3_frames _ Hs Hwf Hrep) as (_ & Hsh & Hwfh & Hfr).
    repeat split; auto.
  - injection Hrep as <-. apply Z.ltb_ge in H1.
    replace (history_frames (config e)) with 1%Z by lia.
    change (Z.to_nat 1) with 1. rewrite Nat.mul_1_l.
    repeat split; auto.
    intros i Hi. replace i with 0 by lia.
    now apply frame_slice_self with (h := h) (w := w).
Qed.

(** A [step] slides the window by one frame. *)
Lemma atari_step_history str now (e e' : AtariEnv S) action files t old a sim raw r d h w :
  step str now e action = Ok (e', files, t) ->
  (1 <= history_frames (config e))%Z ->
  history e = Some old ->
  has_shape [Z.to_nat (history_frames (config e)) * channels (config e); h; w] old ->
  item action = Ok a ->
  sim_step S (env e) a = Ok (sim, (raw, r, d)) ->
  has_shape (raw_shape (config e) h w) raw ->
  exists obs,
    to_chw (config e) raw = Ok obs /\
    history e' = Some (state t) /\
    has_shape [Z.to_nat (history_frames (config e)) * channels (config e); h; w]
      (state t) /\
    upto0 ((Z.to_nat (history_frames (config e)) - 1) * channels (config e)) (state t)
      = last0 ((Z.to_nat (history_frames (config e)) - 1) * channels (config e)) old /\
    last0 (channels (config e)) (state t) = Ok obs.
Proof.
  intros H HH Hold Hso Hitem Hsim Hraw.
  apply atari_step_inv in H.
  destruct H as (a' & sim' & raw' & r' & d' & score & v & p & obs & Hitem' & Hsim'
                 & _ & _ & _ & Hobs & Hshift & _ & _ & Hhist & _).
  rewrite Hitem in Hitem'. injection Hitem' as <-.
  rewrite Hsim in Hsim'. injection Hsim' as <- <- <- <-.
  exists obs. split; [exact Hobs|]. split; [exact Hhist|].
  pose proof (atari_to_chw_image _ _ _ Hobs Hraw) as Hsb.
  unfold shift_history in Hshift. rewrite Hold in Hshift.
  destruct (1 <? history_frames (config e))%Z eqn:H1.
  - simpl in Hshift. fold (channels (config e)) in Hshift.
    destruct Hso as [Hso Hwo], Hsb as [Hsb Hwb].
    assert (Hn : 1 <= Z.to_nat (history_frames (config e))) by lia.
    destruct (shift_window Hn Hso Hwo Hsb Hwb Hshift) as (Hs & Hw & Hup & Hlast).
    unfold has_shape. auto.
  - injection Hshift as <-. apply Z.ltb_ge in H1.
    replace (history_frames (config e)) with 1%Z in * by lia.
    change (Z.to_nat 1) with 1 in *.
    destruct (shift_window_one Hso Hsb) as [Hup Hlast].
    rewrite Nat.mul_1_l. auto.
Qed.

(** A frame of the simulator's shape can be brought to channels first. *)
Lemma atari_to_chw_returns (c : Config) (raw : tensor uint8) (h w : nat) :
  has_shape (raw_shape c h w) raw ->
  exists obs, to_chw c raw = Ok obs /\ has_shape [channels c; h; w] obs.
Proof.
  intros Hraw.
  assert (exists obs, to_chw c raw = Ok obs) as [obs Hobs].
  { unfold to_chw, raw_shape in *. destruct Hraw as [Hs _].
    destruct (grayscale_obs c); [eauto|].
    unfold permute201. rewrite Hs. eauto. }
  exists obs. split; [exact Hobs|]. eapply atari_to_chw_image; eassumption.
Qed.

(** [reset] returns when the simulator does. *)
Lemma atari_reset_returns (e : AtariEnv S) sim raw h w :
  sim_reset S (env e) = Ok (sim, raw) ->
  has_shape (raw_shape (config e) h w) raw ->
  exists e' t, reset e = Ok (e', t) /\ env e' = sim.
Proof.
  intros Hsim Hraw.
  pose proof Hraw as Hchw. apply atari_to_chw_returns in Hchw.
  destruct Hchw as (obs & Hobs & Hso & _).
  unfold reset. rewrite Hsim. cbn [bind]. unfold preprocess. cbn [config].
  rewrite Hobs. cbn [bind].
  assert (Hrep : exists hist,
             (if (1 <? history_frames (config e))%Z
              then repeat3 (history_frames (config e)) obs else Ok obs) = Ok hist).
  { destruct (1 <? history_frames (config e))%Z eqn:H1; [|eauto].
    apply Z.ltb_lt in H1. unfold repeat3. rewrite Hso. simpl.
    replace (history_frames (config e) <? 0)%Z with false
      by (symmetry; apply Z.ltb_ge; lia).
    eauto. }
  destruct Hrep as (hist & ->).
  destruct (episode_saving_path (config e)); cbn [bind]; eauto.
Qed.

(** [step] returns when the simulator does, on an adapter that has been
    reset and is not about to save an episode. *)
Lemma atari_step_returns str now (e : AtariEnv S) action old a sim raw r d score
    k h w :
  history e = Some old ->
  shape old = [k; h; w] ->
  episode_score e = Some score ->
  item action = Ok a ->
  sim_step S (env e) a = Ok (sim, (raw, r, d)) ->
  has_shape (raw_shape (config e) h w) raw ->
  episode_saving_path (config e) = None \/
  (d = false /\ exists fs ps, episode_video e = Some (Frames fs) /\
                              episode_video_pre e = Some (Frames ps)) ->
  exists e' files t, step str now e action = Ok (e', files, t).
Proof.
  intros Hold Hso Hscore Hitem Hsim Hraw Hrec.
  pose proof Hraw as Hchw. apply atari_to_chw_returns in Hchw.
  destruct Hchw as (obs & Hobs & Hsb & _).
  assert (Hshift : exists hist, shift_history (config e) (Some old) obs = Ok hist).
  { unfold shift_history. destruct (1 <? history_frames (config e))%Z; [|eauto].
    cbn [bind attr]. unfold from0. rewrite Hso. cbn [bind].
    unfold cat0. cbn [shape]. rewrite Hsb, shape_eqb_refl. eauto. }
  destruct Hshift as (hist & Hshift).
  unfold step. rewrite Hitem. cbn [bind]. rewrite Hsim. cbn [bind].
  rewrite Hscore. cbn [bind attr]. unfold add_to_video, save_if_done.
  destruct Hrec as [Hp|(-> & fs & ps & Hv & Hpre)].
  - rewrite Hp. cbn [bind].
    destruct d; cbn [bind]; unfold preprocess; cbn [config env]; rewrite Hobs;
      cbn [bind]; rewrite Hold, Hshift; cbn [bind]; eauto.
  - rewrite Hv, Hpre.
    destruct (episode_saving_path (config e)); cbn [bind attr rec_append];
      unfold preprocess; cbn [config env]; rewrite Hobs;
      cbn [bind]; rewrite Hold, Hshift; cbn [bind]; eauto.
Qed.

End AtariHistory.

Section DmcHistory.
Import DMC.
Variable S : Simulator.

(** After [reset] the history is [history_frames] copies of the first
    observation. *)
Lemma dmc_reset_history (e e' : DeepMindControlEnv S) (t : Transition) sim infos h w c :
  reset e = Ok (e', t) ->
  sim_reset S (env e) = Ok (sim, infos) ->
  has_shape [h; w; c] (pixels infos) ->
  exists obs,
    permute201 (pixels infos) = Ok obs /\
    has_shape [Z.to_nat (history_frames (config e)) * c; h; w] (state t) /\
    forall i, i < Z.to_nat (history_frames (config e)) ->
              frame_slice c i (state t) = Ok obs.
Proof.
  intros H Hsim [Hs Hwf].
  apply dmc_reset_inv in H.
  destruct H as (sim' & infos' & obs & Hsim' & Hobs & Hrep & _).
  rewrite Hsim in Hsim'. injection Hsim' as <- <-.
  exists obs. split; [exact Hobs|].
  pose proof (permute201_image _ Hobs) as (h' & w' & c' & Hs' & Hu & Hwfu).
  rewrite Hs in Hs'. injection Hs' as <- <- <-.
  destruct (repeat3_frames _ Hu (Hwfu Hwf) Hrep) as (_ & Hsh & Hwfh & Hfr).
  unfold has_shape. auto.
Qed.

(** A [step] slides the window by one frame of three channels. *)
Lemma dmc_step_history str now (e e' : DeepMindControlEnv S) action files t old trace h w :
  step str now e action = Ok (e', files, t) ->
  (1 <= history_frames (config e))%Z ->
  history e = Some old ->
  has_shape [Z.to_nat (history_frames (config e)) * 3; h; w] old ->
  sim_steps S (Z.to_nat (action_repeat (config e))) (env e)
    (tolist (clip (clip_low (config e)) (clip_high (config e)) action)) = Ok trace ->
  Forall (fun infos => has_shape [h; w; 3] (pixels infos)) trace ->
  exists front infos obs,
    trace = front ++ [infos] /\
    permute201 (pixels infos) = Ok obs /\
    history e' = Some (state t) /\
    has_shape [Z.to_nat (history_frames (config e)) * 3; h; w] (state t) /\
    upto0 ((Z.to_nat (history_frames (config e)) - 1) * 3) (state t)
      = last0 ((Z.to_nat (history_frames (config e)) - 1) * 3) old /\
    last0 3 (state t) = Ok obs.
Proof.
  intros H HH Hold [Hso Hwo] Htrace Hall.
  apply dmc_step_inv in H.
  destruct H as (n & l & score & _ & _ & Hloop & _ & _ & Hshift & _ & _ & Hhist & _).
  apply loop_spec in Hloop.
  destruct Hloop as (trace' & rs & Htr & _ & _ & _ & _ & Hlast & _).
  cbn [l_env] in Htr. rewrite Htrace in Htr. injection Htr as <-.
  unfold shift_history in Hshift. rewrite Hold in Hshift.
  destruct Hlast as [[_ ->]|(front & infos & obs & -> & Hobs & Hpix)].
  - simpl in Hshift. destruct (from0 3 old); discriminate.
  - rewrite Hpix in Hshift.
    exists front, infos, obs. split; [reflexivity|]. split; [exact Hobs|].
    split; [exact Hhist|].
    apply Forall_app in Hall. destruct Hall as [_ Hinfos].
    apply Forall_inv in Hinfos. destruct Hinfos as [Hsi Hwi].
    pose proof (permute201_image _ Hobs) as (h' & w' & c' & Hs' & Hu & Hwfu).
    rewrite Hsi in Hs'. injection Hs' as <- <- <-.
    assert (Hn : 1 <= Z.to_nat (history_frames (config e))) by lia.
    assert (Hsh : (u <- from0 3 old ;; cat0 u obs) = Ok (state t)).
    { simpl in Hshift. destruct (from0 3 old); exact Hshift. }
    destruct (shift_window Hn Hso Hwo Hu (Hwfu Hwi) Hsh) as (Hs & Hw & Hup & Hl).
    unfold has_shape. auto.
Qed.

(** [reset] returns when the simulator does. *)
Lemma dmc_reset_returns (e : DeepMindControlEnv S) sim infos h w c :
  sim_reset S (env e) = Ok (sim, infos) ->
  shape (pixels infos) = [h; w; c] ->
  (0 <= history_frames (config e))%Z ->
  exists e' t, reset e = Ok (e', t) /\ env e' = sim.
Proof.
  intros Hsim Hs HH.
  unfold reset. rewrite Hsim. cbn [bind]. unfold process_infos, permute201.
  rewrite Hs. cbn [bind]. unfold repeat3. cbn [shape length repeat app Nat.sub].
  replace (history_frames (config e) <? 0)%Z with false
    by (symmetry; apply Z.ltb_ge; lia).
  destruct (episode_saving_path (config e)); cbn [bind]; eauto.
Qed.

(** The loop of [step] runs through when the simulator does, every time
    step carries a reward and a three-dimensional pixel array, and the
    recording buffers, if used, are lists. *)
Lemma loop_returns (c : Config) (action : tensor float) (n : nat) :
  forall (l : Loop S) trace,
    sim_steps S n (l_env l) (tolist action) = Ok trace ->
    Forall (fun infos => exists r, ts_reward infos = Some r) trace ->
    Forall (fun infos => exists h w k, shape (pixels infos) = [h; w; k]) trace ->
    episode_saving_path c = None \/
    (exists fs ps, l_video l = Some (Frames fs) /\ l_video_pre l = Some (Frames ps)) ->
    exists l', for_range n (loop_body c action) l = Ok l'.
Proof.
  induction n as [|n IH]; intros l trace Htr Hrew Hpix Hrec; simpl in Htr.
  - exists l. reflexivity.
  - inv_bind Htr as r Hstep. destruct r as [sim infos].
    inv_bind Htr as rest Hrest. injection Htr as <-.
    inversion Hrew as [|? ? [r Hr] Hrew']; subst.
    inversion Hpix as [|? ? (h & w & k & Hs) Hpix']; subst.
    cbn [for_range]. unfold loop_body at 1. rewrite Hstep. cbn [bind].
    unfold process_infos, permute201. rewrite Hs. cbn [bind].
    rewrite Hr. unfold add_to_video.
    destruct Hrec as [Hp|(fs & ps & Hv & Hpre)].
    + rewrite Hp. cbn [bind add_reward].
      eapply IH; [exact Hrest|exact Hrew'|exact Hpix'|].
      left. exact Hp.
    + rewrite Hv, Hpre.
      destruct (episode_saving_path c).
      * cbn [bind attr rec_append]. unfold permute120. cbn [shape bind rec_append add_reward].
        eapply IH; [exact Hrest|exact Hrew'|exact Hpix'|].
        right. cbn [l_video l_video_pre]. eauto.
      * cbn [bind add_reward].
        eapply IH; [exact Hrest|exact Hrew'|exact Hpix'|].
        right. cbn [l_video l_video_pre]. eauto.
Qed.

(** [step] returns when the simulator does, on an adapter that has been
    reset and is not about to save an episode. *)
Lemma dmc_step_returns str now (e : DeepMindControlEnv S) action old trace score n
    k h w :
  history e = Some old ->
  shape old = [k; h; w] ->
  episode_score e = Some score ->
  num_actions (config e) = Some n ->
  shape action = [n] ->
  (1 <= action_repeat (config e))%Z ->
  sim_steps S (Z.to_nat (action_repeat (config e))) (env e)
    (tolist (clip (clip_low (config e)) (clip_high (config e)) action)) = Ok trace ->
  Forall (fun infos => exists r, ts_reward infos = Some r) trace ->
  Forall (fun infos => has_shape [h; w; 3] (pixels infos)) trace ->
  episode_saving_path (config e) = None \/
  (existsb last trace = false /\
   exists fs ps, episode_video e = Some (Frames fs) /\
                 episode_video_pre e = Some (Frames ps)) ->
  exists e' files t, step str now e action = Ok (e', files, t).
Proof.
  intros Hold Hso Hscore Hn Hshape HR Htr Hrew Hpix Hrec.
  set (l0 := {| l_env := env e;
                l_video := episode_video e; l_video_pre := episode_video_pre e;
                l_reward := 0%float; l_done := false; l_obs_pixels := None |}).
  assert (Hloop : exists l',
            for_range (Z.to_nat (action_repeat (config e)))
              (loop_body (config e)
                 (clip (clip_low (config e)) (clip_high (config e)) action)) l0
            = Ok l').
  { eapply loop_returns; [exact Htr|exact Hrew| |].
    - eapply Forall_impl; [|exact Hpix]. intros infos [Hs _]. eauto.
    - destruct Hrec as [Hp|(_ & fs & ps & Hv & Hpre)]; [left; exact Hp|].
      right. exists fs, ps. auto. }
  destruct Hloop as (l' & Hloop).
  pose proof Hloop as Hspec. apply loop_spec in Hspec.
  destruct Hspec as (trace' & rs & Htr' & Hlen & _ & _ & Hor & Hlast & _).
  cbn [l_env l_done l0] in Htr', Hor. rewrite Htr in Htr'. injection Htr' as <-.
  destruct Hlast as [[H0 _]|(front & infos & obs & -> & Hobs & Hpixl)]; [lia|].
  apply Forall_app in Hpix. destruct Hpix as [_ Hinfos].
  apply Forall_inv in Hinfos. destruct Hinfos as [Hsi _].
  pose proof (permute201_image _ Hobs) as (h' & w' & c' & Hs' & Hu & _).
  rewrite Hsi in Hs'. injection Hs' as <- <- <-.
  assert (Hshift : exists hist, shift_history (Some old) (l_obs_pixels l') = Ok hist).
  { unfold shift_history. cbn [bind attr]. unfold from0. rewrite Hso, Hpixl.
    cbn [bind]. unfold cat0. cbn [shape]. rewrite Hu, shape_eqb_refl. eauto. }
  destruct Hshift as (hist & Hshift).
  unfold step. rewrite Hn. cbn [bind attr].
  rewrite Hshape, shape_eqb_refl. cbn [bind].
  fold l0. rewrite Hloop. cbn [bind]. rewrite Hscore. cbn [bind attr].
  unfold save_if_done.
  destruct Hrec as [Hp|(Hnl & _)].
  - rewrite Hp.
    destruct (l_done l'); cbn [bind]; rewrite Hold, Hshift; cbn [bind]; eauto.
  - simpl in Hor. rewrite Hnl in Hor. rewrite Hor. cbn [bind].
    rewrite Hold, Hshift. cbn [bind]. eauto.
Qed.

End DmcHistory.

(** C5.  [reset] of either adapter returns, whenever the simulator's own
    reset does and hands out a frame of its shape (it fails with the
    simulator's error otherwise), a transition with [is_first] 1.0 and
    [reward], [done], [is_last] 0.0, and the history buffer it leaves is
    the returned state: [history_frames] copies (at least one, as the
    contract requires) of the first observation of the new episode along
    the channel axis, so that every frame slice of the state is that
    observation. *)
Theorem reset_returns_first_transition :
  (forall (S : Atari.Simulator) (e e' : Atari.AtariEnv S) t,
     Atari.reset e = Ok (e', t) ->
     is_first t = 1%float /\ reward t = 0%float /\
     done t = 0%float /\ is_last t = 0%float /\
     Atari.history e' = Some (state t) /\
     forall sim raw h w,
       Atari.sim_reset S (Atari.env e) = Ok (sim, raw) ->
       has_shape (Atari.raw_shape (Atari.config e) h w) raw ->
       (1 <= Atari.history_frames (Atari.config e))%Z ->
       exists obs,
         Atari.to_chw (Atari.config e) raw = Ok obs /\
         has_shape [Z.to_nat (Atari.history_frames (Atari.config e))
                    * Atari.channels (Atari.config e); h; w] (state t) /\
         forall i, i < Z.to_nat (Atari.history_frames (Atari.config e)) ->
                   frame_slice (Atari.channels (Atari.config e)) i (state t)
                   = Ok obs) /\
  (forall (S : DMC.Simulator) (e e' : DMC.DeepMindControlEnv S) t,
     DMC.reset e = Ok (e', t) ->
     is_first t = 1%float /\ reward t = 0%float /\
     done t = 0%float /\ is_last t = 0%float /\
     DMC.history e' = Some (state t) /\
     forall sim infos h w c,
       DMC.sim_reset S (DMC.env e) = Ok (sim, infos) ->
       has_shape [h; w; c] (DMC.pixels infos) ->
       exists obs,
         permute201 (DMC.pixels infos) = Ok obs /\
         has_shape [Z.to_nat (DMC.history_frames (DMC.config e)) * c; h; w]
           (state t) /\
         forall i, i < Z.to_nat (DMC.history_frames (DMC.config e)) ->
                   frame_slice c i (state t) = Ok obs) /\
  (forall (S : Atari.Simulator) (e : Atari.AtariEnv S) sim raw h w,
     Atari.sim_reset S (Atari.env e) = Ok (sim, raw) ->
     has_shape (Atari.raw_shape (Atari.config e) h w) raw ->
     (1 <= Atari.history_frames (Atari.config e))%Z ->
     exists e' t obs,
       Atari.reset e = Ok (e', t) /\
       Atari.env e' = sim /\
       is_first t = 1%float /\ reward t = 0%float /\
       done t = 0%float /\ is_last t = 0%float /\
       Atari.history e' = Some (state t) /\
       Atari.to_chw (Atari.config e) raw = Ok obs /\
       has_shape [Z.to_nat (Atari.history_frames (Atari.config e))
                  * Atari.channels (Atari.config e); h; w] (state t) /\
       forall i, i < Z.to_nat (Atari.history_frames (Atari.config e)) ->
                 frame_slice (Atari.channels (Atari.config e)) i (state t) = Ok obs) /\
  (forall (S : DMC.Simulator) (e : DMC.DeepMindControlEnv S) sim infos h w c,
     DMC.sim_reset S (DMC.env e) = Ok (sim, infos) ->
     has_shape [h; w; c] (DMC.pixels infos) ->
     (1 <= DMC.history_frames (DMC.config e))%Z ->
     exists e' t obs,
       DMC.reset e = Ok (e', t) /\
       DMC.env e' = sim /\
       is_first t = 1%float /\ reward t = 0%float /\
       done t = 0%float /\ is_last t = 0%float /\
       DMC.history e' = Some (state t) /\
       permute201 (DMC.pixels infos) = Ok obs /\
       has_shape [Z.to_nat (DMC.history_frames (DMC.config e)) * c; h; w]
         (state t) /\
       forall i, i < Z.to_nat (DMC.history_frames (DMC.config e)) ->
                 frame_slice c i (state t) = Ok obs) /\
  (forall (S : Atari.Simulator) (e : Atari.AtariEnv S) err,
     Atari.sim_reset S (Atari.env e) = Err err -> Atari.reset e = Err err) /\
  (forall (S : DMC.Simulator) (e : DMC.DeepMindControlEnv S) err,
     DMC.sim_reset S (DMC.env e) = Err err -> DMC.reset e = Err err).
Proof.
  split; [|split; [|split; [|split; [|split]]]].
  - intros S e e' t H.
    pose proof (atari_reset_inv _ H) as (sim0 & raw0 & obs0 & Hinv).
    decompose [and] Hinv. repeat split; auto.
    intros sim raw h w Hsim Hraw HH.
    exact (atari_reset_history _ h w H Hsim Hraw HH).
  - intros S e e' t H.
    pose proof (dmc_reset_inv _ H) as (sim0 & infos0 & obs0 & Hinv).
    decompose [and] Hinv. repeat split; auto.
    intros sim infos h w c Hsim Hpix.
    exact (dmc_reset_history _ H Hsim Hpix).
  - intros S e sim raw h w Hsim Hraw HH.
    edestruct atari_reset_returns as (e' & t & H & Henv); [exact Hsim|exact Hraw|].
    pose proof (atari_reset_inv _ H) as (sim0 & raw0 & obs0 & Hinv).
    destruct (atari_reset_history _ h w H Hsim Hraw HH) as (obs & Hobs & Hshape & Hfr).
    exists e', t, obs. decompose [and] Hinv. repeat split; auto; apply Hshape.
  - intros S e sim infos h w c Hsim Hpix HH.
    assert (H0 : (0 <= DMC.history_frames (DMC.config e))%Z) by lia.
    edestruct dmc_reset_returns as (e' & t & H & Henv);
      [exact Hsim|exact (proj1 Hpix)|exact H0|].
    pose proof (dmc_reset_inv _ H) as (sim0 & infos0 & obs0 & Hinv).
    destruct (dmc_reset_history _ H Hsim Hpix) as (obs & Hobs & Hshape & Hfr).
    exists e', t, obs. decompose [and] Hinv. repeat split; auto; apply Hshape.
  - intros S e err H. unfold Atari.reset. now rewrite H.
  - intros S e err H. unfold DMC.reset. now rewrite H.
Qed.

(** On the colour game with three history frames the reset state has nine
    channels, and its frame slices 0, 1 and 2 are the first observation;
    on the toy control task with two history frames it has six channels,
    and its frame slices 0 and 1 are the first observation. *)
Lemma reset_returns_first_transition_witness :
  let e := Toy.atari_env false false 3 None in
  let d := Toy.acrobot_env 4 2 2 None in
  (exists e' t obs,
     Atari.reset e = Ok (e', t) /\
     Atari.sim_reset (Toy.atari false false 4) (Atari.env e)
       = Ok ((3, 0%Z), Toy.frame false 0) /\
     has_shape (Atari.raw_shape (Atari.config e) 2 2) (Toy.frame false 0) /\
     (1 <= Atari.history_frames (Atari.config e))%Z /\
     is_first t = 1%float /\
     Atari.to_chw (Atari.config e) (Toy.frame false 0) = Ok obs /\
     shape (state t) = [3 * 3; 2; 2] /\
     forall i, i < 3 -> frame_slice 3 i (state t) = Ok obs) /\
  (DMC.sim_reset (Toy.dmc 4) (DMC.env d)
     = Ok (0%Z, {| DMC.step_type := DMC.FIRST; DMC.ts_reward := None;
                   DMC.pixels := Toy.frame false 0 |}) /\
   exists d' t obs,
     DMC.reset d = Ok (d', t) /\
     DMC.env d' = 0%Z /\
     is_first t = 1%float /\ reward t = 0%float /\
     done t = 0%float /\ is_last t = 0%float /\
     DMC.history d' = Some (state t) /\
     permute201 (Toy.frame false 0) = Ok obs /\
     has_shape [2 * 3; 2; 2] (state t) /\
     forall i, i < 2 -> frame_slice 3 i (state t) = Ok obs).
Proof.
  cbv zeta. split.
  - pose proof (proj1 reset_returns_first_transition (Toy.atari false false 4)
                  (Toy.atari_env false false 3 None) _ _ eq_refl)
      as (Hfirst & _ & _ & _ & _ & Hcopies).
    assert (HH : (1 <= 3)%Z) by (vm_compute; discriminate).
    destruct (Hcopies (3, 0%Z) (Toy.frame false 0) 2 2 eq_refl
                (conj eq_refl eq_refl) HH) as (obs & Hobs & [Hs _] & Hfr).
    eexists _, _, obs.
    split; [reflexivity|].
    split; [reflexivity|].
    split; [split; reflexivity|].
    split; [exact HH|].
    split; [exact Hfirst|].
    split; [exact Hobs|].
    split; [exact Hs|].
    exact Hfr.
  - split; [reflexivity|].
    assert (HH : (1 <= 2)%Z) by (vm_compute; discriminate).
    exact (proj1 (proj2 (proj2 (proj2 reset_returns_first_transition)))
             (Toy.dmc 4) (Toy.acrobot_env 4 2 2 None) 0%Z
             {| DMC.step_type := DMC.FIRST; DMC.ts_reward := None;
                DMC.pixels := Toy.frame false 0 |} 2 2 3
             eq_refl (conj eq_refl eq_refl) HH).
Defined.

(** C6.  Sliding window.  With [H = history_frames] (at least one) and [C]
    channels per frame (1 or 3 for Atari, 3 for continuous control), let the
    history before a [step] hold [H * C] channels.  After the step the
    history is the returned state, it still holds [H * C] channels, its
    first [(H - 1) * C] channels are the last [(H - 1) * C] channels of the
    previous history, and its last [C] channels are the newest
    observation.  And [step] does return then, and slides the window,
    whenever the simulator accepts the action and hands out frames of its
    shape (with rewards, for continuous control), on an adapter that has
    been reset and either does not record or has list buffers and does not
    end the episode in this call. *)
Theorem step_slides_history_window :
  (forall str (S : Atari.Simulator) now (e e' : Atari.AtariEnv S) action files t
          old a sim raw r d h w,
     Atari.step str now e action = Ok (e', files, t) ->
     (1 <= Atari.history_frames (Atari.config e))%Z ->
     Atari.history e = Some old ->
     has_shape [Z.to_nat (Atari.history_frames (Atari.config e))
                * Atari.channels (Atari.config e); h; w] old ->
     item action = Ok a ->
     Atari.sim_step S (Atari.env e) a = Ok (sim, (raw, r, d)) ->
     has_shape (Atari.raw_shape (Atari.config e) h w) raw ->
     exists obs,
       Atari.to_chw (Atari.config e) raw = Ok obs /\
       Atari.history e' = Some (state t) /\
       has_shape [Z.to_nat (Atari.history_frames (Atari.config e))
                  * Atari.channels (Atari.config e); h; w] (state t) /\
       upto0 ((Z.to_nat (Atari.history_frames (Atari.config e)) - 1)
              * Atari.channels (Atari.config e)) (state t)
         = last0 ((Z.to_nat (Atari.history_frames (Atari.config e)) - 1)
                  * Atari.channels (Atari.config e)) old /\
       last0 (Atari.channels (Atari.config e)) (state t) = Ok obs) /\
  (forall str (S : DMC.Simulator) now (e e' : DMC.DeepMindControlEnv S) action
          files t old trace h w,
     DMC.step str now e action = Ok (e', files, t) ->
     (1 <= DMC.history_frames (DMC.config e))%Z ->
     DMC.history e = Some old ->
     has_shape [Z.to_nat (DMC.history_frames (DMC.config e)) * 3; h; w] old ->
     DMC.sim_steps S (Z.to_nat (DMC.action_repeat (DMC.config e))) (DMC.env e)
       (tolist (clip (DMC.clip_low (DMC.config e)) (DMC.clip_high (DMC.config e))
                  action)) = Ok trace ->
     Forall (fun infos => has_shape [h; w; 3] (DMC.pixels infos)) trace ->
     exists front infos obs,
       trace = front ++ [infos] /\
       permute201 (DMC.pixels infos) = Ok obs /\
       DMC.history e' = Some (state t) /\
       has_shape [Z.to_nat (DMC.history_frames (DMC.config e)) * 3; h; w]
         (state t) /\
       upto0 ((Z.to_nat (DMC.history_frames (DMC.config e)) - 1) * 3) (state t)
         = last0 ((Z.to_nat (DMC.history_frames (DMC.config e)) - 1) * 3) old /\
       last0 3 (state t) = Ok obs) /\
  (forall str (S : Atari.Simulator) now (e : Atari.AtariEnv S) action
          old a sim raw r d score h w,
     (1 <= Atari.history_frames (Atari.config e))%Z ->
     Atari.history e = Some old ->
     has_shape [Z.to_nat (Atari.history_frames (Atari.config e))
                * Atari.channels (Atari.config e); h; w] old ->
     Atari.episode_score e = Some score ->
     item action = Ok a ->
     Atari.sim_step S (Atari.env e) a = Ok (sim, (raw, r, d)) ->
     has_shape (Atari.raw_shape (Atari.config e) h w) raw ->
     Atari.episode_saving_path (Atari.config e) = None \/
     (d = false /\ exists fs ps, Atari.episode_video e = Some (Frames fs) /\
                                 Atari.episode_video_pre e = Some (Frames ps)) ->
     exists e' files t obs,
       Atari.step str now e action = Ok (e', files, t) /\
       Atari.to_chw (Atari.config e) raw = Ok obs /\
       Atari.history e' = Some (state t) /\
       has_shape [Z.to_nat (Atari.history_frames (Atari.config e))
                  * Atari.channels (Atari.config e); h; w] (state t) /\
       upto0 ((Z.to_nat (Atari.history_frames (Atari.config e)) - 1)
              * Atari.channels (Atari.config e)) (state t)
         = last0 ((Z.to_nat (Atari.history_frames (Atari.config e)) - 1)
                  * Atari.channels (Atari.config e)) old /\
       last0 (Atari.channels (Atari.config e)) (state t) = Ok obs) /\
  (forall str (S : DMC.Simulator) now (e : DMC.DeepMindControlEnv S) action
          old trace score n h w,
     (1 <= DMC.history_frames (DMC.config e))%Z ->
     DMC.history e = Some old ->
     has_shape [Z.to_nat (DMC.history_frames (DMC.config e)) * 3; h; w] old ->
     DMC.episode_score e = Some score ->
     DMC.num_actions (DMC.config e) = Some n ->
     shape action = [n] ->
     (1 <= DMC.action_repeat (DMC.config e))%Z ->
     DMC.sim_steps S (Z.to_nat (DMC.action_repeat (DMC.config e))) (DMC.env e)
       (tolist (clip (DMC.clip_low (DMC.config e)) (DMC.clip_high (DMC.config e))
                  action)) = Ok trace ->
     Forall (fun infos => exists r, DMC.ts_reward infos = Some r) trace ->
     Forall (fun infos => has_shape [h; w; 3] (DMC.pixels infos)) trace ->
     DMC.episode_saving_path (DMC.config e) = None \/
     (existsb DMC.last trace = false /\
      exists fs ps, DMC.episode_video e = Some (Frames fs) /\
                    DMC.episode_video_pre e = Some (Frames ps)) ->
     exists e' files t front infos obs,
       DMC.step str now e action = Ok (e', files, t) /\
       trace = front ++ [infos] /\
       permute201 (DMC.pixels infos) = Ok obs /\
       DMC.history e' = Some (state t) /\
       has_shape [Z.to_nat (DMC.history_frames (DMC.config e)) * 3; h; w]
         (state t) /\
       upto0 ((Z.to_nat (DMC.history_frames (DMC.config e)) - 1) * 3) (state t)
         = last0 ((Z.to_nat (DMC.history_frames (DMC.config e)) - 1) * 3) old /\
       last0 3 (state t) = Ok obs).
Proof.
  split; [|split; [|split]].
  - intros. eapply atari_step_history; eassumption.
  - intros. eapply dmc_step_history; eassumption.
  - intros str S now e action old a sim raw r d score h w HH Hold Hso Hscore
           Hitem Hsim Hraw Hrec.
    edestruct atari_step_returns with (str := str) (now := now)
      as (e' & files & t & Hstep);
      [exact Hold|exact (proj1 Hso)|exact Hscore|exact Hitem|exact Hsim|exact Hraw
      |exact Hrec|].
    edestruct atari_step_history as (obs & Hfacts);
      [exact Hstep|exact HH|exact Hold|exact Hso|exact Hitem|exact Hsim|exact Hraw|].
    exists e', files, t, obs. split; [exact Hstep | exact Hfacts].
  - intros str S now e action old trace score n h w HH Hold Hso Hscore Hn Hshape HR
           Htr Hrew Hpix Hrec.
    edestruct dmc_step_returns with (str := str) (now := now)
      as (e' & files & t & Hstep);
      [exact Hold|exact (proj1 Hso)|exact Hscore|exact Hn|exact Hshape|exact HR
      |exact Htr|exact Hrew|exact Hpix|exact Hrec|].
    edestruct dmc_step_history as (front & infos & obs & Hfacts);
      [exact Hstep|exact HH|exact Hold|exact Hso|exact Htr|exact Hpix|].
    exists e', files, t, front, infos, obs. split; [exact Hstep | exact Hfacts].
Qed.

(** On the colour game with three history frames, the first step after
    [reset] keeps six channels of the old history and appends the new
    three-channel observation; so does the first step, of two sub-steps, of
    the toy control task with three history frames, whose newest
    observation is the frame of the second sub-step. *)
Lemma step_slides_history_window_witness :
  let e := Toy.atari_started (Toy.atari_env false false 3 None) in
  let raw := Toy.frame false 1 in
  let d := Toy.dmc_started (Toy.acrobot_env 4 3 2 None) in
  let action := Tensor [1] [0%float] in
  (exists e' files t old obs,
     Atari.step Toy.str_float "t" e (Tensor [] [PyInt 0]) = Ok (e', files, t) /\
     (1 <= Atari.history_frames (Atari.config e))%Z /\
     Atari.history e = Some old /\
     has_shape [3 * 3; 2; 2] old /\
     Atari.sim_step (Toy.atari false false 4) (Atari.env e) (PyInt 0)
       = Ok ((2, 1%Z), (raw, 1%float, false)) /\
     has_shape [2; 2; 3] raw /\
     Atari.to_chw (Atari.config e) raw = Ok obs /\
     Atari.history e' = Some (state t) /\
     has_shape [3 * 3; 2; 2] (state t) /\
     upto0 ((3 - 1) * 3) (state t) = last0 ((3 - 1) * 3) old /\
     last0 3 (state t) = Ok obs) /\
  (exists old trace,
     DMC.history d = Some old /\
     has_shape [3 * 3; 2; 2] old /\
     DMC.sim_steps (Toy.dmc 4) 2 (DMC.env d) (tolist (clip (-1) 1 action))
       = Ok trace /\
     exists d' files t front infos obs,
       DMC.step Toy.str_float "t" d action = Ok (d', files, t) /\
       trace = front ++ [infos] /\
       permute201 (DMC.pixels infos) = Ok obs /\
       DMC.history d' = Some (state t) /\
       has_shape [3 * 3; 2; 2] (state t) /\
       upto0 ((3 - 1) * 3) (state t) = last0 ((3 - 1) * 3) old /\
       last0 3 (state t) = Ok obs).
Proof.
  cbv zeta. split.
  - assert (HH : (1 <= 3)%Z) by (vm_compute; discriminate).
    destruct (proj1 step_slides_history_window Toy.str_float (Toy.atari false false 4)
                "t"%string (Toy.atari_started (Toy.atari_env false false 3 None))
                _ (Tensor [] [PyInt 0]) _ _
                (Tensor [9; 2; 2] (repeat 0%Z 36)) (PyInt 0) (2, 1%Z)
                (Toy.frame false 1) 1%float false 2 2
                eq_refl HH eq_refl (conj eq_refl eq_refl) eq_refl eq_refl
                (conj eq_refl eq_refl))
      as (obs & Hobs & Hhist & Hshape & Hup & Hlast).
    eexists _, _, _, _, obs.
    split; [reflexivity|].
    split; [exact HH|].
    split; [reflexivity|].
    split; [split; reflexivity|].
    split; [reflexivity|].
    split; [split; reflexivity|].
    split; [exact Hobs|].
    split; [exact Hhist|].
    split; [exact Hshape|].
    split; [exact Hup | exact Hlast].
  - eexists _, _.
    split; [vm_compute; reflexivity|].
    split; [split; reflexivity|].
    split; [vm_compute; reflexivity|].
    eapply (proj2 (proj2 (proj2 step_slides_history_window)) Toy.str_float (Toy.dmc 4)
              "t"%string (Toy.dmc_started (Toy.acrobot_env 4 3 2 None))
              (Tensor [1] [0%float]) _ _ 0%float 1 2 2).
    + vm_compute. discriminate.
    + vm_compute. reflexivity.
    + split; reflexivity.
    + reflexivity.
    + reflexivity.
    + reflexivity.
    + vm_compute. discriminate.
    + vm_compute. reflexivity.
    + repeat constructor; eexists; reflexivity.
    + repeat constructor.
    + left. reflexivity.
Defined.



(** ** The channel count over a whole run *)

(** The shape of the history assumed before a [step] is an invariant: it
    holds after [reset] and every later [step], provided the simulator
    keeps emitting frames of one shape. *)

Section AtariRuns.
Import Atari.
Variable str_float : float -> string.
Variable S : Simulator.
Variable c : Config.
Variables h w : nat.

Hypothesis reset_frames :
  forall s s' raw, sim_reset S s = Ok (s', raw) -> has_shape (raw_shape c h w) raw.
Hypothesis step_frames :
  forall s a s' raw r d,
    sim_step S s a = Ok (s', (raw, r, d)) -> has_shape (raw_shape c h w) raw.
Hypothesis one_frame : (1 <= history_frames c)%Z.

Lemma atari_running_history (e : AtariEnv S) :
  running str_float c e ->
  config e = c /\
  exists hist,
    history e = Some hist /\
    has_shape [Z.to_nat (history_frames c) * channels c; h; w] hist.
Proof.
  induction 1 as [e e' t Hc Hreset | now e action e' files t Hrun [Hc IH] Hstep].
  - pose proof Hreset as Hinv. apply atari_reset_inv in Hinv.
    destruct Hinv as (sim & raw & obs & Hsim & _ & _ & Hc' & _ & Hhist & _).
    split; [congruence|].
    pose proof (reset_frames _ Hsim) as Hraw.
    pose proof one_frame as Hone.
    rewrite <- Hc in Hraw, Hone |- *.
    edestruct atari_reset_history as (obs' & _ & Hshape & _);
      [exact Hreset | exact Hsim | exact Hraw | exact Hone | eauto].
  - destruct IH as (old & Hold & Hso).
    pose proof Hstep as Hinv. apply atari_step_inv in Hinv.
    destruct Hinv
      as (a & sim & raw & r & d & score & v & p & obs & Hitem & Hsim & _ & _ & _
          & _ & _ & Hc' & _).
    split; [congruence|].
    pose proof (step_frames _ _ Hsim) as Hraw.
    pose proof one_frame as Hone.
    rewrite <- Hc in Hraw, Hone, Hso |- *.
    edestruct atari_step_history as (obs' & _ & Hhist & Hshape & _);
      [exact Hstep | exact Hone | exact Hold | exact Hso | exact Hitem
      | exact Hsim | exact Hraw | eauto].
Qed.

End AtariRuns.

Section DmcRuns.
Import DMC.
Variable str_float : float -> string.
Variable S : Simulator.
Variable c : Config.
Variables h w : nat.

Hypothesis reset_frames :
  forall s s' infos,
    sim_reset S s = Ok (s', infos) -> has_shape [h; w; 3] (pixels infos).
Hypothesis step_frames :
  forall s a s' infos,
    sim_step S s a = Ok (s', infos) -> has_shape [h; w; 3] (pixels infos).
Hypothesis one_frame : (1 <= history_frames c)%Z.

Lemma sim_steps_frames (n : nat) :
  forall s a trace,
    sim_steps S n s a = Ok trace ->
    Forall (fun infos => has_shape [h; w; 3] (pixels infos)) trace.
Proof.
  induction n as [|n IH]; simpl; intros s a trace H.
  - injection H as <-. constructor.
  - inv_bind H as si Hsi. destruct si as [s' infos].
    inv_bind H as rest Hrest. injection H as <-.
    constructor; [exact (step_frames _ _ Hsi) | exact (IH _ _ _ Hrest)].
Qed.

Lemma dmc_step_trace now (e e' : DeepMindControlEnv S) action files t :
  step str_float now e action = Ok (e', files, t) ->
  exists trace,
    sim_steps S (Z.to_nat (action_repeat (config e))) (env e)
      (tolist (clip (clip_low (config e)) (clip_high (config e)) action))
      = Ok trace.
Proof.
  intros H. apply dmc_step_inv in H.
  destruct H as (n & l & score & _ & _ & Hloop & _).
  apply loop_spec in Hloop. destruct Hloop as (trace & rs & Htr & _).
  exists trace. exact Htr.
Qed.

Lemma dmc_running_history (e : DeepMindControlEnv S) :
  running str_float c e ->
  config e = c /\
  exists hist,
    history e = Some hist /\
    has_shape [Z.to_nat (history_frames c) * 3; h; w] hist.
Proof.
  induction 1 as [e e' t Hc Hreset | now e action e' files t Hrun [Hc IH] Hstep].
  - pose proof Hreset as Hinv. apply dmc_reset_inv in Hinv.
    destruct Hinv as (sim & infos & obs & Hsim & _ & _ & Hc' & _ & Hhist & _).
    split; [congruence|].
    rewrite <- Hc.
    edestruct dmc_reset_history as (obs' & _ & Hshape & _);
      [exact Hreset | exact Hsim | exact (reset_frames _ Hsim) | eauto].
  - destruct IH as (old & Hold & Hso).
    pose proof Hstep as Htr. apply dmc_step_trace in Htr.
    destruct Htr as (trace & Htrace).
    pose proof Hstep as Hinv. apply dmc_step_inv in Hinv.
    destruct Hinv as (n & l & score & _ & _ & _ & _ & _ & _ & Hc' & _).
    split; [congruence|].
    pose proof one_frame as Hone.
    rewrite <- Hc in Hone, Hso |- *.
    edestruct dmc_step_history
      as (front & infos & obs & _ & _ & Hhist & Hshape & _);
      [exact Hstep | exact Hone | exact Hold | exact Hso | exact Htrace
      | exact (sim_steps_frames _ _ _ Htrace) | eauto].
Qed.

End DmcRuns.

(** * Further properties *)

(** ** More on the collate utility *)

(** A comprehension that succeeds has evaluated its body on every element. *)
Lemma comprehension_Forall2 {X Y} (f : X -> result Y) (l : list X) (ys : list Y) :
  comprehension f l = Ok ys -> Forall2 (fun x y => f x = Ok y) l ys.
Proof.
  revert ys; induction l as [|x l IH]; simpl; intros ys H.
  - injection H as <-. constructor.
  - inv_bind H as y Hy. inv_bind H as ys' Hys. injection H as <-.
    constructor; auto.
Qed.

(** The [i]-th of equally long blocks. *)
Lemma block_of_concat {A} (m : nat) (ds : list (list A)) :
  Forall (fun d => length d = m) ds ->
  forall i d, nth_error ds i = Some d ->
  firstn m (skipn (i * m) (concat ds)) = d.
Proof.
  induction 1 as [|d0 ds Hd0 Hall IH]; intros i d Hi.
  - destruct i; discriminate.
  - destruct i as [|i]; simpl in *.
    + injection Hi as <-. rewrite <- Hd0 at 1.
      rewrite firstn_app, Nat.sub_diag, firstn_all. simpl. now rewrite app_nil_r.
    + rewrite skipn_app, skipn_all2 by lia. simpl.
      replace (m + i * m - length d0) with (i * m) by lia.
      now apply IH.
Qed.

(** The length of equally long blocks laid end to end. *)
Lemma length_concat_blocks {A} (m : nat) (ds : list (list A)) :
  Forall (fun d => length d = m) ds -> length (concat ds) = length ds * m.
Proof.
  induction 1 as [|d ds Hd _ IH]; simpl; [reflexivity|].
  rewrite length_app, IH, Hd. reflexivity.
Qed.

Section StackFacts.
Variable A : Type.

(** What [torch.stack] returns, and when. *)
Lemma stack0_inv (l : list (tensor A)) (t : tensor A) :
  stack0 l = Ok t ->
  exists u s, hd_error l = Some u /\ s = shape u /\
    Forall (fun v => shape v = s) l /\
    t = Tensor (length l :: s) (concat (map (@data A) l)).
Proof.
  unfold stack0. destruct l as [|u l']; [discriminate|].
  destruct (forallb _ _) eqn:Hall; [|discriminate].
  intros H. injection H as <-. exists u, (shape u). repeat split.
  rewrite forallb_forall in Hall. apply Forall_forall. intros v Hv.
  apply shape_eqb_eq. now apply Hall.
Qed.

(** A stack of well-formed tensors is well formed, and its [i]-th row is
    the [i]-th tensor. *)
Lemma stack0_rows (l : list (tensor A)) (t : tensor A) :
  stack0 l = Ok t -> Forall wf l ->
  wf t /\
  forall i u, nth_error l i = Some u -> range0 i (i + 1) t = Ok (unsqueeze0 u).
Proof.
  intros H Hwf. apply stack0_inv in H.
  destruct H as (u0 & s & _ & _ & Hs & ->).
  assert (Hlen : Forall (fun d => length d = numel s) (map (@data A) l)).
  { apply Forall_map. rewrite Forall_forall in *. intros v Hv.
    specialize (Hs v Hv). specialize (Hwf v Hv). unfold wf in Hwf. congruence. }
  split.
  - unfold wf. simpl. rewrite (length_concat_blocks Hlen), length_map. reflexivity.
  - intros i u Hi.
    assert (Hi' : i < length l) by (apply nth_error_Some; congruence).
    rewrite range0_eq with (n := length l) (rest := s); [|reflexivity|lia].
    simpl. unfold unsqueeze0.
    rewrite Forall_forall in Hs. rewrite (Hs u (nth_error_In _ _ Hi)).
    replace (i + 1 - i) with 1 by lia. do 2 f_equal.
    rewrite skipn_firstn_comm.
    replace ((i + 1) * numel s - i * numel s) with (numel s) by lia.
    apply block_of_concat; [exact Hlen|].
    rewrite nth_error_map, Hi. reflexivity.
Qed.

End StackFacts.

(** Equality of keys. *)
Lemma pykey_eqb_eq (a b : pykey) : pykey_eqb a b = true <-> a = b.
Proof.
  destruct a as [s|n], b as [s'|n']; simpl.
  - rewrite String.eqb_eq. split; congruence.
  - split; discriminate.
  - split; discriminate.
  - rewrite Z.eqb_eq. split; congruence.
Qed.

Lemma pykey_eqb_refl (a : pykey) : pykey_eqb a a = true.
Proof. now apply pykey_eqb_eq. Qed.

(** Setting a key the dict does not have appends the entry. *)
Lemma dict_set_fresh {V} (d : dict V) (k : pykey) (v : V) :
  ~ In k (map fst d) -> dict_set d k v = d ++ [(k, v)].
Proof.
  induction d as [|[k' v'] d IH]; simpl; intros Hk; [reflexivity|].
  destruct (pykey_eqb k' k) eqn:E.
  - apply pykey_eqb_eq in E. tauto.
  - rewrite IH by tauto. reflexivity.
Qed.

Section CollateMore.
Import Collate.
Variable A : Type.

(** What selecting and stacking one slot has done when it succeeds. *)
Lemma select_stack_inv (samples : list (sample A)) (p : params) (t : tensor A) :
  select_stack samples p = Ok t ->
  exists ax slots,
    dict_get p (KStr "axis") = Ok ax /\
    Forall2 (fun smp u => py_index smp ax = Ok u) samples slots /\
    stack0 slots = Ok t.
Proof.
  unfold select_stack. intros H. inv_bind H as slots Hslots.
  assert (Hne : samples <> []).
  { intros ->. simpl in Hslots. injection Hslots as <-. discriminate. }
  destruct (dict_get p (KStr "axis")) as [ax|e] eqn:Hax.
  - exists ax, slots. repeat split; auto.
    apply comprehension_Forall2 in Hslots.
    eapply Forall2_impl; [|exact Hslots]. auto.
  - destruct samples; [congruence|]. simpl in Hslots. discriminate.
Qed.

(** The list loop appends one stacked tensor per parameter. *)
Lemma collate_list_loop_spec (samples : list (sample A)) (ps : list params) :
  forall acc out,
    collate_list_loop samples ps acc = Ok out ->
    exists ts, out = acc ++ ts /\
               Forall2 (fun p t => select_stack samples p = Ok t) ps ts.
Proof.
  induction ps as [|p ps IH]; simpl; intros acc out H.
  - injection H as <-. exists []. rewrite app_nil_r. auto.
  - inv_bind H as t Ht. apply IH in H. destruct H as (ts & -> & Hts).
    exists (t :: ts). rewrite <- app_assoc. auto.
Qed.

(** The dict loop binds every key to the stacked tensor of its parameter;
    the keys are distinct, as those of a Python dict are. *)
Lemma collate_dict_loop_spec (samples : list (sample A)) (d : dict params) :
  forall acc out,
    NoDup (map fst acc ++ map fst d) ->
    collate_dict_loop samples d acc = Ok out ->
    exists ts, out = acc ++ combine (map fst d) ts /\
               Forall2 (fun kp t => select_stack samples (snd kp) = Ok t) d ts.
Proof.
  induction d as [|[k p] d IH]; simpl; intros acc out Hnd H.
  - injection H as <-. exists []. rewrite app_nil_r. auto.
  - inv_bind H as t Ht.
    assert (Hk : ~ In k (map fst acc)).
    { apply NoDup_remove_2 in Hnd. intros Hin. apply Hnd. apply in_or_app. auto. }
    rewrite dict_set_fresh in H by exact Hk.
    apply IH in H.
    + destruct H as (ts & -> & Hts). exists (t :: ts).
      rewrite <- app_assoc. simpl. auto.
    + rewrite map_app. simpl. rewrite <- app_assoc. exact Hnd.
Qed.

End CollateMore.

Section CollateTheorems.
Import Collate.
Variable A : Type.

(** X1.  When selecting and stacking one slot of the samples succeeds, the
    parameter has an ["axis"] entry, every sample has a tensor at that
    position and these tensors have one shape [s]; the result has shape
    [(len(samples),) + s] and, the tensors being well formed, its [i]-th
    row is the tensor of the [i]-th sample. *)
Theorem select_stack_rows (samples : list (sample A)) (p : params) (t : tensor A) :
  select_stack samples p = Ok t ->
  exists ax slots s,
    dict_get p (KStr "axis") = Ok ax /\
    Forall2 (fun smp u => py_index smp ax = Ok u) samples slots /\
    Forall (fun u => shape u = s) slots /\
    shape t = length samples :: s /\
    (Forall wf slots ->
     wf t /\
     forall i u, nth_error slots i = Some u ->
                 range0 i (i + 1) t = Ok (unsqueeze0 u)).
Proof.
  intros H. apply select_stack_inv in H.
  destruct H as (ax & slots & Hax & Hslots & Hstack).
  pose proof Hstack as Hinv. apply stack0_inv in Hinv.
  destruct Hinv as (u0 & s & _ & _ & Hs & Ht).
  exists ax, slots, s.
  split; [exact Hax|]. split; [exact Hslots|]. split; [exact Hs|]. split.
  - rewrite Ht. simpl. f_equal. symmetry. exact (Forall2_length Hslots).
  - intros Hwf. eapply stack0_rows; eassumption.
Qed.

(** X2.  With a list or a tuple of parameters that does not hold exactly
    one entry, [collate] returns a list (a tuple) with one stacked tensor
    per parameter, in the order of the parameters. *)
Theorem collate_sequence_entries (samples : list (sample A)) (ps : list params) :
  length ps <> 1 ->
  (forall r, collate samples (ParamsList ps) = Ok r ->
     exists ts, r = CList ts /\
       Forall2 (fun p t => select_stack samples p = Ok t) ps ts) /\
  (forall r, collate samples (ParamsTuple ps) = Ok r ->
     exists ts, r = CTuple ts /\
       Forall2 (fun p t => select_stack samples p = Ok t) ps ts).
Proof.
  intros Hlen. split; intros r H; unfold collate in H;
    inv_bind H as out Hout; apply collate_list_loop_spec in Hout;
    destruct Hout as (ts & -> & Hts); simpl in H;
    rewrite <- (Forall2_length Hts) in H;
    (destruct (Nat.eqb (length ps) 1) eqn:E;
     [apply Nat.eqb_eq in E; contradiction|]);
    injection H as <-; eauto.
Qed.

(** X3.  With a dict of parameters that does not hold exactly one entry,
    [collate] returns a dict with the same keys in the same order, each
    bound to the stacked tensor of its parameter. *)
Theorem collate_mapping_entries (samples : list (sample A)) (d : dict params)
    (r : collated A) :
  NoDup (map fst d) ->
  length d <> 1 ->
  collate samples (ParamsDict d) = Ok r ->
  exists ts, r = CDict (combine (map fst d) ts) /\
    Forall2 (fun kp t => select_stack samples (snd kp) = Ok t) d ts.
Proof.
  intros Hnd Hlen H. unfold collate in H.
  inv_bind H as out Hout. apply collate_dict_loop_spec in Hout; [|exact Hnd].
  destruct Hout as (ts & -> & Hts). simpl in H.
  rewrite length_combine, length_map, <- (Forall2_length Hts), Nat.min_id in H.
  destruct (Nat.eqb (length d) 1) eqn:E; [apply Nat.eqb_eq in E; contradiction|].
  injection H as <-. eauto.
Qed.

(** X5.  An empty batch cannot be collated: with at least one parameter,
    [collate] on no sample raises the error of [torch.stack] on an empty
    list, whatever the container of the parameters; with no parameter at
    all it returns the empty container for any batch. *)
Theorem collate_empty_inputs :
  (forall (p : params) ps,
     collate (@nil (sample A)) (ParamsList (p :: ps)) = Err TorchError /\
     collate (@nil (sample A)) (ParamsTuple (p :: ps)) = Err TorchError) /\
  (forall (k : pykey) (p : params) d,
     collate (@nil (sample A)) (ParamsDict ((k, p) :: d)) = Err TorchError) /\
  (forall samples : list (sample A),
     collate samples (ParamsList []) = Ok (CList []) /\
     collate samples (ParamsTuple []) = Ok (CTuple []) /\
     collate samples (ParamsDict []) = Ok (CDict [])).
Proof. repeat split. Qed.

End CollateTheorems.

(** Two samples of two tensors each, collated on their second element. *)
Lemma select_stack_rows_witness :
  let a := Tensor [2] [1%Z; 2%Z] in
  let b := Tensor [2] [3%Z; 4%Z] in
  let samples := [[a; b]; [b; a]] in
  let p := [(KStr "axis", 1%Z)] in
  let t := Tensor [2; 2] [3%Z; 4%Z; 1%Z; 2%Z] in
  Collate.select_stack samples p = Ok t /\
  exists ax slots s,
    dict_get p (KStr "axis") = Ok ax /\
    Forall2 (fun smp u => py_index smp ax = Ok u) samples slots /\
    Forall (fun u => shape u = s) slots /\
    shape t = length samples :: s /\
    (Forall wf slots ->
     wf t /\
     forall i u, nth_error slots i = Some u ->
                 range0 i (i + 1) t = Ok (unsqueeze0 u)).
Proof.
  cbv zeta. split; [reflexivity|].
  apply (@select_stack_rows Z
           [[Tensor [2] [1%Z; 2%Z]; Tensor [2] [3%Z; 4%Z]];
            [Tensor [2] [3%Z; 4%Z]; Tensor [2] [1%Z; 2%Z]]]
           [(KStr "axis", 1%Z)] (Tensor [2; 2] [3%Z; 4%Z; 1%Z; 2%Z])).
  reflexivity.
Defined.

(** Two parameters: the list stays a list of two stacked tensors. *)
Lemma collate_sequence_entries_witness :
  let a := Tensor [2] [1%Z; 2%Z] in
  let b := Tensor [2] [3%Z; 4%Z] in
  let samples := [[a; b]; [b; a]] in
  let ps := [[(KStr "axis", 0%Z)]; [(KStr "axis", 1%Z)]] in
  length ps = 2 /\
  Collate.collate samples (Collate.ParamsList ps)
    = Ok (Collate.CList [Tensor [2; 2] [1%Z; 2%Z; 3%Z; 4%Z];
                         Tensor [2; 2] [3%Z; 4%Z; 1%Z; 2%Z]]) /\
  (forall r, Collate.collate samples (Collate.ParamsList ps) = Ok r ->
     exists ts, r = Collate.CList ts /\
       Forall2 (fun p t => Collate.select_stack samples p = Ok t) ps ts) /\
  (forall r, Collate.collate samples (Collate.ParamsTuple ps) = Ok r ->
     exists ts, r = Collate.CTuple ts /\
       Forall2 (fun p t => Collate.select_stack samples p = Ok t) ps ts).
Proof.
  cbv zeta. split; [reflexivity|]. split; [reflexivity|].
  apply (@collate_sequence_entries Z
           [[Tensor [2] [1%Z; 2%Z]; Tensor [2] [3%Z; 4%Z]];
            [Tensor [2] [3%Z; 4%Z]; Tensor [2] [1%Z; 2%Z]]]
           [[(KStr "axis", 0%Z)]; [(KStr "axis", 1%Z)]]).
  discriminate.
Defined.

(** The same two slots under the names "x" and "y". *)
Lemma collate_mapping_entries_witness :
  let a := Tensor [2] [1%Z; 2%Z] in
  let b := Tensor [2] [3%Z; 4%Z] in
  let samples := [[a; b]; [b; a]] in
  let d := [(KStr "x", [(KStr "axis", 0%Z)]); (KStr "y", [(KStr "axis", 1%Z)])] in
  let r := Collate.CDict [(KStr "x", Tensor [2; 2] [1%Z; 2%Z; 3%Z; 4%Z]);
                          (KStr "y", Tensor [2; 2] [3%Z; 4%Z; 1%Z; 2%Z])] in
  Collate.collate samples (Collate.ParamsDict d) = Ok r /\
  exists ts, r = Collate.CDict (combine (map fst d) ts) /\
    Forall2 (fun kp t => Collate.select_stack samples (snd kp) = Ok t) d ts.
Proof.
  cbv zeta. split; [reflexivity|].
  apply (@collate_mapping_entries Z
           [[Tensor [2] [1%Z; 2%Z]; Tensor [2] [3%Z; 4%Z]];
            [Tensor [2] [3%Z; 4%Z]; Tensor [2] [1%Z; 2%Z]]]
           [(KStr "x", [(KStr "axis", 0%Z)]); (KStr "y", [(KStr "axis", 1%Z)])]).
  - repeat constructor; simpl; intuition discriminate.
  - discriminate.
  - reflexivity.
Defined.

(** ** How collating fails *)

(** The only error of a dict lookup, and of indexing a sequence. *)
Lemma dict_get_Err {V} (d : dict V) (k : pykey) (e : PyError) :
  dict_get d k = Err e -> e = KeyError.
Proof.
  induction d as [|[k' v] d IH]; simpl; intros H; [congruence|].
  destruct (pykey_eqb k' k); [discriminate | auto].
Qed.

Lemma py_index_Err {X} (l : list X) (i : Z) (e : PyError) :
  py_index l i = Err e -> e = IndexError.
Proof.
  unfold py_index. intros H.
  destruct (_ || _)%bool; [congruence|].
  destruct (nth_error l _); congruence.
Qed.

(** A comprehension raises the error of the first element its body fails
    on. *)
Lemma comprehension_Err {X Y} (f : X -> result Y) (l : list X) (e : PyError) :
  comprehension f l = Err e <->
  exists l1 x l2, l = l1 ++ x :: l2 /\
                  Forall (fun y => exists v, f y = Ok v) l1 /\ f x = Err e.
Proof.
  split.
  - induction l as [|x l IH]; simpl; intros H; [discriminate|].
    destruct (f x) as [y|e'] eqn:Hx; simpl in H.
    + destruct (comprehension f l) as [ys|e'']; simpl in H; [discriminate|].
      injection H as ->. destruct (IH eq_refl) as (l1 & x' & l2 & -> & Hl1 & Hx').
      exists (x :: l1), x', l2. repeat split; auto. constructor; eauto.
    + injection H as ->. exists [], x, l. auto.
  - intros (l1 & x & l2 & -> & Hl1 & Hx).
    induction Hl1 as [|y l1 [v Hy] _ IH]; simpl.
    + now rewrite Hx.
    + rewrite Hy. simpl. now rewrite IH.
Qed.

Lemma comprehension_Ok {X Y} (f : X -> result Y) (l : list X) (ys : list Y) :
  Forall2 (fun x y => f x = Ok y) l ys -> comprehension f l = Ok ys.
Proof.
  induction 1 as [|x y l ys Hx _ IH]; simpl; [reflexivity|].
  rewrite Hx. simpl. now rewrite IH.
Qed.

Section StackErrors.
Variable A : Type.

(** [torch.stack] fails on an empty list and on tensors of different
    shapes, and on nothing else. *)
Lemma stack0_Err (l : list (tensor A)) (e : PyError) :
  stack0 l = Err e <->
  e = TorchError /\
  (l = [] \/ exists u v, hd_error l = Some u /\ In v l /\ shape v <> shape u).
Proof.
  unfold stack0. destruct l as [|u l'].
  - split; [intros H; injection H as <-; auto | intros [-> _]; reflexivity].
  - destruct (forallb _ _) eqn:Hall.
    + split; [discriminate|].
      intros [_ [H|(u' & v & Hu & Hv & Hne)]]; [discriminate|].
      simpl in Hu. injection Hu as <-.
      rewrite forallb_forall in Hall. apply Hall in Hv.
      apply shape_eqb_eq in Hv. contradiction.
    + split; [|intros [-> _]; reflexivity].
      intros H. injection H as <-. split; [reflexivity|]. right.
      assert (Hex : exists v, In v (u :: l') /\ shape_eqb (shape v) (shape u) = false).
      { clear - Hall. induction (u :: l') as [|w l IH]; simpl in Hall; [discriminate|].
        destruct (shape_eqb (shape w) (shape u)) eqn:E.
        - destruct (IH Hall) as (v & Hv & Hne). exists v. split; [now right | exact Hne].
        - exists w. split; [now left | exact E]. }
      destruct Hex as (v & Hv & Hne). exists u, v.
      repeat split; auto. intros Heq. rewrite Heq, shape_eqb_refl in Hne. discriminate.
Qed.

End StackErrors.

Section CollateFailures.
Import Collate.
Variable A : Type.

(** When selecting and stacking one slot fails, and how. *)
Lemma select_stack_Err (samples : list (sample A)) (p : params) (e : PyError) :
  select_stack samples p = Err e <->
  (e = KeyError /\ samples <> [] /\ dict_get p (KStr "axis") = Err KeyError) \/
  (e = IndexError /\
   exists ax smp, dict_get p (KStr "axis") = Ok ax /\ In smp samples /\
                  py_index smp ax = Err IndexError) \/
  (e = TorchError /\
   (samples = [] \/
    exists ax slots u v,
      dict_get p (KStr "axis") = Ok ax /\
      Forall2 (fun smp t => py_index smp ax = Ok t) samples slots /\
      hd_error slots = Some u /\ In v slots /\ shape v <> shape u)).
Proof.
  unfold select_stack.
  set (f := fun s : sample A => ax <- dict_get p (KStr "axis") ;; py_index s ax).
  destruct (dict_get p (KStr "axis")) as [ax|ek] eqn:Hax.
  - (* the parameter has an axis *)
    assert (Hf : forall s, f s = py_index s ax) by (intros s; reflexivity).
    destruct (comprehension f samples) as [slots|ec] eqn:Hc; cbn [bind].
    + pose proof (comprehension_Forall2 _ _ Hc) as Hall.
      assert (Hall' : Forall2 (fun smp t => py_index smp ax = Ok t) samples slots).
      { eapply Forall2_impl; [|exact Hall]. intros s t Hs. now rewrite <- Hf. }
      rewrite stack0_Err. split.
      * intros [-> [->|(u & v & Hu & Hv & Hne)]].
        -- right. right. split; [reflexivity|]. left.
           inversion Hall'; reflexivity.
        -- right. right. split; [reflexivity|]. right.
           exists ax, slots, u, v. auto.
      * intros [(_ & _ & H)|[(_ & ax' & smp & Hax' & Hin & Herr)|(-> & H)]].
        -- discriminate.
        -- exfalso. injection Hax' as ->. clear - Hall' Hin Herr.
           induction Hall' as [|s t l ts Hs _ IH]; [destruct Hin|].
           destruct Hin as [->|Hin]; [congruence | auto].
        -- split; [reflexivity|].
           destruct H as [->|(ax' & slots' & u & v & Hax' & Hs' & Hu & Hv & Hne)].
           ++ left. inversion Hall'; reflexivity.
           ++ right. exists u, v.
              assert (slots' = slots).
              { injection Hax' as ->. clear - Hall' Hs'.
                revert slots' Hs'. induction Hall' as [|s t l ts Hs _ IH];
                  intros slots' Hs'; inversion Hs'; subst; [reflexivity|].
                f_equal; [congruence | auto]. }
              subst. auto.
    + apply comprehension_Err in Hc.
      destruct Hc as (l1 & x & l2 & Hsamples & Hl1 & Hx).
      rewrite Hf in Hx. pose proof (py_index_Err _ _ Hx) as ->.
      split.
      * intros H. injection H as <-. right. left. split; [reflexivity|].
        exists ax, x. repeat split; auto. rewrite Hsamples.
        apply in_or_app. right. now left.
      * intros [(_ & _ & H)|[(-> & _)|(-> & [->|H])]].
        -- discriminate.
        -- reflexivity.
        -- destruct l1; discriminate.
        -- exfalso. destruct H as (ax' & slots & u & v & Hax' & Hs & _).
           injection Hax' as ->. subst samples. clear - Hs Hx.
           apply Forall2_app_inv_l in Hs.
           destruct Hs as (s1 & s2 & _ & Hs2 & _).
           inversion Hs2; subst. congruence.
  - (* the parameter has no axis *)
    pose proof (dict_get_Err _ _ Hax) as ->.
    destruct samples as [|smp rest]; cbn [comprehension bind].
    + split.
      * intros H. injection H as <-. right. right. auto.
      * intros [(_ & H & _)|[(_ & ax & smp & H & _)|(-> & _)]];
          [congruence | discriminate | reflexivity].
    + unfold f at 1. cbn [bind]. split.
      * intros H. injection H as <-. left. repeat split; auto. discriminate.
      * intros [(-> & _)|[(_ & ax & s & H & _)|(_ & [H|(ax & sl & u & v & H & _)])]];
          [reflexivity | discriminate | discriminate | discriminate].
Qed.

(** The loops stop at the first parameter that fails. *)
Lemma collate_list_loop_Err (samples : list (sample A)) (ps1 : list params) p ps2 e :
  Forall (fun q => exists t, select_stack samples q = Ok t) ps1 ->
  select_stack samples p = Err e ->
  forall acc, collate_list_loop samples (ps1 ++ p :: ps2) acc = Err e.
Proof.
  intros Hall Hp. induction Hall as [|q ps1 [t Hq] _ IH]; intros acc; simpl.
  - now rewrite Hp.
  - rewrite Hq. simpl. apply IH.
Qed.

Lemma collate_dict_loop_Err (samples : list (sample A)) (d1 : dict params) k p d2 e :
  Forall (fun kq => exists t, select_stack samples (snd kq) = Ok t) d1 ->
  select_stack samples p = Err e ->
  forall acc, collate_dict_loop samples (d1 ++ (k, p) :: d2) acc = Err e.
Proof.
  intros Hall Hp. induction Hall as [|[k' q] d1 [t Hq] _ IH]; intros acc; simpl.
  - now rewrite Hp.
  - simpl in Hq. rewrite Hq. simpl. apply IH.
Qed.

(** X6.  How [collate] fails.  It raises the error of the first parameter,
    in order, whose slot cannot be selected and stacked, whatever the
    container (list, tuple or dict) and whatever comes after that
    parameter.  For such a parameter the error is [KeyError] exactly when
    the batch is not empty and the parameter has no ["axis"] entry,
    [IndexError] exactly when some sample has no element at the axis, and
    the error of [torch.stack] exactly when the batch is empty or every
    sample has a tensor at the axis but one of them differs in shape from
    the first; there is no other error. *)
Theorem collate_bad_parameters (samples : list (sample A)) (p : params) (e : PyError) :
  (select_stack samples p = Err e ->
   forall ps1 ps2 d1 d2 k,
     Forall (fun q => exists t, select_stack samples q = Ok t) ps1 ->
     Forall (fun kq => exists t, select_stack samples (snd kq) = Ok t) d1 ->
     collate samples (ParamsList (ps1 ++ p :: ps2)) = Err e /\
     collate samples (ParamsTuple (ps1 ++ p :: ps2)) = Err e /\
     collate samples (ParamsDict (d1 ++ (k, p) :: d2)) = Err e) /\
  (select_stack samples p = Err e <->
   (e = KeyError /\ samples <> [] /\ dict_get p (KStr "axis") = Err KeyError) \/
   (e = IndexError /\
    exists ax smp, dict_get p (KStr "axis") = Ok ax /\ In smp samples /\
                   py_index smp ax = Err IndexError) \/
   (e = TorchError /\
    (samples = [] \/
     exists ax slots u v,
       dict_get p (KStr "axis") = Ok ax /\
       Forall2 (fun smp t => py_index smp ax = Ok t) samples slots /\
       hd_error slots = Some u /\ In v slots /\ shape v <> shape u))).
Proof.
  split; [|apply select_stack_Err].
  intros Hp ps1 ps2 d1 d2 k Hps Hd. unfold collate.
  rewrite collate_list_loop_Err with (e := e) by assumption.
  rewrite collate_dict_loop_Err with (e := e) by assumption.
  auto.
Qed.

End CollateFailures.

(** On two samples of two tensors each: the second parameter asks for a
    third element and the third has no axis; [collate] raises the
    [IndexError] of the second. *)
Lemma collate_bad_parameters_witness :
  let a := Tensor [2] [1%Z; 2%Z] in
  let b := Tensor [2] [3%Z; 4%Z] in
  let samples := [[a; b]; [b; a]] in
  let good := [(KStr "axis", 0%Z)] in
  let far := [(KStr "axis", 2%Z)] in
  let none := [(KStr "dim", 0%Z)] in
  Collate.select_stack samples far = Err IndexError /\
  Collate.select_stack samples none = Err KeyError /\
  Collate.collate samples (Collate.ParamsList ([good] ++ far :: [none]))
    = Err IndexError /\
  Collate.collate samples (Collate.ParamsTuple ([good] ++ far :: [none]))
    = Err IndexError /\
  Collate.collate samples
    (Collate.ParamsDict ([(KStr "x", good)] ++ (KStr "y", far) :: [(KStr "z", none)]))
    = Err IndexError.
Proof.
  cbv zeta. split; [reflexivity|]. split; [reflexivity|].
  apply (proj1 (@collate_bad_parameters Z
                  [[Tensor [2] [1%Z; 2%Z]; Tensor [2] [3%Z; 4%Z]];
                   [Tensor [2] [3%Z; 4%Z]; Tensor [2] [1%Z; 2%Z]]]
                  [(KStr "axis", 2%Z)] IndexError)).
  - reflexivity.
  - repeat constructor. eexists. reflexivity.
  - repeat constructor. eexists. reflexivity.
Defined.

Section CollateForward.
Import Collate.
Variable A : Type.

(** X4.  [CollateFn()] with its default parameters turns a batch of
    (input, target) samples into two bare tensors: the stacked first
    elements under ["inputs"] and the stacked second elements under
    ["targets"]. *)
Theorem collate_forward_default (samples : list (sample A)) (inputs targets : collated A) :
  forward default_inputs_params default_targets_params samples = Ok (inputs, targets) ->
  exists xs ys x y,
    Forall2 (fun smp u => py_index smp 0 = Ok u) samples xs /\
    Forall2 (fun smp u => py_index smp 1 = Ok u) samples ys /\
    stack0 xs = Ok x /\ stack0 ys = Ok y /\
    inputs = CBare x /\ targets = CBare y.
Proof.
  unfold forward, default_inputs_params, default_targets_params. intros H.
  inv_bind H as i Hi. inv_bind H as t Ht. injection H as <- <-.
  destruct (collate_single_sequence samples [(KStr "axis", 0%Z)]) as [Ei _].
  destruct (collate_single_sequence samples [(KStr "axis", 1%Z)]) as [Et _].
  pose proof (eq_trans (eq_sym Ei) Hi) as Hi'.
  pose proof (eq_trans (eq_sym Et) Ht) as Ht'. clear Hi Ht Ei Et.
  rename Hi' into Hi, Ht' into Ht.
  inv_bind Hi as x Hx. injection Hi as <-.
  inv_bind Ht as y Hy. injection Ht as <-.
  apply select_stack_inv in Hx, Hy.
  destruct Hx as (ax & xs & Hax & Hxs & Hsx), Hy as (ay & ys & Hay & Hys & Hsy).
  simpl in Hax, Hay. injection Hax as <-. injection Hay as <-.
  exists xs, ys, x, y. auto 10.
Qed.

End CollateForward.

(** The default [CollateFn()] on two (input, target) pairs. *)
Lemma collate_forward_default_witness :
  let a := Tensor [2] [1%Z; 2%Z] in
  let b := Tensor [2] [3%Z; 4%Z] in
  let samples := [[a; b]; [b; a]] in
  let inputs := Collate.CBare (Tensor [2; 2] [1%Z; 2%Z; 3%Z; 4%Z]) in
  let targets := Collate.CBare (Tensor [2; 2] [3%Z; 4%Z; 1%Z; 2%Z]) in
  Collate.forward Collate.default_inputs_params Collate.default_targets_params samples
    = Ok (inputs, targets) /\
  exists xs ys x y,
    Forall2 (fun smp u => py_index smp 0 = Ok u) samples xs /\
    Forall2 (fun smp u => py_index smp 1 = Ok u) samples ys /\
    stack0 xs = Ok x /\ stack0 ys = Ok y /\
    inputs = Collate.CBare x /\ targets = Collate.CBare y.
Proof.
  cbv zeta. split; [reflexivity|].
  apply (@collate_forward_default Z
           [[Tensor [2] [1%Z; 2%Z]; Tensor [2] [3%Z; 4%Z]];
            [Tensor [2] [3%Z; 4%Z]; Tensor [2] [1%Z; 2%Z]]]).
  reflexivity.
Defined.

(** ** The Atari adapter over whole runs *)

Section AtariMore.
Import Atari.
Variable str_float : float -> string.
Variable S : Simulator.

(** X8.  [step] on an Atari adapter that was never [reset] fails; when
    the action holds one element and the simulator accepts it, the error
    is [AttributeError]: [episode_score] does not exist yet. *)
Theorem atari_step_before_reset (sim : ale S) img ar hf path tll gray e now action :
  init S sim img ar hf path tll gray = Ok e ->
  is_ok (step str_float now e action) = false /\
  forall a out, item action = Ok a -> sim_step S sim a = Ok out ->
                step str_float now e action = Err AttributeError.
Proof.
  unfold init. destruct (ar =? 0)%Z; [discriminate|]. intros H. injection H as <-.
  unfold step. simpl. split.
  - destruct (item action) as [a|]; simpl; [|reflexivity].
    destruct (sim_step S sim a) as [[sim' [[raw r] d]]|]; reflexivity.
  - intros a [sim' [[raw r] d]] Hi Hs. rewrite Hi. simpl. rewrite Hs. reflexivity.
Qed.

(** The two outcomes of the "Save Episode" block. *)
Lemma atari_save_if_done_files (c : Config) now d score v p v' p' files :
  save_if_done str_float c now d score v p = Ok (v', p', files) ->
  (files = [] /\ v' = v /\ p' = p /\ (d = false \/ episode_saving_path c = None)) \/
  (length files = 2 /\ d = true /\ exists path sv sp,
      episode_saving_path c = Some path /\ v' = Some (Stacked sv) /\ p' = Some (Stacked sp)).
Proof.
  destruct d.
  - destruct (episode_saving_path c) as [path|] eqn:Hp.
    + intros H. right.
      eapply atari_save_if_done_inv in H; [|exact Hp].
      destruct H as (fs & ps & sv & sp & p3 & _ & _ & _ & _ & _ & Hn & _ & -> & ->).
      split; [|split; [reflexivity|exists path, sv, sp; auto]].
      rewrite <- (length_map filename), Hn. reflexivity.
    + unfold save_if_done. rewrite Hp.
      intros H. injection H as <- <- <-. left. auto.
  - unfold save_if_done. intros H. left.
    destruct (episode_saving_path c); injection H as <- <- <-; auto.
Qed.

(** X9.  An Atari [step] writes files only when it returns [done] with
    recording enabled, and then exactly two; in every other case it writes
    none. *)
Theorem atari_step_files now (e e' : AtariEnv S) action files t :
  step str_float now e action = Ok (e', files, t) ->
  (files = [] /\
   (flag_true (done t) = false \/ episode_saving_path (config e) = None)) \/
  (length files = 2 /\ flag_true (done t) = true /\
   episode_saving_path (config e) <> None).
Proof.
  intros H. apply atari_step_inv in H.
  destruct H as (a & sim & raw & r & d & score & v & p & obs & _ & _ & _ & _
                 & Hsave & _ & _ & _ & _ & _ & _ & _ & Hd & _).
  rewrite Hd, flag_true_bool_float32.
  apply atari_save_if_done_files in Hsave.
  destruct Hsave as [(-> & _ & _ & Hor)|(Hlen & -> & path & sv & sp & Hp & _)].
  - left. auto.
  - right. repeat split; auto. congruence.
Qed.

(** X10.  After the Atari [step] that saved an episode, every further
    [step] without a [reset] fails: the recording buffer is a tensor by
    then, which has no [append] ([AttributeError] once the simulator has
    accepted the action). *)
Theorem atari_step_after_save_fails now (e e' : AtariEnv S) action files t :
  step str_float now e action = Ok (e', files, t) ->
  files <> [] ->
  forall now' action',
    is_ok (step str_float now' e' action') = false /\
    forall a out, item action' = Ok a -> sim_step S (env e') a = Ok out ->
                  step str_float now' e' action' = Err AttributeError.
Proof.
  intros H Hfiles now' action'. apply atari_step_inv in H.
  destruct H as (a & sim & raw & r & d & score & v & p & obs & _ & _ & _ & _
                 & Hsave & _ & _ & Hc & _ & _ & Hscore & _).
  apply atari_save_if_done_files in Hsave.
  destruct Hsave as [(-> & _)|(_ & _ & path & sv & sp & Hp & Hv & Hpre)];
    [congruence|].
  unfold step. split.
  - destruct (item action') as [a'|]; simpl; [|reflexivity].
    destruct (sim_step S (env e') a') as [[sim' [[raw' r'] d']]|]; simpl;
      [|reflexivity].
    rewrite Hscore. simpl. unfold add_to_video. rewrite Hc, Hp, Hv. reflexivity.
  - intros a' [sim' [[raw' r'] d']] Hi Hs. rewrite Hi. simpl. rewrite Hs. simpl.
    rewrite Hscore. simpl. unfold add_to_video. rewrite Hc, Hp, Hv. reflexivity.
Qed.

End AtariMore.

(** A freshly built adapter on the toy game refuses to step. *)
Lemma atari_step_before_reset_witness :
  let S := Toy.atari true false 4 in
  let action := Tensor [] [PyInt 0] in
  exists e,
    Atari.init S (3, 0%Z) (2, 2) 4 2 None false true = Ok e /\
    is_ok (Atari.step Toy.str_float "t" e action) = false /\
    forall a out, item action = Ok a -> Atari.sim_step S (3, 0%Z) a = Ok out ->
                  Atari.step Toy.str_float "t" e action = Err AttributeError.
Proof.
  cbv zeta. eexists. split; [reflexivity|].
  eapply (@atari_step_before_reset Toy.str_float (Toy.atari true false 4) (3, 0%Z)
            (2, 2) 4%Z 2%Z None false true _ "t"%string (Tensor [] [PyInt 0])).
  reflexivity.
Defined.

(** The step that loses a life under [terminal_on_life_loss] writes the two
    files. *)
Lemma atari_step_files_witness :
  let e := Toy.atari_started (Toy.atari_env true true 2 (Some "videos"%string)) in
  exists e' files t,
    Atari.step Toy.str_float "t" e (Tensor [] [PyInt 0]) = Ok (e', files, t) /\
    length files = 2 /\
    ((files = [] /\
      (flag_true (done t) = false \/
       Atari.episode_saving_path (Atari.config e) = None)) \/
     (length files = 2 /\ flag_true (done t) = true /\
      Atari.episode_saving_path (Atari.config e) <> None)).
Proof.
  cbv zeta. eexists _, _, _.
  split; [vm_compute; reflexivity|].
  split; [reflexivity|].
  eapply (@atari_step_files Toy.str_float (Toy.atari true true 4) "t"%string
            (Toy.atari_started (Toy.atari_env true true 2 (Some "videos"%string)))
            _ (Tensor [] [PyInt 0])).
  vm_compute. reflexivity.
Defined.

(** After that step the adapter refuses every further step. *)
Lemma atari_step_after_save_fails_witness :
  let S := Toy.atari true true 4 in
  let e := Toy.atari_started (Toy.atari_env true true 2 (Some "videos"%string)) in
  exists e' files t,
    Atari.step Toy.str_float "t" e (Tensor [] [PyInt 0]) = Ok (e', files, t) /\
    length files = 2 /\
    forall now' action',
      is_ok (Atari.step Toy.str_float now' e' action') = false /\
      forall a out, item action' = Ok a -> Atari.sim_step S (Atari.env e') a = Ok out ->
                    Atari.step Toy.str_float now' e' action' = Err AttributeError.
Proof.
  cbv zeta. eexists _, _, _.
  split; [vm_compute; reflexivity|].
  split; [reflexivity|].
  eapply (@atari_step_after_save_fails Toy.str_float (Toy.atari true true 4) "t"%string
            (Toy.atari_started (Toy.atari_env true true 2 (Some "videos"%string)))
            _ (Tensor [] [PyInt 0])).
  - vm_compute. reflexivity.
  - discriminate.
Defined.

(** ** The declared observation space *)

Section AtariObsSpace.
Import Atari.
Variable str_float : float -> string.
Variable S : Simulator.

(** [obs_space], with the channels as their count. *)
Lemma atari_obs_space_eq (e : AtariEnv S) :
  (0 <= history_frames (config e))%Z ->
  obs_space e =
    [("image"%string,
      [Z.to_nat (history_frames (config e)) * channels (config e);
       fst (img_size (config e)); snd (img_size (config e))],
      torch_uint8)].
Proof.
  intros HH. unfold obs_space, channels. destruct (grayscale_obs (config e)).
  - rewrite Z.mul_1_l, Nat.mul_1_r. reflexivity.
  - replace (Z.to_nat (3 * history_frames (config e)))
      with (Z.to_nat (history_frames (config e)) * 3) by lia.
    reflexivity.
Qed.

(** X11.  [__init__] builds the simulator with [screen_size=img_size[0]],
    so that its frames are squares of side [img_size[0]], while
    [obs_space] declares the width [img_size[1]].  With such frames and
    [history_frames >= 1], the states [reset] and [step] return have shape
    [(history_frames * channels, img_size[0], img_size[0])], and
    [obs_space] declares the shape of the returned states exactly when
    [img_size] is square. *)
Theorem atari_obs_space_is_state_shape (e : AtariEnv S) :
  let side := fst (img_size (config e)) in
  let channels := Z.to_nat (history_frames (config e)) * channels (config e) in
  (1 <= history_frames (config e))%Z ->
  (forall e' t sim raw,
     reset e = Ok (e', t) ->
     sim_reset S (env e) = Ok (sim, raw) ->
     has_shape (raw_shape (config e) side side) raw ->
     shape (state t) = [channels; side; side] /\
     (obs_space e' = [("image"%string, shape (state t), torch_uint8)] <->
      snd (img_size (config e)) = side)) /\
  (forall now action e' files t old a sim raw r d,
     step str_float now e action = Ok (e', files, t) ->
     history e = Some old ->
     has_shape [channels; side; side] old ->
     item action = Ok a ->
     sim_step S (env e) a = Ok (sim, (raw, r, d)) ->
     has_shape (raw_shape (config e) side side) raw ->
     shape (state t) = [channels; side; side] /\
     (obs_space e' = [("image"%string, shape (state t), torch_uint8)] <->
      snd (img_size (config e)) = side)).
Proof.
  intros side chans HH.
  assert (H0 : (0 <= history_frames (config e))%Z) by lia.
  assert (Hiff : forall e' : AtariEnv S,
             config e' = config e ->
             obs_space e' = [("image"%string, [chans; side; side], torch_uint8)] <->
             snd (img_size (config e)) = side).
  { intros e' Hc. rewrite atari_obs_space_eq by (rewrite Hc; exact H0).
    rewrite Hc. fold side chans. split.
    - intros H. injection H as H. exact H.
    - intros ->. reflexivity. }
  split.
  - intros e' t sim raw Hreset Hsim Hraw.
    edestruct atari_reset_history as (obs & _ & [Hs _] & _);
      [exact Hreset | exact Hsim | exact Hraw | exact HH |].
    pose proof Hreset as Hinv. apply atari_reset_inv in Hinv.
    destruct Hinv as (? & ? & ? & _ & _ & _ & Hc & _).
    split; [exact Hs|]. rewrite Hs. apply Hiff. exact Hc.
  - intros now action e' files t old a sim raw r d Hstep Hold Hso Hitem Hsim Hraw.
    edestruct atari_step_history as (obs & _ & _ & [Hs _] & _);
      [exact Hstep | exact HH | exact Hold | exact Hso
      | exact Hitem | exact Hsim | exact Hraw |].
    pose proof Hstep as Hinv. apply atari_step_inv in Hinv.
    destruct Hinv as (? & ? & ? & ? & ? & ? & ? & ? & ? & _ & _ & _ & _ & _ & _ & _
                      & Hc & _).
    split; [exact Hs|]. rewrite Hs. apply Hiff. exact Hc.
Qed.

End AtariObsSpace.

(** Two grayscale history frames.  With [img_size = (2, 2)] the declared
    shape is the shape of the reset state; with [img_size = (2, 3)] the
    frames are still 2 x 2 and the declared width 3 is wrong. *)
Lemma atari_obs_space_is_state_shape_witness :
  let S := Toy.atari true false 4 in
  let e := Toy.atari_env true false 2 None in
  let e1 := match Atari.init S (3, 0%Z) (2, 3) 4 2 None false true with
            | Ok e1 => e1
            | Err _ => e
            end in
  (exists e' t,
     Atari.reset e = Ok (e', t) /\
     shape (state t) = [2; 2; 2] /\
     Atari.obs_space e' = [("image"%string, shape (state t), torch_uint8)]) /\
  (exists e' t,
     Atari.init S (3, 0%Z) (2, 3) 4 2 None false true = Ok e1 /\
     Atari.reset e1 = Ok (e', t) /\
     shape (state t) = [2; 2; 2] /\
     Atari.obs_space e' = [("image"%string, [2; 2; 3], torch_uint8)] /\
     (Atari.obs_space e' = [("image"%string, shape (state t), torch_uint8)] <-> 3 = 2)).
Proof.
  cbv zeta. split.
  - eexists _, _. split; [vm_compute; reflexivity|].
    assert (HH : (1 <= 2)%Z) by lia.
    destruct (proj1 (@atari_obs_space_is_state_shape Toy.str_float (Toy.atari true false 4)
                       (Toy.atari_env true false 2 None) HH)
                _ _ (3, 0%Z) (Toy.frame true 0) eq_refl eq_refl (conj eq_refl eq_refl))
      as [Hs Hiff].
    split; [exact Hs|]. apply Hiff. reflexivity.
  - eexists _, _. split; [reflexivity|]. split; [vm_compute; reflexivity|].
    assert (HH : (1 <= 2)%Z) by lia.
    destruct (proj1 (@atari_obs_space_is_state_shape Toy.str_float (Toy.atari true false 4)
                       (match Atari.init (Toy.atari true false 4) (3, 0%Z) (2, 3) 4 2
                                None false true with
                        | Ok e1 => e1
                        | Err _ => Toy.atari_env true false 2 None
                        end) HH)
                _ _ (3, 0%Z) (Toy.frame true 0) eq_refl eq_refl (conj eq_refl eq_refl))
      as [Hs Hiff].
    split; [exact Hs|]. split; [reflexivity | exact Hiff].
Defined.

Section AtariRolloutFacts.
Import Atari.
Variable str_float : float -> string.
Variable S : Simulator.

(** A run of [step]s against the simulator, from any score. *)
Lemma atari_rollout_mirror (calls : list (string * tensor pynumber)) :
  forall (e e2 : AtariEnv S) outs score,
    episode_score e = Some score ->
    atari_rollout str_float e calls = Ok (e2, outs) ->
    exists acts trace,
      comprehension (@item pynumber) (map snd calls) = Ok acts /\
      atari_sim_rollout S (env e) acts = Ok (env e2, trace) /\
      map (fun o => reward (snd o)) outs
        = map (fun x => to_float32 (snd (fst x))) trace /\
      map (fun o => done (snd o)) outs
        = map (fun x => bool_float32 (snd x)) trace /\
      episode_score e2
        = Some (fold_left PrimFloat.add (map (fun x => snd (fst x)) trace) score).
Proof.
  induction calls as [|[now action] calls IH]; simpl; intros e e2 outs score Hscore H.
  - injection H as <- <-. exists [], []. simpl. auto.
  - inv_bind H as r1 Hstep. destruct r1 as [[e1 files] t].
    inv_bind H as r2 Hrest. destruct r2 as [e2' outs']. injection H as <- <-.
    apply atari_step_inv in Hstep.
    destruct Hstep as (a & sim & raw & r & d & score' & v & p & obs & Hitem & Hsim
                       & Hscore' & _ & _ & _ & _ & _ & Henv & _ & Hscore1 & Hr & Hd & _).
    rewrite Hscore in Hscore'. injection Hscore' as <-.
    destruct (IH _ _ _ _ Hscore1 Hrest) as (acts & trace & Hacts & Htrace & Hrs & Hds & Hsum).
    exists (a :: acts), ((raw, r, d) :: trace). simpl.
    rewrite Hitem. simpl. rewrite Hacts. simpl.
    rewrite Hsim. simpl. rewrite <- Henv, Htrace. simpl.
    rewrite Hr, Hd, Hrs, Hds. auto.
Qed.

(** X12.  Over any run of successful Atari [step]s after a [reset] the
    adapter is transparent: the simulator receives [action.item()] of each
    call, in order; the rewards and [done] flags returned are the
    simulator's, as float32; and [episode_score] ends as the sum of the
    simulator's rewards, added in order from 0.0. *)
Theorem atari_rollout_mirrors_simulator (e0 e1 e2 : AtariEnv S) t0 calls outs :
  reset e0 = Ok (e1, t0) ->
  atari_rollout str_float e1 calls = Ok (e2, outs) ->
  exists acts trace,
    comprehension (@item pynumber) (map snd calls) = Ok acts /\
    atari_sim_rollout S (env e1) acts = Ok (env e2, trace) /\
    map (fun o => reward (snd o)) outs
      = map (fun x => to_float32 (snd (fst x))) trace /\
    map (fun o => done (snd o)) outs
      = map (fun x => bool_float32 (snd x)) trace /\
    episode_score e2
      = Some (fold_left PrimFloat.add (map (fun x => snd (fst x)) trace) 0%float).
Proof.
  intros Hreset Hroll. apply atari_reset_inv in Hreset.
  destruct Hreset as (sim & raw & obs & _ & _ & _ & _ & _ & _ & Hscore & _).
  eapply atari_rollout_mirror; eassumption.
Qed.

(** What one recorded [step] does to the buffers. *)
Lemma atari_step_recording now (e e' : AtariEnv S) action files t path fs ps :
  episode_saving_path (config e) = Some path ->
  episode_video e = Some (Frames fs) ->
  episode_video_pre e = Some (Frames ps) ->
  step str_float now e action = Ok (e', files, t) ->
  config e' = config e /\
  exists image raw,
    (files = [] /\
     episode_video e' = Some (Frames (fs ++ [image])) /\
     episode_video_pre e' = Some (Frames (ps ++ [raw]))) \/
    (files <> [] /\
     exists v p p3,
       stack0 (fs ++ [image]) = Ok v /\ stack0 (ps ++ [raw]) = Ok p /\
       (if grayscale_obs (config e) then gray_to_rgb p else Ok p) = Ok p3 /\
       map video_array files = [v; p3] /\
       episode_video e' = Some (Stacked v) /\
       episode_video_pre e' = Some (Stacked p)).
Proof.
  intros Hp Hv Hpre H. apply atari_step_inv in H.
  destruct H as (a & sim & raw & r & d & score & v1 & p1 & obs & _ & _ & _ & Hadd
                 & Hsave & _ & _ & Hc & _).
  split; [exact Hc|].
  eapply atari_add_to_video_inv in Hadd; [|exact Hp].
  destruct Hadd as (fs' & ps' & Hfs & Hps & -> & ->).
  rewrite Hv in Hfs. injection Hfs as <-. rewrite Hpre in Hps. injection Hps as <-.
  exists (sim_get_image S sim), raw.
  destruct d.
  - right. eapply atari_save_if_done_inv in Hsave; [|exact Hp].
    destruct Hsave as (fs' & ps' & v & p & p3 & Hfs & Hps & Hsv & Hsp & Hp3 & Hn
                       & Harr & Hv2 & Hp2).
    injection Hfs as <-. injection Hps as <-.
    split; [destruct files; [discriminate Hn | discriminate]|].
    exists v, p, p3. auto 10.
  - left. unfold save_if_done in Hsave. simpl in Hsave.
    injection Hsave as <- <- <-. auto.
Qed.

(** The first dimension of a stack counts the frames. *)
Lemma stack0_frames {A} (l : list (tensor A)) (t : tensor A) :
  stack0 l = Ok t -> hd_error (shape t) = Some (length l).
Proof.
  intros H. apply stack0_inv in H. destruct H as (u & s & _ & _ & _ & ->).
  reflexivity.
Qed.

(** A recorded run whose last call alone writes files, from buffers of any
    length. *)
Lemma atari_rollout_recording (calls : list (string * tensor pynumber)) :
  forall (e e2 : AtariEnv S) path fs ps front files t,
    episode_saving_path (config e) = Some path ->
    episode_video e = Some (Frames fs) ->
    episode_video_pre e = Some (Frames ps) ->
    atari_rollout str_float e calls = Ok (e2, front ++ [(files, t)]) ->
    Forall (fun o => fst o = []) front ->
    files <> [] ->
    exists v p p3,
      map video_array files = [v; p3] /\
      (if grayscale_obs (config e) then gray_to_rgb p else Ok p) = Ok p3 /\
      hd_error (shape v) = Some (length fs + length calls) /\
      hd_error (shape p) = Some (length ps + length calls) /\
      episode_video e2 = Some (Stacked v) /\
      episode_video_pre e2 = Some (Stacked p).
Proof.
  induction calls as [|[now action] calls IH]; simpl;
    intros e e2 path fs ps front files t Hp Hv Hpre H Hfront Hfiles.
  - injection H as _ H. destruct front; discriminate.
  - inv_bind H as r1 Hstep. destruct r1 as [[e1 files1] t1].
    inv_bind H as r2 Hrest. destruct r2 as [e2' outs']. injection H as <- Houts.
    pose proof Hstep as Hrec.
    eapply atari_step_recording in Hrec; [|exact Hp|exact Hv|exact Hpre].
    destruct Hrec
      as (Hc & image & raw & [(-> & Hv1 & Hp1)|(Hne & v & p & p3 & Hsv & Hsp & Hp3 & Harr & Hv1 & Hp1)]).
    + destruct front as [|o front'].
      * simpl in Houts. injection Houts as <- _ _. congruence.
      * simpl in Houts. injection Houts as _ ->.
        inversion Hfront as [|? ? _ Hfront']; subst.
        rewrite <- Hc in Hp.
        destruct (IH _ _ _ _ _ _ _ _ Hp Hv1 Hp1 Hrest Hfront' Hfiles)
          as (v & p & p3 & Harr & Hp3 & Hsv & Hsp & Hv2 & Hp2).
        exists v, p, p3. rewrite Hc in Hp3.
        rewrite !length_app in *. simpl in *.
        repeat split; auto; rewrite ?Hsv, ?Hsp; f_equal; lia.
    + destruct front as [|o front'].
      * simpl in Houts. injection Houts as <- <- Hnil.
        destruct calls; [|simpl in Hrest].
        -- simpl in Hrest. injection Hrest as <- _.
           exists v, p, p3.
           apply stack0_frames in Hsv, Hsp. rewrite length_app in *. simpl in *.
           repeat split; auto.
        -- symmetry in Hnil. destruct p0 as [now' action'].
           inv_bind Hrest as r3 Hstep3. destruct r3 as [[e3 f3] t3].
           inv_bind Hrest as r4 Hrest4. destruct r4 as [e4 outs4].
           injection Hrest as _ Hcontra. subst outs'. discriminate.
      * simpl in Houts. injection Houts as <- _.
        inversion Hfront as [|? ? Hempty _]; subst. simpl in Hempty. congruence.
Qed.

End AtariRolloutFacts.

(** Two steps of the toy game: the adapter's rewards, flags and score are
    the simulator's. *)
Lemma atari_rollout_mirrors_simulator_witness :
  let S := Toy.atari true false 4 in
  let e0 := Toy.atari_env true false 2 None in
  let calls := [("t1"%string, Tensor [] [PyInt 0]); ("t2"%string, Tensor [] [PyInt 1])] in
  exists e1 t0 e2 outs,
    Atari.reset e0 = Ok (e1, t0) /\
    atari_rollout Toy.str_float e1 calls = Ok (e2, outs) /\
    map (fun o => reward (snd o)) outs = [1%float; 1%float] /\
    exists acts trace,
      comprehension (@item pynumber) (map snd calls) = Ok acts /\
      atari_sim_rollout S (Atari.env e1) acts = Ok (Atari.env e2, trace) /\
      map (fun o => reward (snd o)) outs
        = map (fun x => to_float32 (snd (fst x))) trace /\
      map (fun o => done (snd o)) outs
        = map (fun x => bool_float32 (snd x)) trace /\
      Atari.episode_score e2
        = Some (fold_left PrimFloat.add (map (fun x => snd (fst x)) trace) 0%float).
Proof.
  cbv zeta. eexists _, _, _, _.
  split; [vm_compute; reflexivity|].
  split; [vm_compute; reflexivity|].
  split; [vm_compute; reflexivity|].
  eapply (@atari_rollout_mirrors_simulator Toy.str_float (Toy.atari true false 4)
            (Toy.atari_env true false 2 None)).
  - vm_compute. reflexivity.
  - vm_compute. reflexivity.
Defined.

Section AtariEpisode.
Import Atari.
Variable str_float : float -> string.
Variable S : Simulator.

(** X13.  A recorded Atari episode of [n] steps (a [reset], then [n]
    calls of which only the last one writes files) is saved as two videos
    of [n] frames each. *)
Theorem atari_episode_video_length (e0 e1 e2 : AtariEnv S) t0 calls front files t path :
  reset e0 = Ok (e1, t0) ->
  episode_saving_path (config e0) = Some path ->
  atari_rollout str_float e1 calls = Ok (e2, front ++ [(files, t)]) ->
  Forall (fun o => fst o = []) front ->
  files <> [] ->
  exists v p p3,
    map video_array files = [v; p3] /\
    (if grayscale_obs (config e0) then gray_to_rgb p else Ok p) = Ok p3 /\
    hd_error (shape v) = Some (length calls) /\
    hd_error (shape p) = Some (length calls).
Proof.
  intros Hreset Hp Hroll Hfront Hfiles.
  apply atari_reset_inv in Hreset.
  destruct Hreset as (sim & raw & obs & _ & _ & _ & Hc & _ & _ & _ & _ & _ & _ & _ & Hvid).
  rewrite Hp in Hvid. destruct Hvid as [Hv Hpre]. rewrite <- Hc in Hp.
  eapply atari_rollout_recording in Hroll; [|exact Hp|exact Hv|exact Hpre|exact Hfront|exact Hfiles].
  destruct Hroll as (v & p & p3 & Harr & Hp3 & Hsv & Hsp & _).
  exists v, p, p3. rewrite Hc in Hp3. simpl in Hsv, Hsp. auto.
Qed.

End AtariEpisode.

(** A whole game of three lives, recorded: three frames in each video. *)
Lemma atari_episode_video_length_witness :
  let e0 := Toy.atari_env true false 2 (Some "videos"%string) in
  let calls := [("t1"%string, Tensor [] [PyInt 0]); ("t2"%string, Tensor [] [PyInt 1]);
                ("t3"%string, Tensor [] [PyInt 2])] in
  exists e1 t0 e2 o1 o2 files t,
    Atari.reset e0 = Ok (e1, t0) /\
    atari_rollout Toy.str_float e1 calls = Ok (e2, [o1; o2] ++ [(files, t)]) /\
    fst o1 = [] /\ fst o2 = [] /\ length files = 2 /\
    exists v p p3,
      map video_array files = [v; p3] /\
      (if Atari.grayscale_obs (Atari.config e0) then gray_to_rgb p else Ok p) = Ok p3 /\
      hd_error (shape v) = Some 3 /\
      hd_error (shape p) = Some 3.
Proof.
  cbv zeta. eexists _, _, _, _, _, _, _.
  split; [vm_compute; reflexivity|].
  split; [vm_compute; reflexivity|].
  split; [reflexivity|]. split; [reflexivity|]. split; [reflexivity|].
  eapply (@atari_episode_video_length Toy.str_float (Toy.atari true false 4)
            (Toy.atari_env true false 2 (Some "videos"%string)) _ _ _
            [("t1"%string, Tensor [] [PyInt 0]); ("t2"%string, Tensor [] [PyInt 1]);
             ("t3"%string, Tensor [] [PyInt 2])]
            [_; _]).
  - vm_compute. reflexivity.
  - reflexivity.
  - vm_compute. reflexivity.
  - repeat constructor.
  - discriminate.
Defined.

(** ** When an Atari [step] succeeds *)

Section AtariProgress.
Import Atari.
Variable str_float : float -> string.
Variable S : Simulator.
Variable c : Config.
Variables h w : nat.

Hypothesis reset_frames :
  forall s s' raw, sim_reset S s = Ok (s', raw) -> has_shape (raw_shape c h w) raw.
Hypothesis step_frames :
  forall s a s' raw r d,
    sim_step S s a = Ok (s', (raw, r, d)) -> has_shape (raw_shape c h w) raw.
Hypothesis one_frame : (1 <= history_frames c)%Z.

(** After a [reset] the score exists. *)
Lemma atari_running_score (e : AtariEnv S) :
  running str_float c e -> exists score, episode_score e = Some score.
Proof.
  intros [e0 e' t _ Hreset | now e0 action e' files t _ Hstep].
  - apply atari_reset_inv in Hreset.
    destruct Hreset as (sim & raw & obs & _ & _ & _ & _ & _ & _ & Hs & _). eauto.
  - apply atari_step_inv in Hstep.
    destruct Hstep as (a & sim & raw & r & d & score & v & p & obs & _ & _ & _ & _ & _
                       & _ & _ & _ & _ & _ & Hs & _). eauto.
Qed.

(** A frame of the configured shape can be brought to channels-first. *)
Lemma to_chw_ok (raw : tensor uint8) :
  has_shape (raw_shape c h w) raw ->
  exists obs, to_chw c raw = Ok obs /\ has_shape [channels c; h; w] obs.
Proof.
  intros Hraw.
  assert (exists obs, to_chw c raw = Ok obs) as [obs Hobs].
  { unfold to_chw, raw_shape in *. destruct Hraw as [Hs _].
    destruct (grayscale_obs c); [eauto|].
    unfold permute201. rewrite Hs. eauto. }
  exists obs. split; [exact Hobs|]. eapply atari_to_chw_image; eassumption.
Qed.

(** X14.  Without recording, and on a simulator whose frames all have
    the configured shape, a [step] of the Atari adapter at any time after a
    [reset] succeeds exactly when the action holds one element and the
    simulator accepts it; it writes no file. *)
Theorem atari_step_succeeds now (e : AtariEnv S) (action : tensor pynumber) :
  running str_float c e ->
  episode_saving_path c = None ->
  (exists e' t, step str_float now e action = Ok (e', [], t)) <->
  (exists a sim out, item action = Ok a /\ sim_step S (env e) a = Ok (sim, out)).
Proof.
  intros Hrun Hpath. split.
  - intros (e' & t & H). apply atari_step_inv in H.
    destruct H as (a & sim & raw & r & d & score & v & p & obs & Hitem & Hsim & _).
    eauto.
  - intros (a & sim & [[raw r] d] & Hitem & Hsim).
    pose proof Hrun as Hinv.
    eapply atari_running_history in Hinv;
      [|exact reset_frames|exact step_frames|exact one_frame].
    destruct Hinv as (Hc & hist & Hh & Hsh & Hwf).
    destruct (atari_running_score Hrun) as (score & Hscore).
    destruct (to_chw_ok (step_frames _ _ Hsim)) as (obs & Hobs & Hso & Hwo).
    unfold step. rewrite Hitem. cbn [bind]. rewrite Hsim. cbn [bind].
    rewrite Hscore. cbn [bind attr].
    unfold add_to_video, save_if_done. rewrite Hc, Hpath. cbn [bind].
    assert (Hshift : exists hist', shift_history c (Some hist) obs = Ok hist').
    { unfold shift_history. destruct (1 <? history_frames c)%Z; [|eauto].
      cbn [bind attr]. unfold from0. rewrite Hsh. cbn [bind].
      unfold cat0. cbn [shape]. rewrite Hso, shape_eqb_refl. eauto. }
    destruct Hshift as (hist' & Hshift).
    destruct d; cbn [bind]; unfold preprocess; cbn [config env]; rewrite Hobs;
      cbn [bind]; rewrite Hh, Hshift; cbn [bind]; eauto.
Qed.

End AtariProgress.

(** On the toy game every frame is a 2 x 2 grayscale image, so a reset
    adapter that does not record steps exactly when the game does. *)
Lemma atari_step_succeeds_witness :
  let S := Toy.atari true false 4 in
  let e := Toy.atari_started (Toy.atari_env true false 2 None) in
  let action := Tensor [] [PyInt 0] in
  (exists e' t, Atari.step Toy.str_float "t" e action = Ok (e', [], t)) <->
  (exists a sim out, item action = Ok a /\ Atari.sim_step S (Atari.env e) a = Ok (sim, out)).
Proof.
  cbv zeta.
  apply (@atari_step_succeeds Toy.str_float (Toy.atari true false 4)
           (Atari.config (Toy.atari_env true false 2 None)) 2 2).
  - intros s s' raw H. simpl in H. injection H as _ <-. split; reflexivity.
  - intros s a s' raw r d H. simpl in H. destruct a as [k|x]; [|discriminate].
    destruct ((0 <=? k) && (k <? 4))%Z; [|discriminate].
    injection H as _ <- _ _. split; reflexivity.
  - simpl. lia.
  - eapply Atari.run_reset with (e := Toy.atari_env true false 2 None);
      [reflexivity | vm_compute; reflexivity].
  - reflexivity.
Defined.

(** ** Permuting axes back and forth *)

(** Consecutive numbers from [b]. *)
Lemma map_add_seq (b c : nat) : map (fun k => b + k) (seq 0 c) = seq b c.
Proof.
  revert b; induction c as [|c IH]; intros b; [reflexivity|].
  simpl. f_equal; [lia|].
  rewrite <- seq_shift, map_map.
  rewrite <- (IH (S b)). apply map_ext. intros k. lia.
Qed.

(** Consecutive blocks of consecutive numbers. *)
Lemma flat_map_seq_blocks (b c w : nat) :
  forall s, flat_map (fun j => seq (b + j * c) c) (seq s w) = seq (b + s * c) (w * c).
Proof.
  induction w as [|w IH]; intros s; [reflexivity|].
  simpl. rewrite IH, seq_app. do 2 f_equal. lia.
Qed.

Lemma flat_map_flat_map' {X Y Z} (f : X -> list Y) (g : Y -> list Z) (l : list X) :
  flat_map g (flat_map f l) = flat_map (fun x => flat_map g (f x)) l.
Proof.
  induction l as [|x l IH]; simpl; [reflexivity|].
  now rewrite flat_map_app, IH.
Qed.

Lemma flat_map_map' {X Y Z} (f : X -> Y) (g : Y -> list Z) (l : list X) :
  flat_map g (map f l) = flat_map (fun x => g (f x)) l.
Proof. induction l as [|x l IH]; simpl; [reflexivity|]. now rewrite IH. Qed.

Lemma flat_map_ext_in' {X Y} (f g : X -> list Y) (l : list X) :
  (forall x, In x l -> f x = g x) -> flat_map f l = flat_map g l.
Proof.
  induction l as [|x l IH]; simpl; intros H; [reflexivity|].
  rewrite H by (left; reflexivity). f_equal. apply IH. intros y Hy. apply H. now right.
Qed.

Lemma flat_map_singleton {X Y} (f : X -> Y) (l : list X) :
  flat_map (fun x => [f x]) l = map f l.
Proof. induction l as [|x l IH]; simpl; [reflexivity|]. now rewrite IH. Qed.

Section Gather.
Variable A : Type.

(** Gathering every position in order gives the list back. *)
Lemma gather_all (d pre : list A) :
  gather (pre ++ d) (seq (length pre) (length d)) = d.
Proof.
  revert pre; induction d as [|x d IH]; intros pre; [reflexivity|].
  simpl. unfold gather in *. simpl.
  rewrite nth_error_app2, Nat.sub_diag by lia. simpl. f_equal.
  specialize (IH (pre ++ [x])). rewrite <- app_assoc, length_app in IH.
  simpl in IH. rewrite Nat.add_1_r in IH. exact IH.
Qed.

(** The [p]-th gathered element, for indices in range. *)
Lemma gather_nth (d : list A) (idx : list nat) :
  Forall (fun i => i < length d) idx ->
  forall p, nth_error (gather d idx) p
            = match nth_error idx p with
              | Some i => nth_error d i
              | None => None
              end.
Proof.
  induction 1 as [|i idx Hi Hall IH]; intros p.
  - destruct p; reflexivity.
  - unfold gather in *. simpl.
    destruct (nth_error d i) as [x|] eqn:E;
      [|apply nth_error_None in E; lia].
    destruct p as [|p]; simpl; [now rewrite E|]. apply IH.
Qed.

End Gather.

(** Gathering twice is gathering through the gathered indices. *)
Lemma gather_gather {A} (d : list A) (idx1 idx2 : list nat) :
  Forall (fun i => i < length d) idx1 ->
  gather (gather d idx1) idx2 = gather d (gather idx1 idx2).
Proof.
  intros Hall. unfold gather at 1 3.
  unfold gather at 2. rewrite flat_map_flat_map'.
  apply flat_map_ext. intros q.
  rewrite gather_nth by exact Hall.
  destruct (nth_error idx1 q) as [i|]; simpl; [|reflexivity].
  now rewrite app_nil_r.
Qed.

(** Position [a * n + r] in blocks of length [n]. *)
Lemma nth_error_flat_map_blocks {X Y} (f : X -> list Y) (n : nat) (l : list X) :
  (forall x, In x l -> length (f x) = n) ->
  forall a r, r < n ->
    nth_error (flat_map f l) (a * n + r)
    = match nth_error l a with
      | Some x => nth_error (f x) r
      | None => None
      end.
Proof.
  induction l as [|x l IH]; intros Hlen a r Hr.
  - replace (nth_error (flat_map f []) (a * n + r)) with (@None Y)
      by (simpl; now destruct (a * n + r)).
    now destruct a.
  - simpl. destruct a as [|a]; simpl.
    + apply nth_error_app1. rewrite Hlen by (left; reflexivity). exact Hr.
    + rewrite nth_error_app2 by (rewrite Hlen by (left; reflexivity); lia).
      rewrite Hlen by (left; reflexivity).
      replace (n + a * n + r - n) with (a * n + r) by lia.
      apply IH; auto. intros y Hy. apply Hlen. now right.
Qed.

(** The index lists of the two permutations. *)
Lemma permute_indices_inverse (h w c : nat) :
  gather
    (flat_map (fun k =>
       flat_map (fun i => map (fun j => (i * w + j) * c + k) (seq 0 w)) (seq 0 h))
       (seq 0 c))
    (flat_map (fun i =>
       flat_map (fun j => map (fun k => (k * h + i) * w + j) (seq 0 c)) (seq 0 w))
       (seq 0 h))
  = seq 0 (h * w * c).
Proof.
  set (idx1 := flat_map _ (seq 0 c)).
  assert (Hnth : forall i j k, i < h -> j < w -> k < c ->
            nth_error idx1 ((k * h + i) * w + j) = Some ((i * w + j) * c + k)).
  { intros i j k Hi Hj Hk. unfold idx1.
    replace ((k * h + i) * w + j) with (k * (h * w) + (i * w + j)) by lia.
    rewrite nth_error_flat_map_blocks with (n := h * w).
    - rewrite nth_error_seq. destruct (Nat.ltb_spec k c) as [_|]; [|lia].
      rewrite nth_error_flat_map_blocks with (n := w).
      + rewrite nth_error_seq. destruct (Nat.ltb_spec i h) as [_|]; [|lia].
        rewrite nth_error_map, nth_error_seq.
        destruct (Nat.ltb_spec j w) as [_|]; [|lia]. reflexivity.
      + intros x _. now rewrite length_map, length_seq.
      + exact Hj.
    - intros x _. rewrite length_flat_map_const with (n := w).
      + now rewrite length_seq.
      + intros y _. now rewrite length_map, length_seq.
    - nia. }
  clearbody idx1. unfold gather. rewrite flat_map_flat_map'.
  transitivity (flat_map (fun i => seq (0 + i * (w * c)) (w * c)) (seq 0 h)).
  - apply flat_map_ext_in'. intros i Hi. apply in_seq in Hi.
    rewrite flat_map_flat_map'.
    transitivity (flat_map (fun j => seq (i * (w * c) + j * c) c) (seq 0 w)).
    + apply flat_map_ext_in'. intros j Hj. apply in_seq in Hj.
      rewrite flat_map_map'.
      transitivity (flat_map (fun k => [(i * w + j) * c + k]) (seq 0 c)).
      * apply flat_map_ext_in'. intros k Hk. apply in_seq in Hk.
        rewrite Hnth by lia. reflexivity.
      * rewrite flat_map_singleton, map_add_seq. f_equal. lia.
    + rewrite flat_map_seq_blocks. f_equal. lia.
  - rewrite flat_map_seq_blocks. f_equal. lia.
Qed.

Lemma permute_indices_inverse' (h w c : nat) :
  gather
    (flat_map (fun i =>
       flat_map (fun j => map (fun k => (k * h + i) * w + j) (seq 0 c)) (seq 0 w))
       (seq 0 h))
    (flat_map (fun k =>
       flat_map (fun i => map (fun j => (i * w + j) * c + k) (seq 0 w)) (seq 0 h))
       (seq 0 c))
  = seq 0 (c * h * w).
Proof.
  set (idx2 := flat_map _ (seq 0 h)).
  assert (Hnth : forall i j k, i < h -> j < w -> k < c ->
            nth_error idx2 ((i * w + j) * c + k) = Some ((k * h + i) * w + j)).
  { intros i j k Hi Hj Hk. unfold idx2.
    replace ((i * w + j) * c + k) with (i * (w * c) + (j * c + k)) by lia.
    rewrite nth_error_flat_map_blocks with (n := w * c).
    - rewrite nth_error_seq. destruct (Nat.ltb_spec i h) as [_|]; [|lia].
      rewrite nth_error_flat_map_blocks with (n := c).
      + rewrite nth_error_seq. destruct (Nat.ltb_spec j w) as [_|]; [|lia].
        rewrite nth_error_map, nth_error_seq.
        destruct (Nat.ltb_spec k c) as [_|]; [|lia]. reflexivity.
      + intros x _. now rewrite length_map, length_seq.
      + exact Hk.
    - intros x _. rewrite length_flat_map_const with (n := c).
      + now rewrite length_seq.
      + intros y _. now rewrite length_map, length_seq.
    - nia. }
  clearbody idx2. unfold gather. rewrite flat_map_flat_map'.
  transitivity (flat_map (fun k => seq (0 + k * (h * w)) (h * w)) (seq 0 c)).
  - apply flat_map_ext_in'. intros k Hk. apply in_seq in Hk.
    rewrite flat_map_flat_map'.
    transitivity (flat_map (fun i => seq (k * (h * w) + i * w) w) (seq 0 h)).
    + apply flat_map_ext_in'. intros i Hi. apply in_seq in Hi.
      rewrite flat_map_map'.
      transitivity (flat_map (fun j => [(k * h + i) * w + j]) (seq 0 w)).
      * apply flat_map_ext_in'. intros j Hj. apply in_seq in Hj.
        rewrite Hnth by lia. reflexivity.
      * rewrite flat_map_singleton, map_add_seq. f_equal. lia.
    + rewrite flat_map_seq_blocks. f_equal. lia.
  - rewrite flat_map_seq_blocks. f_equal. lia.
Qed.

(** [permute(1, 2, 0)] after [permute(2, 0, 1)]. *)
Lemma permute201_permute120 {A} (t u : tensor A) :
  wf t ->
  permute201 t = Ok u ->
  permute120 u = Ok t.
Proof.
  intros Hwf H. unfold permute201 in H.
  destruct t as [s d]. simpl in *.
  destruct s as [|h [|w [|c [|x s]]]]; try discriminate.
  injection H as <-. unfold permute120. simpl.
  unfold wf in Hwf. simpl in Hwf.
  rewrite gather_gather.
  - rewrite permute_indices_inverse.
    replace (h * w * c) with (length d) by lia.
    f_equal. f_equal. exact (gather_all d []).
  - rewrite Forall_flat_map. apply Forall_forall. intros k Hk.
    rewrite Forall_flat_map. apply Forall_forall. intros i Hi.
    rewrite Forall_map. apply Forall_forall. intros j Hj.
    apply in_seq in Hk, Hi, Hj. rewrite Hwf.
    assert (H1 : i * w + j + 1 <= h * w) by nia.
    assert (H2 : (i * w + j + 1) * c <= h * w * c)
      by (apply Nat.mul_le_mono_r; exact H1).
    replace (h * (w * (c * 1))) with (h * w * c) by lia.
    lia.
Qed.

(** [permute(2, 0, 1)] after [permute(1, 2, 0)]. *)
Lemma permute120_permute201 {A} (t u : tensor A) :
  wf t ->
  permute120 t = Ok u ->
  permute201 u = Ok t.
Proof.
  intros Hwf H. unfold permute120 in H.
  destruct t as [s d]. simpl in *.
  destruct s as [|c [|h [|w [|x s]]]]; try discriminate.
  injection H as <-. unfold permute201. simpl.
  unfold wf in Hwf. simpl in Hwf.
  rewrite gather_gather.
  - rewrite permute_indices_inverse'.
    replace (c * h * w) with (length d) by lia.
    f_equal. f_equal. exact (gather_all d []).
  - rewrite Forall_flat_map. apply Forall_forall. intros i Hi.
    rewrite Forall_flat_map. apply Forall_forall. intros j Hj.
    rewrite Forall_map. apply Forall_forall. intros k Hk.
    apply in_seq in Hk, Hi, Hj. rewrite Hwf.
    assert (H1 : k * h + i + 1 <= c * h) by nia.
    assert (H2 : (k * h + i + 1) * w <= c * h * w)
      by (apply Nat.mul_le_mono_r; exact H1).
    replace (c * (h * (w * 1))) with (c * h * w) by lia.
    lia.
Qed.

(** X7.  The two axis permutations of the adapters are inverse to each
    other on well-formed tensors: [permute(1, 2, 0)] undoes
    [permute(2, 0, 1)], and the other way around. *)
Theorem permute_round_trip {A} (t : tensor A) :
  wf t ->
  (forall u, permute201 t = Ok u -> permute120 u = Ok t) /\
  (forall u, permute120 t = Ok u -> permute201 u = Ok t).
Proof.
  intros Hwf. split; intros u H.
  - exact (permute201_permute120 Hwf H).
  - exact (permute120_permute201 Hwf H).
Qed.

(** A 1 x 2 image of three channels. *)
Lemma permute_round_trip_witness :
  let t := Tensor [1; 2; 3] [1%Z; 2%Z; 3%Z; 4%Z; 5%Z; 6%Z] in
  wf t /\
  permute201 t = Ok (Tensor [3; 1; 2] [1%Z; 4%Z; 2%Z; 5%Z; 3%Z; 6%Z]) /\
  (forall u, permute201 t = Ok u -> permute120 u = Ok t) /\
  (forall u, permute120 t = Ok u -> permute201 u = Ok t).
Proof.
  cbv zeta. split; [reflexivity|]. split; [reflexivity|].
  apply (@permute_round_trip Z (Tensor [1; 2; 3] [1%Z; 2%Z; 3%Z; 4%Z; 5%Z; 6%Z])).
  reflexivity.
Defined.

(** ** The continuous-control adapter over whole runs *)

Section DmcMore.
Import DMC.
Variable str_float : float -> string.
Variable S : Simulator.

(** A loop followed by a failing block fails. *)
Lemma for_range_is_ok_false_after {X Y} (n : nat) (body : X -> result X) (x : X)
    (k : X -> result Y) :
  (forall x', is_ok (k x') = false) ->
  is_ok (l <- for_range n body x ;; k l) = false.
Proof.
  intros Hk. destruct (for_range n body x); simpl; auto.
Qed.

(** X15.  [step] on a continuous-control adapter that was never [reset]
    fails, whatever the configuration, the simulator and the action. *)
Theorem dmc_step_before_reset (c : Config) (sim : physics S) now action :
  is_ok (step str_float now (make S c sim) action) = false.
Proof.
  unfold step. simpl.
  destruct (num_actions c) as [n|]; simpl; [|reflexivity].
  destruct (shape_eqb (shape action) [n]); simpl; [|reflexivity].
  apply for_range_is_ok_false_after. reflexivity.
Qed.

(** The two outcomes of the "Save Episode" block. *)
Lemma dmc_save_if_done_files (c : Config) now d score v p v' p' files :
  save_if_done str_float c now d score v p = Ok (v', p', files) ->
  (files = [] /\ v' = v /\ p' = p /\ (d = false \/ episode_saving_path c = None)) \/
  (length files = 2 /\ d = true /\ exists path sv sp,
      episode_saving_path c = Some path /\
      v' = Some (Stacked sv) /\ p' = Some (Stacked sp) /\
      map video_array files = [sv; sp]).
Proof.
  destruct d.
  - destruct (episode_saving_path c) as [path|] eqn:Hp.
    + intros H. right.
      eapply dmc_save_if_done_inv in H; [|exact Hp].
      destruct H as (fs & ps & sv & sp & _ & _ & _ & _ & Hn & Harr & -> & ->).
      split; [|split; [reflexivity|exists path, sv, sp; auto]].
      rewrite <- (length_map filename), Hn. reflexivity.
    + unfold save_if_done. rewrite Hp.
      intros H. injection H as <- <- <-. left. auto.
  - unfold save_if_done. intros H. left.
    destruct (episode_saving_path c); injection H as <- <- <-; auto.
Qed.

(** X16.  A continuous-control [step] writes files only when one of its
    sub-steps ended the episode with recording enabled, and then exactly
    two; in every other case it writes none.  (The [done] it returns does
    not tell: it is always 0.0.) *)
Theorem dmc_step_files now (e e' : DeepMindControlEnv S) action files t trace :
  step str_float now e action = Ok (e', files, t) ->
  sim_steps S (Z.to_nat (action_repeat (config e))) (env e)
    (tolist (clip (clip_low (config e)) (clip_high (config e)) action)) = Ok trace ->
  (files = [] /\
   (existsb last trace = false \/ episode_saving_path (config e) = None)) \/
  (length files = 2 /\ existsb last trace = true /\
   episode_saving_path (config e) <> None).
Proof.
  intros H Htrace. apply dmc_step_inv in H.
  destruct H as (n & l & score & _ & _ & Hloop & _ & Hsave & _).
  apply loop_spec in Hloop.
  destruct Hloop as (trace' & rs & Htr & _ & _ & _ & Hor & _).
  cbn [l_env l_done] in Htr, Hor. rewrite Htrace in Htr. injection Htr as <-.
  simpl in Hor. rewrite Hor in Hsave.
  apply dmc_save_if_done_files in Hsave.
  destruct Hsave as [(-> & _ & _ & Hcase)|(Hlen & Hd & path & sv & sp & Hp & _)].
  - left. auto.
  - right. repeat split; auto. congruence.
Qed.

(** X17.  After the continuous-control [step] that saved an episode,
    every further [step] without a [reset] fails: the recording buffer is
    a tensor by then. *)
Theorem dmc_step_after_save_fails now (e e' : DeepMindControlEnv S) action files t :
  step str_float now e action = Ok (e', files, t) ->
  files <> [] ->
  forall now' action', is_ok (step str_float now' e' action') = false.
Proof.
  intros H Hfiles now' action'.
  pose proof H as Hinv. apply dmc_step_inv in Hinv.
  destruct Hinv as (n & l & score & Hn & _ & Hloop & _ & Hsave & Hshift & Hc & _).
  apply dmc_save_if_done_files in Hsave.
  destruct Hsave as [(-> & _)|(_ & Hd & path & sv & sp & Hp & Hv & Hpre & _)];
    [congruence|].
  (* the loop has run at least once *)
  assert (HR : Z.to_nat (action_repeat (config e)) <> 0).
  { intros HR. rewrite HR in Hloop. simpl in Hloop. injection Hloop as <-.
    discriminate. }
  unfold step. rewrite Hc, Hn. simpl.
  destruct (shape_eqb (shape action') [n]); simpl; [|reflexivity].
  destruct (Z.to_nat (action_repeat (config e))) as [|R]; [congruence|].
  simpl. unfold loop_body at 1. cbn [l_env l_video l_video_pre].
  destruct (sim_step S (env e') _) as [[sim infos]|]; simpl; [|reflexivity].
  destruct (process_infos infos) as [[[obs sr] sd]|]; simpl; [|reflexivity].
  unfold add_to_video. rewrite Hp, Hv. reflexivity.
Qed.

(** X18.  With [action_repeat <= 0] the loop of [step] never runs and
    [step] cannot succeed: on an adapter that has been reset and an action
    of the right shape it raises [UnboundLocalError] where [obs_pixels] is
    read after the loop. *)
Theorem dmc_step_needs_positive_repeat now (e : DeepMindControlEnv S) action :
  (action_repeat (config e) <= 0)%Z ->
  is_ok (step str_float now e action) = false /\
  forall n score h d rest,
    num_actions (config e) = Some n -> shape action = [n] ->
    episode_score e = Some score -> history e = Some h -> shape h = d :: rest ->
    step str_float now e action = Err UnboundLocalError.
Proof.
  intros HR. replace (Z.to_nat (action_repeat (config e))) with 0 by lia.
  unfold step. replace (Z.to_nat (action_repeat (config e))) with 0 by lia.
  split.
  - destruct (num_actions (config e)) as [n|]; simpl; [|reflexivity].
    destruct (shape_eqb (shape action) [n]); simpl; [|reflexivity].
    destruct (episode_score e); simpl; [|reflexivity].
    unfold shift_history.
    destruct (history e) as [h|]; simpl; [|reflexivity].
    destruct (from0 3 h); reflexivity.
  - intros n score h d rest Hn Hs Hscore Hh Hsh.
    rewrite Hn, Hs, Hscore. simpl. rewrite Nat.eqb_refl. simpl.
    unfold shift_history. rewrite Hh. simpl. unfold from0. rewrite Hsh. reflexivity.
Qed.

(** X19.  A continuous-control [step] succeeds only if every time step
    of its sub-steps carries a reward.  So it cannot succeed across an
    episode boundary, where the simulator hands out a first time step
    whose reward is [None]. *)
Theorem dmc_step_needs_rewards now (e e' : DeepMindControlEnv S) action files t trace :
  step str_float now e action = Ok (e', files, t) ->
  sim_steps S (Z.to_nat (action_repeat (config e))) (env e)
    (tolist (clip (clip_low (config e)) (clip_high (config e)) action)) = Ok trace ->
  Forall (fun infos => exists r, ts_reward infos = Some r) trace.
Proof.
  intros H Htrace. apply dmc_step_inv in H.
  destruct H as (n & l & score & _ & _ & Hloop & _).
  apply loop_spec in Hloop.
  destruct Hloop as (trace' & rs & Htr & _ & Hrs & _).
  cbn [l_env] in Htr. rewrite Htrace in Htr. injection Htr as <-.
  clear - Hrs. revert rs Hrs.
  induction trace as [|infos trace IH]; intros [|r rs] Hrs; try discriminate;
    constructor.
  - simpl in Hrs. injection Hrs as Hr _. eauto.
  - simpl in Hrs. injection Hrs as _ Hrs. eauto.
Qed.

End DmcMore.

(** The only step of a one-step episode, recorded: two files. *)
Lemma dmc_step_files_witness :
  let e := Toy.dmc_started (Toy.acrobot_env 1 1 1 (Some "videos"%string)) in
  let action := Tensor [1] [0%float] in
  exists e' files t trace,
    DMC.step Toy.str_float "t" e action = Ok (e', files, t) /\
    DMC.sim_steps (Toy.dmc 1) 1 (DMC.env e) (tolist (clip (-1) 1 action)) = Ok trace /\
    length files = 2 /\
    ((files = [] /\
      (existsb DMC.last trace = false \/
       DMC.episode_saving_path (DMC.config e) = None)) \/
     (length files = 2 /\ existsb DMC.last trace = true /\
      DMC.episode_saving_path (DMC.config e) <> None)).
Proof.
  cbv zeta. eexists _, _, _, _.
  split; [vm_compute; reflexivity|].
  split; [vm_compute; reflexivity|].
  split; [reflexivity|].
  eapply (@dmc_step_files Toy.str_float (Toy.dmc 1) "t"%string
            (Toy.dmc_started (Toy.acrobot_env 1 1 1 (Some "videos"%string)))
            _ (Tensor [1] [0%float])).
  - vm_compute. reflexivity.
  - vm_compute. reflexivity.
Defined.

(** After that step the adapter refuses every further step. *)
Lemma dmc_step_after_save_fails_witness :
  let e := Toy.dmc_started (Toy.acrobot_env 1 1 1 (Some "videos"%string)) in
  exists e' files t,
    DMC.step Toy.str_float "t" e (Tensor [1] [0%float]) = Ok (e', files, t) /\
    length files = 2 /\
    forall now' action', is_ok (DMC.step Toy.str_float now' e' action') = false.
Proof.
  cbv zeta. eexists _, _, _.
  split; [vm_compute; reflexivity|].
  split; [reflexivity|].
  eapply (@dmc_step_after_save_fails Toy.str_float (Toy.dmc 1) "t"%string
            (Toy.dmc_started (Toy.acrobot_env 1 1 1 (Some "videos"%string)))
            _ (Tensor [1] [0%float])).
  - vm_compute. reflexivity.
  - discriminate.
Defined.

(** [Acrobot(action_repeat=0)]: the loop body never runs. *)
Lemma dmc_step_needs_positive_repeat_witness :
  let e := Toy.dmc_started (Toy.acrobot_env 4 2 0 None) in
  let action := Tensor [1] [0%float] in
  (DMC.action_repeat (DMC.config e) <= 0)%Z /\
  DMC.step Toy.str_float "t" e action = Err UnboundLocalError /\
  is_ok (DMC.step Toy.str_float "t" e action) = false /\
  forall n score h d rest,
    DMC.num_actions (DMC.config e) = Some n -> shape action = [n] ->
    DMC.episode_score e = Some score -> DMC.history e = Some h -> shape h = d :: rest ->
    DMC.step Toy.str_float "t" e action = Err UnboundLocalError.
Proof.
  cbv zeta.
  split; [vm_compute; discriminate|].
  split; [vm_compute; reflexivity|].
  apply (@dmc_step_needs_positive_repeat Toy.str_float (Toy.dmc 4) "t"%string
           (Toy.dmc_started (Toy.acrobot_env 4 2 0 None)) (Tensor [1] [0%float])).
  vm_compute. discriminate.
Defined.

(** Two sub-steps inside an episode both carry a reward. *)
Lemma dmc_step_needs_rewards_witness :
  let e := Toy.dmc_started (Toy.acrobot_env 4 2 2 None) in
  let action := Tensor [1] [5%float] in
  exists e' files t trace,
    DMC.step Toy.str_float "t" e action = Ok (e', files, t) /\
    DMC.sim_steps (Toy.dmc 4) 2 (DMC.env e) (tolist (clip (-1) 1 action)) = Ok trace /\
    length trace = 2 /\
    Forall (fun infos => exists r, DMC.ts_reward infos = Some r) trace.
Proof.
  cbv zeta. eexists _, _, _, _.
  split; [vm_compute; reflexivity|].
  split; [vm_compute; reflexivity|].
  split; [reflexivity|].
  eapply (@dmc_step_needs_rewards Toy.str_float (Toy.dmc 4) "t"%string
            (Toy.dmc_started (Toy.acrobot_env 4 2 2 None))
            _ (Tensor [1] [5%float])).
  - vm_compute. reflexivity.
  - vm_compute. reflexivity.
Defined.

Section DmcRolloutFacts.
Import DMC.
Variable str_float : float -> string.
Variable S : Simulator.

(** A run of [step]s against the simulator, from any score. *)
Lemma dmc_rollout_mirror (calls : list (string * tensor float)) :
  forall (e e2 : DeepMindControlEnv S) outs score,
    episode_score e = Some score ->
    dmc_rollout str_float e calls = Ok (e2, outs) ->
    exists traces,
      dmc_sim_rollout S (Z.to_nat (action_repeat (config e))) (env e)
        (map (fun c => tolist (clip (clip_low (config e)) (clip_high (config e))
                                 (snd c))) calls)
        = Ok (env e2, traces) /\
      map (fun o => reward (snd o)) outs
        = map (fun tr => to_float32 (float_sum (trace_rewards tr))) traces /\
      episode_score e2
        = Some (fold_left PrimFloat.add
                  (map (fun tr => float_sum (trace_rewards tr)) traces) score).
Proof.
  induction calls as [|[now action] calls IH]; intros e e2 outs score Hscore H;
    cbn [dmc_rollout] in H.
  - injection H as <- <-. exists []. simpl. auto.
  - inv_bind H as r1 Hstep. destruct r1 as [[e1 files] t].
    inv_bind H as r2 Hrest. destruct r2 as [e2' outs']. injection H as <- <-.
    eapply dmc_step_mirror in Hstep; [|exact Hscore].
    destruct Hstep as (trace & Hrun & Hr & Hscore1 & Hc).
    destruct (IH _ _ _ _ Hscore1 Hrest) as (traces & Htraces & Hrs & Hsum).
    exists (trace :: traces). cbn [dmc_sim_rollout map snd fst fold_left].
    rewrite Hrun. cbn [bind]. rewrite Hc in Htraces. rewrite Htraces. cbn [bind].
    rewrite Hr, Hrs, Hsum. auto.
Qed.

(** X20.  Over any run of successful continuous-control [step]s after a
    [reset], the simulator is stepped [action_repeat] times per call with
    the clipped action of that call; each reward returned is the float32
    of the sum of the rewards of its sub-steps, and [episode_score] ends
    as the sum of these per-call sums, added in order from 0.0. *)
Theorem dmc_rollout_mirrors_simulator (e0 e1 e2 : DeepMindControlEnv S) t0 calls outs :
  reset e0 = Ok (e1, t0) ->
  dmc_rollout str_float e1 calls = Ok (e2, outs) ->
  exists traces,
    dmc_sim_rollout S (Z.to_nat (action_repeat (config e0))) (env e1)
      (map (fun c => tolist (clip (clip_low (config e0)) (clip_high (config e0))
                               (snd c))) calls)
      = Ok (env e2, traces) /\
    map (fun o => reward (snd o)) outs
      = map (fun tr => to_float32 (float_sum (trace_rewards tr))) traces /\
    episode_score e2
      = Some (float_sum (map (fun tr => float_sum (trace_rewards tr)) traces)).
Proof.
  intros Hreset Hroll. apply dmc_reset_inv in Hreset.
  destruct Hreset as (sim & infos & obs & _ & _ & _ & Hc & _ & _ & Hscore & _).
  eapply dmc_rollout_mirror in Hroll; [|exact Hscore].
  rewrite Hc in Hroll. exact Hroll.
Qed.

End DmcRolloutFacts.

(** Two steps of two sub-steps each on the toy task. *)
Lemma dmc_rollout_mirrors_simulator_witness :
  let S := Toy.dmc 4 in
  let e0 := Toy.acrobot_env 4 2 2 None in
  let calls := [("t1"%string, Tensor [1] [5%float]); ("t2"%string, Tensor [1] [0%float])] in
  exists e1 t0 e2 outs,
    DMC.reset e0 = Ok (e1, t0) /\
    dmc_rollout Toy.str_float e1 calls = Ok (e2, outs) /\
    map (fun o => reward (snd o)) outs = [0.75%float; 0.75%float] /\
    exists traces,
      dmc_sim_rollout S (Z.to_nat (DMC.action_repeat (DMC.config e0))) (DMC.env e1)
        (map (fun c => tolist (clip (DMC.clip_low (DMC.config e0))
                                 (DMC.clip_high (DMC.config e0)) (snd c))) calls)
        = Ok (DMC.env e2, traces) /\
      map (fun o => reward (snd o)) outs
        = map (fun tr => to_float32 (float_sum (trace_rewards tr))) traces /\
      DMC.episode_score e2
        = Some (float_sum (map (fun tr => float_sum (trace_rewards tr)) traces)).
Proof.
  cbv zeta. eexists _, _, _, _.
  split; [vm_compute; reflexivity|].
  split; [vm_compute; reflexivity|].
  split; [vm_compute; reflexivity|].
  eapply (@dmc_rollout_mirrors_simulator Toy.str_float (Toy.dmc 4)
            (Toy.acrobot_env 4 2 2 None)).
  - vm_compute. reflexivity.
  - vm_compute. reflexivity.
Defined.

(** ** What a continuous-control [step] records *)

Section DmcRecordingMore.
Import DMC.
Variable str_float : float -> string.
Variable S : Simulator.

(** The simulator hands out well-formed pixel arrays. *)
Hypothesis step_pixels :
  forall sim a sim' infos,
    sim_step S sim a = Ok (sim', infos) -> wf (pixels infos).

(** What the loop of [step] appends to the two buffers. *)
Lemma loop_recording (c : Config) (action : tensor float) (path : string) (n : nat) :
  episode_saving_path c = Some path ->
  forall (l l' : Loop S) fs ps,
    l_video l = Some (Frames fs) ->
    l_video_pre l = Some (Frames ps) ->
    for_range n (loop_body c action) l = Ok l' ->
    exists states trace,
      dmc_sim_states S n (l_env l) (tolist action) = Ok states /\
      dmc_sim_run S n (l_env l) (tolist action) = Ok (l_env l', trace) /\
      l_video l' = Some (Frames (fs ++ map (get_obs S c) states)) /\
      l_video_pre l' = Some (Frames (ps ++ map pixels trace)).
Proof.
  intros Hp. induction n as [|n IH]; intros l l' fs ps Hv Hpre H.
  - simpl in H. injection H as <-. exists [], []. simpl.
    rewrite !app_nil_r. auto.
  - simpl in H. inv_bind H as l1 H1.
    unfold loop_body in H1.
    inv_bind H1 as r Hstep. destruct r as [sim infos].
    unfold process_infos in H1.
    inv_bind H1 as r Hproc. destruct r as [[obs sr] sd].
    inv_bind Hproc as obs' Hobs. injection Hproc as -> <- <-.
    inv_bind H1 as r Hadd. destruct r as [v1 p1].
    inv_bind H1 as rw Hrw. injection H1 as <-.
    unfold add_to_video in Hadd. rewrite Hp, Hv, Hpre in Hadd. simpl in Hadd.
    pose proof (step_pixels _ _ Hstep) as Hwfp.
    rewrite (permute201_permute120 Hwfp Hobs) in Hadd. simpl in Hadd.
    injection Hadd as <- <-.
    eapply IH in H; [|reflexivity|reflexivity].
    destruct H as (states & trace & Hst & Hrun & Hv' & Hp').
    cbn [l_env] in Hst, Hrun.
    exists (sim :: states), (infos :: trace).
    cbn [dmc_sim_states dmc_sim_run]. rewrite Hstep. cbn [bind].
    rewrite Hst, Hrun. cbn [bind map].
    rewrite Hv', Hp', <- !app_assoc. auto.
Qed.

(** X21.  With recording enabled and a simulator whose pixel arrays are
    well formed, one continuous-control [step] appends, per sub-step, the
    camera image rendered after that sub-step to [episode_video] and the
    pixel observation of that sub-step, unchanged, to [episode_video_pre]
    (permuting to channels-first and back is the identity); if a sub-step
    ended the episode, the two buffers so extended are what is stacked
    and written. *)
Theorem dmc_step_records now (e e' : DeepMindControlEnv S) action files t path fs ps :
  episode_saving_path (config e) = Some path ->
  episode_video e = Some (Frames fs) ->
  episode_video_pre e = Some (Frames ps) ->
  step str_float now e action = Ok (e', files, t) ->
  exists states trace,
    let a := tolist (clip (clip_low (config e)) (clip_high (config e)) action) in
    let n := Z.to_nat (action_repeat (config e)) in
    dmc_sim_states S n (env e) a = Ok states /\
    dmc_sim_run S n (env e) a = Ok (env e', trace) /\
    let raw := fs ++ map (get_obs S (config e)) states in
    let pre := ps ++ map pixels trace in
    if existsb last trace
    then exists v p, stack0 raw = Ok v /\ stack0 pre = Ok p /\
           map video_array files = [v; p] /\
           episode_video e' = Some (Stacked v) /\
           episode_video_pre e' = Some (Stacked p)
    else files = [] /\
         episode_video e' = Some (Frames raw) /\
         episode_video_pre e' = Some (Frames pre).
Proof.
  intros Hp Hv Hpre H. apply dmc_step_inv in H.
  destruct H as (n & l & score & _ & _ & Hloop & _ & Hsave & _ & _ & Henv & _).
  pose proof Hloop as Hrec.
  eapply loop_recording in Hrec; [|exact Hp|exact Hv|exact Hpre].
  destruct Hrec as (states & trace & Hst & Hrun & Hv1 & Hp1).
  cbn [l_env] in Hst, Hrun.
  exists states, trace. cbv zeta. rewrite Henv.
  split; [exact Hst|]. split; [exact Hrun|].
  apply loop_spec in Hloop.
  destruct Hloop as (trace' & rs & Htr & _ & _ & _ & Hor & _).
  cbn [l_env l_done] in Htr, Hor.
  pose proof Hrun as Hsteps. apply dmc_sim_run_steps in Hsteps.
  rewrite Hsteps in Htr. injection Htr as <-.
  simpl in Hor. rewrite Hor, Hv1, Hp1 in Hsave.
  destruct (existsb last trace).
  - eapply dmc_save_if_done_inv in Hsave; [|exact Hp].
    destruct Hsave as (fs' & ps' & v & p & Hfs & Hps & Hsv & Hsp & _ & Harr & -> & ->).
    injection Hfs as <-. injection Hps as <-. exists v, p. auto.
  - unfold save_if_done in Hsave. simpl in Hsave. injection Hsave as <- <- <-. auto.
Qed.

End DmcRecordingMore.

(** Two sub-steps of a recorded episode: two rendered frames and the two
    pixel observations are appended. *)
Lemma dmc_step_records_witness :
  let S := Toy.dmc 4 in
  let e := Toy.dmc_started (Toy.acrobot_env 4 2 2 (Some "videos"%string)) in
  let action := Tensor [1] [5%float] in
  exists e' files t,
    DMC.step Toy.str_float "t" e action = Ok (e', files, t) /\
    DMC.episode_video_pre e' = Some (Frames [Toy.frame false 1; Toy.frame false 2]) /\
    exists states trace,
      let a := tolist (clip (DMC.clip_low (DMC.config e)) (DMC.clip_high (DMC.config e))
                         action) in
      let n := Z.to_nat (DMC.action_repeat (DMC.config e)) in
      dmc_sim_states S n (DMC.env e) a = Ok states /\
      dmc_sim_run S n (DMC.env e) a = Ok (DMC.env e', trace) /\
      let raw := [] ++ map (DMC.get_obs S (DMC.config e)) states in
      let pre := [] ++ map DMC.pixels trace in
      if existsb DMC.last trace
      then exists v p, stack0 raw = Ok v /\ stack0 pre = Ok p /\
             map video_array files = [v; p] /\
             DMC.episode_video e' = Some (Stacked v) /\
             DMC.episode_video_pre e' = Some (Stacked p)
      else files = [] /\
           DMC.episode_video e' = Some (Frames raw) /\
           DMC.episode_video_pre e' = Some (Frames pre).
Proof.
  cbv zeta. eexists _, _, _.
  split; [vm_compute; reflexivity|].
  split; [vm_compute; reflexivity|].
  eapply dmc_step_records
    with (str_float := Toy.str_float) (now := "t"%string)
         (path := "videos"%string) (fs := []) (ps := []).
  - intros sim a sim' infos H. simpl in H.
    destruct (4 <=? sim)%Z; injection H as _ <-; reflexivity.
  - reflexivity.
  - vm_compute. reflexivity.
  - vm_compute. reflexivity.
  - vm_compute. reflexivity.
Defined.

Section DmcEpisode.
Import DMC.
Variable str_float : float -> string.
Variable S : Simulator.

(** A list buffer that was extended is still a list. *)
Lemma rec_extends_frames (n : nat) (fs : list (tensor uint8)) (after : option recording) :
  rec_extends n (Some (Frames fs)) after ->
  exists news, after = Some (Frames (fs ++ news)) /\ length news = n.
Proof.
  intros [[-> ->]|(fs' & news & Hb & -> & Hn)].
  - exists []. now rewrite app_nil_r.
  - injection Hb as <-. eauto.
Qed.

(** What one recorded [step] does to the buffers, counting frames only. *)
Lemma dmc_step_recording now (e e' : DeepMindControlEnv S) action files t path fs ps :
  episode_saving_path (config e) = Some path ->
  episode_video e = Some (Frames fs) ->
  episode_video_pre e = Some (Frames ps) ->
  step str_float now e action = Ok (e', files, t) ->
  config e' = config e /\
  exists news news_pre,
    length news = Z.to_nat (action_repeat (config e)) /\
    length news_pre = Z.to_nat (action_repeat (config e)) /\
    ((files = [] /\
      episode_video e' = Some (Frames (fs ++ news)) /\
      episode_video_pre e' = Some (Frames (ps ++ news_pre))) \/
     (files <> [] /\
      exists v p,
        stack0 (fs ++ news) = Ok v /\ stack0 (ps ++ news_pre) = Ok p /\
        map video_array files = [v; p])).
Proof.
  intros Hp Hv Hpre H. apply dmc_step_inv in H.
  destruct H as (n & l & score & _ & _ & Hloop & _ & Hsave & _ & Hc & _).
  split; [exact Hc|].
  apply loop_spec in Hloop.
  destruct Hloop as (trace & rs & _ & _ & _ & _ & _ & _ & Hvid).
  rewrite Hp in Hvid. cbn [l_video l_video_pre] in Hvid.
  rewrite Hv, Hpre in Hvid. destruct Hvid as [Hv1 Hp1].
  apply rec_extends_frames in Hv1, Hp1.
  destruct Hv1 as (news & Hv1 & Hn), Hp1 as (news_pre & Hp1 & Hn').
  exists news, news_pre. split; [exact Hn|]. split; [exact Hn'|].
  rewrite Hv1, Hp1 in Hsave.
  destruct (l_done l).
  - right. eapply dmc_save_if_done_inv in Hsave; [|exact Hp].
    destruct Hsave as (fs' & ps' & v & p & Hfs & Hps & Hsv & Hsp & _ & Harr & _ & _).
    injection Hfs as <-. injection Hps as <-.
    split; [destruct files; discriminate|]. exists v, p. auto.
  - left. unfold save_if_done in Hsave. simpl in Hsave. injection Hsave as <- <- <-. auto.
Qed.

(** A recorded run whose last call alone writes files, from buffers of any
    length. *)
Lemma dmc_rollout_recording (calls : list (string * tensor float)) :
  forall (e e2 : DeepMindControlEnv S) path fs ps front files t,
    episode_saving_path (config e) = Some path ->
    episode_video e = Some (Frames fs) ->
    episode_video_pre e = Some (Frames ps) ->
    dmc_rollout str_float e calls = Ok (e2, front ++ [(files, t)]) ->
    Forall (fun o => fst o = []) front ->
    files <> [] ->
    exists v p,
      map video_array files = [v; p] /\
      hd_error (shape v)
        = Some (length fs + Z.to_nat (action_repeat (config e)) * length calls) /\
      hd_error (shape p)
        = Some (length ps + Z.to_nat (action_repeat (config e)) * length calls).
Proof.
  induction calls as [|[now action] calls IH];
    intros e e2 path fs ps front files t Hp Hv Hpre H Hfront Hfiles;
    cbn [dmc_rollout] in H.
  - injection H as _ H. destruct front; discriminate.
  - inv_bind H as r1 Hstep. destruct r1 as [[e1 files1] t1].
    inv_bind H as r2 Hrest. destruct r2 as [e2' outs']. injection H as <- Houts.
    pose proof Hstep as Hrec.
    eapply dmc_step_recording in Hrec; [|exact Hp|exact Hv|exact Hpre].
    destruct Hrec
      as (Hc & news & news_pre & Hn & Hn' &
          [(-> & Hv1 & Hp1)|(Hne & v & p & Hsv & Hsp & Harr)]).
    + destruct front as [|o front'].
      * simpl in Houts. injection Houts as <- _ _. congruence.
      * simpl in Houts. injection Houts as _ ->.
        inversion Hfront as [|? ? _ Hfront']; subst.
        rewrite <- Hc in Hp.
        destruct (IH _ _ _ _ _ _ _ _ Hp Hv1 Hp1 Hrest Hfront' Hfiles)
          as (v & p & Harr & Hsv & Hsp).
        exists v, p. rewrite Hc in Hsv, Hsp.
        rewrite !length_app in *. cbn [length].
        repeat split; auto; rewrite ?Hsv, ?Hsp; f_equal; lia.
    + destruct front as [|o front'].
      * simpl in Houts. injection Houts as <- <- Hnil.
        destruct calls as [|[now' action'] calls]; cbn [dmc_rollout] in Hrest.
        -- exists v, p.
           apply stack0_frames in Hsv, Hsp. rewrite length_app in *. cbn [length].
           repeat split; auto; rewrite ?Hsv, ?Hsp; f_equal; lia.
        -- symmetry in Hnil.
           inv_bind Hrest as r3 Hstep3. destruct r3 as [[e3 f3] t3].
           inv_bind Hrest as r4 Hrest4. destruct r4 as [e4 outs4].
           injection Hrest as _ Hcontra. subst outs'. discriminate.
      * simpl in Houts. injection Houts as <- _.
        inversion Hfront as [|? ? Hempty _]; subst. simpl in Hempty. congruence.
Qed.

(** X22.  A recorded continuous-control episode of [n] calls of [step]
    (a [reset], then [n] calls of which only the last one writes files) is
    saved as two videos of [action_repeat * n] frames each. *)
Theorem dmc_episode_video_length (e0 e1 e2 : DeepMindControlEnv S) t0 calls front files t path :
  reset e0 = Ok (e1, t0) ->
  episode_saving_path (config e0) = Some path ->
  dmc_rollout str_float e1 calls = Ok (e2, front ++ [(files, t)]) ->
  Forall (fun o => fst o = []) front ->
  files <> [] ->
  exists v p,
    map video_array files = [v; p] /\
    hd_error (shape v) = Some (Z.to_nat (action_repeat (config e0)) * length calls) /\
    hd_error (shape p) = Some (Z.to_nat (action_repeat (config e0)) * length calls).
Proof.
  intros Hreset Hp Hroll Hfront Hfiles.
  apply dmc_reset_inv in Hreset.
  destruct Hreset as (sim & infos & obs & _ & _ & _ & Hc & _ & _ & _ & _ & _ & _ & _ & _ & Hvid).
  rewrite Hp in Hvid. destruct Hvid as [Hv Hpre]. rewrite <- Hc in Hp.
  eapply dmc_rollout_recording in Hroll; [|exact Hp|exact Hv|exact Hpre|exact Hfront|exact Hfiles].
  destruct Hroll as (v & p & Harr & Hsv & Hsp).
  exists v, p. rewrite Hc in Hsv, Hsp. simpl in Hsv, Hsp. auto.
Qed.

End DmcEpisode.

(** A recorded episode of four simulator steps, stepped twice with
    [action_repeat = 2]: four frames in each video. *)
Lemma dmc_episode_video_length_witness :
  let e0 := Toy.acrobot_env 4 2 2 (Some "videos"%string) in
  let calls := [("t1"%string, Tensor [1] [5%float]); ("t2"%string, Tensor [1] [0%float])] in
  exists e1 t0 e2 o1 files t,
    DMC.reset e0 = Ok (e1, t0) /\
    dmc_rollout Toy.str_float e1 calls = Ok (e2, [o1] ++ [(files, t)]) /\
    fst o1 = [] /\ length files = 2 /\
    exists v p,
      map video_array files = [v; p] /\
      hd_error (shape v) = Some 4 /\
      hd_error (shape p) = Some 4.
Proof.
  cbv zeta. eexists _, _, _, _, _, _.
  split; [vm_compute; reflexivity|].
  split; [vm_compute; reflexivity|].
  split; [reflexivity|]. split; [reflexivity|].
  eapply (@dmc_episode_video_length Toy.str_float (Toy.dmc 4)
            (Toy.acrobot_env 4 2 2 (Some "videos"%string)) _ _ _
            [("t1"%string, Tensor [1] [5%float]); ("t2"%string, Tensor [1] [0%float])]
            [_]).
  - vm_compute. reflexivity.
  - reflexivity.
  - vm_compute. reflexivity.
  - repeat constructor.
  - discriminate.
Defined.

(** ** When a continuous-control [step] succeeds *)

Section DmcProgress.
Import DMC.
Variable str_float : float -> string.
Variable S : Simulator.
Variable c : Config.
Variables h w : nat.

Hypothesis reset_frames :
  forall s s' infos,
    sim_reset S s = Ok (s', infos) -> has_shape [h; w; 3] (pixels infos).
Hypothesis step_frames :
  forall s a s' infos,
    sim_step S s a = Ok (s', infos) -> has_shape [h; w; 3] (pixels infos).
Hypothesis one_frame : (1 <= history_frames c)%Z.

(** After a [reset] the score exists. *)
Lemma dmc_running_score (e : DeepMindControlEnv S) :
  running str_float c e -> exists score, episode_score e = Some score.
Proof.
  intros [e0 e' t _ Hreset | now e0 action e' files t _ Hstep].
  - apply dmc_reset_inv in Hreset.
    destruct Hreset as (sim & infos & obs & _ & _ & _ & _ & _ & _ & Hs & _). eauto.
  - apply dmc_step_inv in Hstep.
    destruct Hstep as (n & l & score & _ & _ & _ & _ & _ & _ & _ & _ & _ & Hs & _). eauto.
Qed.

(** Without recording the loop of [step] succeeds when the simulator does
    and every time step carries a reward. *)
Lemma loop_ok (action : tensor float) (n : nat) :
  episode_saving_path c = None ->
  forall (l : Loop S) trace,
    sim_steps S n (l_env l) (tolist action) = Ok trace ->
    Forall (fun infos => exists r, ts_reward infos = Some r) trace ->
    exists l',
      for_range n (loop_body c action) l = Ok l' /\
      l_video l' = l_video l /\ l_video_pre l' = l_video_pre l /\
      ((n = 0 /\ l' = l) \/
       exists obs, l_obs_pixels l' = Some obs /\ shape obs = [3; h; w]).
Proof.
  intros Hpath. induction n as [|n IH]; intros l trace Htr Hall; simpl in Htr.
  - injection Htr as <-. exists l. simpl. repeat split; auto.
  - inv_bind Htr as r Hstep. destruct r as [sim infos].
    inv_bind Htr as rest Hrest. injection Htr as <-.
    inversion Hall as [|? ? [r Hr] Hall']; subst.
    destruct (step_frames _ _ Hstep) as [Hs _].
    set (obs := Tensor [3; h; w]
                  (gather (data (pixels infos))
                     (flat_map (fun k =>
                        flat_map (fun i =>
                          map (fun j => (i * w + j) * 3 + k) (seq 0 w)) (seq 0 h))
                        (seq 0 3)))).
    assert (Hobs : permute201 (pixels infos) = Ok obs)
      by (unfold permute201; rewrite Hs; reflexivity).
    set (l1 := {| l_env := sim; l_video := l_video l; l_video_pre := l_video_pre l;
                  l_reward := (l_reward l + r)%float;
                  l_done := l_done l || last infos;
                  l_obs_pixels := Some obs |}).
    assert (H1 : loop_body c action l = Ok l1).
    { unfold loop_body. rewrite Hstep. cbn [bind]. unfold process_infos.
      rewrite Hobs. cbn [bind]. unfold add_to_video. rewrite Hpath. cbn [bind].
      rewrite Hr. reflexivity. }
    destruct (IH l1 rest Hrest Hall') as (l' & Hloop & Hv & Hp & Hlast).
    exists l'. cbn [for_range]. rewrite H1. cbn [bind].
    split; [exact Hloop|]. split; [exact Hv|]. split; [exact Hp|].
    right. destruct Hlast as [[_ ->]|Hlast]; [|exact Hlast].
    exists obs. auto.
Qed.

(** X23.  Without recording, with [action_repeat >= 1] and on a
    simulator whose frames all have one (h, w, 3) shape, a [step] of the
    continuous-control adapter at any time after a [reset] succeeds exactly
    when the action has shape [(num_actions,)], the simulator accepts the
    clipped action [action_repeat] times and every time step it hands out
    carries a reward; it writes no file. *)
Theorem dmc_step_succeeds now (e : DeepMindControlEnv S) (action : tensor float) (n : nat) :
  running str_float c e ->
  episode_saving_path c = None ->
  num_actions c = Some n ->
  (1 <= action_repeat c)%Z ->
  (exists e' t, step str_float now e action = Ok (e', [], t)) <->
  (shape action = [n] /\
   exists trace,
     sim_steps S (Z.to_nat (action_repeat c)) (env e)
       (tolist (clip (clip_low c) (clip_high c) action)) = Ok trace /\
     Forall (fun infos => exists r, ts_reward infos = Some r) trace).
Proof.
  intros Hrun Hpath Hn Hrep.
  pose proof Hrun as Hinv.
  eapply dmc_running_history in Hinv;
    [|exact reset_frames|exact step_frames|exact one_frame].
  destruct Hinv as (Hc & hist & Hh & Hsh & Hwf).
  split.
  - intros (e' & t & H). apply dmc_step_inv in H.
    destruct H as (n' & l & score & Hn' & Hshape & Hloop & _).
    rewrite Hc, Hn in Hn'. injection Hn' as <-.
    split; [exact Hshape|].
    apply loop_spec in Hloop.
    destruct Hloop as (trace & rs & Htr & _ & Hrs & _).
    rewrite Hc in Htr. exists trace. split; [exact Htr|].
    clear - Hrs. revert rs Hrs.
    induction trace as [|i tr IH]; intros [|r rs] Hrs; try discriminate; constructor.
    + simpl in Hrs. injection Hrs as Hr _. eauto.
    + simpl in Hrs. injection Hrs as _ Hrs. eauto.
  - intros (Hshape & trace & Htr & Hall).
    destruct (dmc_running_score Hrun) as (score & Hscore).
    eapply loop_ok
      with (l := {| l_env := env e;
                    l_video := episode_video e; l_video_pre := episode_video_pre e;
                    l_reward := 0%float; l_done := false; l_obs_pixels := None |})
      in Hall; [|exact Hpath|exact Htr].
    destruct Hall as (l' & Hloop & _ & _ & Hlast).
    destruct Hlast as [[H0 _]|(obs & Hobs & Hso)]; [lia|].
    unfold step. rewrite Hc, Hn. cbn [bind attr].
    rewrite Hshape, shape_eqb_refl. cbn [bind].
    rewrite Hloop. cbn [bind]. rewrite Hscore. cbn [bind attr].
    unfold save_if_done. rewrite Hpath.
    assert (Hshift : exists hist', shift_history (Some hist) (l_obs_pixels l') = Ok hist').
    { unfold shift_history. cbn [bind attr]. unfold from0. rewrite Hsh, Hobs.
      cbn [bind]. unfold cat0. cbn [shape]. rewrite Hso, shape_eqb_refl. eauto. }
    destruct Hshift as (hist' & Hshift).
    destruct (l_done l'); cbn [bind]; rewrite Hh, Hshift; cbn [bind]; eauto.
Qed.

End DmcProgress.

(** On the toy task every frame is a 2 x 2 colour image, so a reset
    adapter that does not record steps exactly when the action has the
    task's shape and the simulator reports rewards. *)
Lemma dmc_step_succeeds_witness :
  let S := Toy.dmc 4 in
  let e := Toy.dmc_started (Toy.acrobot_env 4 2 2 None) in
  let c := DMC.config (Toy.acrobot_env 4 2 2 None) in
  let action := Tensor [1] [5%float] in
  (exists e' t, DMC.step Toy.str_float "t" e action = Ok (e', [], t)) <->
  (shape action = [1] /\
   exists trace,
     DMC.sim_steps S (Z.to_nat (DMC.action_repeat c)) (DMC.env e)
       (tolist (clip (DMC.clip_low c) (DMC.clip_high c) action)) = Ok trace /\
     Forall (fun infos => exists r, DMC.ts_reward infos = Some r) trace).
Proof.
  cbv zeta.
  apply (@dmc_step_succeeds Toy.str_float (Toy.dmc 4)
           (DMC.config (Toy.acrobot_env 4 2 2 None)) 2 2).
  - intros s s' infos H. simpl in H. injection H as _ <-. split; reflexivity.
  - intros s a s' infos H. simpl in H.
    destruct (4 <=? s)%Z; injection H as _ <-; split; reflexivity.
  - simpl. lia.
  - eapply DMC.run_reset with (e := Toy.acrobot_env 4 2 2 None);
      [reflexivity | vm_compute; reflexivity].
  - reflexivity.
  - reflexivity.
  - simpl. lia.
Defined.

(** ** Clipped actions *)

Section DmcClipping.
Import DMC.
Variable str_float : float -> string.
Variable S : Simulator.

(** A clipped number is neither below -1 nor above 1. *)
Lemma clip1_in_range (x : float) :
  PrimFloat.ltb (clip1 (-1) 1 x) (-1) = false /\
  PrimFloat.ltb 1 (clip1 (-1) 1 x) = false.
Proof.
  unfold clip1.
  destruct (PrimFloat.ltb x (-1)) eqn:Hlo; [split; reflexivity|].
  destruct (PrimFloat.ltb 1 x) eqn:Hhi; [split; reflexivity|].
  auto.
Qed.

(** X24.  The simulator is only driven with components inside
    [-1, 1] (or NaN): across a successful [step] it is stepped with a list
    as long as the action in which a component below -1 has become -1, a
    component above 1 has become 1, and every other one is unchanged. *)
Theorem dmc_step_actions_in_range now (e e' : DeepMindControlEnv S) action files t :
  clip_low (config e) = (-1)%float ->
  clip_high (config e) = 1%float ->
  step str_float now e action = Ok (e', files, t) ->
  exists acts trace,
    dmc_sim_run S (Z.to_nat (action_repeat (config e))) (env e) acts
      = Ok (env e', trace) /\
    length acts = length (tolist action) /\
    Forall (fun x => PrimFloat.ltb x (-1) = false /\ PrimFloat.ltb 1 x = false) acts /\
    Forall2 (fun x y =>
               (PrimFloat.ltb x (-1) = true /\ y = (-1)%float) \/
               (PrimFloat.ltb x (-1) = false /\ PrimFloat.ltb 1 x = true /\ y = 1%float) \/
               (PrimFloat.ltb x (-1) = false /\ PrimFloat.ltb 1 x = false /\ y = x))
      (tolist action) acts.
Proof.
  intros Hlo Hhi H. apply dmc_step_inv in H.
  destruct H as (n & l & score & _ & _ & Hloop & _ & _ & _ & _ & Henv & _).
  apply loop_sim_run in Hloop. destruct Hloop as (trace & Hrun).
  cbn [l_env] in Hrun. rewrite Hlo, Hhi in Hrun. rewrite <- Henv in Hrun.
  exists (tolist (clip (-1) 1 action)), trace.
  split; [exact Hrun|]. unfold clip, tolist. cbn [data].
  split; [apply length_map|]. split.
  - apply Forall_map. apply Forall_forall. intros x _. apply clip1_in_range.
  - induction (data action) as [|x xs IH]; constructor; [|exact IH].
    unfold clip1. destruct (PrimFloat.ltb x (-1)); [auto|].
    destruct (PrimFloat.ltb 1 x); auto 6.
Qed.

End DmcClipping.

(** The action 5.0 reaches the toy simulator as 1.0. *)
Lemma dmc_step_actions_in_range_witness :
  let S := Toy.dmc 4 in
  let e := Toy.dmc_started (Toy.acrobot_env 4 2 2 None) in
  let action := Tensor [1] [5%float] in
  exists e' files t,
    DMC.step Toy.str_float "t" e action = Ok (e', files, t) /\
    tolist (clip (-1) 1 action) = [1%float] /\
    exists acts trace,
      dmc_sim_run S (Z.to_nat (DMC.action_repeat (DMC.config e))) (DMC.env e) acts
        = Ok (DMC.env e', trace) /\
      length acts = length (tolist action) /\
      Forall (fun x => PrimFloat.ltb x (-1) = false /\ PrimFloat.ltb 1 x = false) acts /\
      Forall2 (fun x y =>
                 (PrimFloat.ltb x (-1) = true /\ y = (-1)%float) \/
                 (PrimFloat.ltb x (-1) = false /\ PrimFloat.ltb 1 x = true /\ y = 1%float) \/
                 (PrimFloat.ltb x (-1) = false /\ PrimFloat.ltb 1 x = false /\ y = x))
        (tolist action) acts.
Proof.
  cbv zeta. eexists _, _, _.
  split; [vm_compute; reflexivity|].
  split; [vm_compute; reflexivity|].
  eapply (@dmc_step_actions_in_range Toy.str_float (Toy.dmc 4) "t"%string
            (Toy.dmc_started (Toy.acrobot_env 4 2 2 None)) _ (Tensor [1] [5%float])).
  - reflexivity.
  - reflexivity.
  - vm_compute. reflexivity.
Defined.

(** ** The task classes *)

Section DmcTaskAdapters.
Import DMC.
Variable str_float : float -> string.
Variable S : Simulator.
Variables h w : nat.

Hypothesis reset_frames :
  forall s s' infos,
    sim_reset S s = Ok (s', infos) -> has_shape [h; w; 3] (pixels infos).
Hypothesis step_frames :
  forall s a s' infos,
    sim_step S s a = Ok (s', infos) -> has_shape [h; w; 3] (pixels infos).

(** What the three task classes check and set. *)
Lemma dmc_task_config (task : string) (img : nat * nat) (hf ar : Z)
    (path : option string) (c : Config) :
  Acrobot task img hf path ar = Ok c \/ Pendulum task img hf path ar = Ok c \/
  Quadruped img hf path task ar = Ok c ->
  (exists n, num_actions c = Some n /\
     ((task = "swingup"%string /\ n = 1 /\ camera_id c = 0%Z) \/
      ((task = "walk"%string \/ task = "run"%string) /\ n = 12 /\ camera_id c = 2%Z))) /\
  clip_low c = (-1)%float /\ clip_high c = 1%float /\
  episode_saving_path c = path /\ action_repeat c = ar /\ history_frames c = hf.
Proof.
  unfold Acrobot, Pendulum, Quadruped, assert_task.
  intros [H|[H|H]]; cbn [existsb] in H; rewrite ?orb_false_r in H.
  - destruct (String.eqb_spec task "swingup"); [|discriminate].
    cbn [bind] in H. injection H as <-. cbn. repeat split; eauto 7.
  - destruct (String.eqb_spec task "swingup"); [|discriminate].
    cbn [bind] in H. injection H as <-. cbn. repeat split; eauto 7.
  - assert (Ht : task = "walk"%string \/ task = "run"%string).
    { destruct (String.eqb_spec task "walk"); [auto|].
      destruct (String.eqb_spec task "run"); [auto|]. discriminate. }
    destruct (_ || _); [|discriminate].
    cbn [bind] in H. injection H as <-. cbn. repeat split; eauto 7.
Qed.

(** Time steps whose rewards are all there. *)
Lemma rewards_all_there (trace : list TimeStep) (rs : list float) :
  map ts_reward trace = map Some rs ->
  Forall (fun infos => exists r, ts_reward infos = Some r) trace.
Proof.
  revert rs. induction trace as [|infos trace IH]; intros [|r rs] Hrs;
    try discriminate; constructor.
  - simpl in Hrs. injection Hrs as Hr _. eauto.
  - simpl in Hrs. injection Hrs as _ Hrs. eauto.
Qed.

(** X25.  An adapter of one of the three task classes (no recording, at
    least one history frame and one sub-step; [Acrobot] and [Pendulum]
    exist for the task "swingup" only, with one action and camera 0,
    [Quadruped] for "walk" and "run" only, with twelve actions and camera
    2) steps on what it samples: at any time after a [reset], [sample()]
    returns the [num_actions] numbers drawn, [step] does not refuse them,
    and [step(sample())] returns, writing no file, exactly when the
    simulator accepts the clipped numbers [action_repeat] times and
    reports a reward each time. *)
Theorem dmc_task_classes (task : string) (img : nat * nat) (hf ar : Z) (c : Config)
    (e : DeepMindControlEnv S) (draw : nat -> float) (now : string) :
  Acrobot task img hf None ar = Ok c \/ Pendulum task img hf None ar = Ok c \/
  Quadruped img hf None task ar = Ok c ->
  (1 <= hf)%Z -> (1 <= ar)%Z ->
  running str_float c e ->
  exists n a,
    num_actions c = Some n /\
    ((task = "swingup"%string /\ n = 1 /\ camera_id c = 0%Z) \/
     ((task = "walk"%string \/ task = "run"%string) /\ n = 12 /\ camera_id c = 2%Z)) /\
    sample e draw = Ok a /\
    tolist a = map draw (seq 0 n) /\
    ((exists e' t, step str_float now e a = Ok (e', [], t)) <->
     (exists trace,
        sim_steps S (Z.to_nat ar) (env e) (tolist (clip (-1) 1 a)) = Ok trace /\
        Forall (fun infos => exists r, ts_reward infos = Some r) trace)).
Proof.
  intros Hc Hhf Har Hrun.
  apply dmc_task_config in Hc.
  destruct Hc as ((n & Hn & Htask) & Hlo & Hhi & Hpath & Hrep & Hframes).
  assert (Hone : (1 <= history_frames c)%Z) by lia.
  pose proof Hrun as Hinv.
  eapply dmc_running_history in Hinv;
    [|exact reset_frames|exact step_frames|exact Hone].
  destruct Hinv as (Hce & hist & Hh & Hsh & Hwf).
  pose proof (dmc_running_score Hrun) as (score & Hscore).
  exists n, (Tensor [n] (map draw (seq 0 n))).
  split; [exact Hn|]. split; [exact Htask|].
  split; [unfold sample; rewrite Hce, Hn; reflexivity|].
  split; [reflexivity|]. split.
  - intros (e' & t & H). apply dmc_step_inv in H.
    destruct H as (n' & l & score' & _ & _ & Hloop & _).
    apply loop_spec in Hloop.
    destruct Hloop as (trace & rs & Htr & _ & Hrs & _).
    cbn [l_env] in Htr. rewrite Hce, Hlo, Hhi, Hrep in Htr.
    exists trace. split; [exact Htr|]. eapply rewards_all_there; exact Hrs.
  - intros (trace & Htr & Hrew).
    assert (Htr' : sim_steps S (Z.to_nat (action_repeat (config e))) (env e)
                     (tolist (clip (clip_low (config e)) (clip_high (config e))
                                (Tensor [n] (map draw (seq 0 n))))) = Ok trace)
      by (rewrite Hce, Hlo, Hhi, Hrep; exact Htr).
    assert (Hpix : Forall (fun infos => has_shape [h; w; 3] (pixels infos)) trace)
      by (eapply sim_steps_frames; [exact step_frames | exact Htr']).
    edestruct dmc_step_returns
      with (str := str_float) (now := now) (e := e)
           (action := Tensor [n] (map draw (seq 0 n)))
      as (e' & files & t & Hstep);
      [exact Hh | exact Hsh | exact Hscore | rewrite Hce; exact Hn | reflexivity
      | rewrite Hce, Hrep; exact Har | exact Htr' | exact Hrew | exact Hpix
      | left; rewrite Hce; exact Hpath |].
    exists e', t.
    pose proof Hstep as Hinv. apply dmc_step_inv in Hinv.
    destruct Hinv as (n' & l & score' & _ & _ & _ & _ & Hsave & _).
    unfold save_if_done in Hsave. rewrite Hce, Hpath in Hsave.
    assert (files = []) as -> by (destruct (l_done l); injection Hsave as _ _ <-; reflexivity).
    exact Hstep.
Qed.

End DmcTaskAdapters.

(** [Acrobot(task="swingup", img_size=(2, 2), history_frames=2,
    action_repeat=2)] on the toy task: the number drawn goes through two
    sub-steps. *)
Lemma dmc_task_classes_witness :
  let S := Toy.dmc 4 in
  let e := Toy.dmc_started (Toy.acrobot_env 4 2 2 None) in
  let draw := fun _ : nat => 0.5%float in
  exists c,
    DMC.Acrobot "swingup" (2, 2) 2 None 2 = Ok c /\
    DMC.config e = c /\
    exists n a,
      DMC.num_actions c = Some n /\
      ((("swingup" = "swingup")%string /\ n = 1 /\ DMC.camera_id c = 0%Z) \/
       (("swingup" = "walk" \/ "swingup" = "run")%string /\ n = 12 /\
        DMC.camera_id c = 2%Z)) /\
      DMC.sample e draw = Ok a /\
      tolist a = map draw (seq 0 n) /\
      ((exists e' t, DMC.step Toy.str_float "t" e a = Ok (e', [], t)) <->
       (exists trace,
          DMC.sim_steps S (Z.to_nat 2) (DMC.env e) (tolist (clip (-1) 1 a)) = Ok trace /\
          Forall (fun infos => exists r, DMC.ts_reward infos = Some r) trace)).
Proof.
  cbv zeta. eexists. split; [reflexivity|]. split; [reflexivity|].
  eapply (@dmc_task_classes Toy.str_float (Toy.dmc 4) 2 2) with (task := "swingup"%string)
                                                                (img := (2, 2)).
  - intros s s' infos H. simpl in H. injection H as _ <-. split; reflexivity.
  - intros s a s' infos H. simpl in H.
    destruct (4 <=? s)%Z; injection H as _ <-; split; reflexivity.
  - left. reflexivity.
  - lia.
  - lia.
  - eapply DMC.run_reset with (e := Toy.acrobot_env 4 2 2 None);
      [reflexivity | vm_compute; reflexivity].
Defined.

(** ** File names *)

(** A common prefix can be dropped. *)
Lemma append_cancel_l (a b1 b2 : string) :
  (a ++ b1 = a ++ b2)%string -> b1 = b2.
Proof.
  induction a as [|c a IH]; simpl; intros H; [exact H|].
  injection H as H. auto.
Qed.

(** Joining a directory with two names that differ after a common,
    non-empty start gives two paths. *)
Lemma path_join_suffixes (a d s1 s2 : string) :
  d <> EmptyString -> s1 <> s2 ->
  path_join a (d ++ s1) <> path_join a (d ++ s2).
Proof.
  intros Hd Hs. destruct d as [|c d]; [congruence|]. clear Hd.
  assert (Hne : (String c d ++ s1)%string <> (String c d ++ s2)%string)
    by (intros H; apply append_cancel_l in H; contradiction).
  unfold path_join. cbn [String.append].
  cbn [String.append] in Hne.
  destruct (Ascii.eqb c "/"%char) eqn:Ec.
  - apply Ascii.eqb_eq in Ec. subst c. exact Hne.
  - assert (Hb : forall s, match String c (d ++ s) with
                           | String "/"%char _ => String c (d ++ s)
                           | _ => match a with
                                  | EmptyString => String c (d ++ s)
                                  | _ => if ends_with_slash a
                                         then (a ++ String c (d ++ s))%string
                                         else (a ++ "/" ++ String c (d ++ s))%string
                                  end
                           end
                           = match a with
                             | EmptyString => String c (d ++ s)
                             | _ => if ends_with_slash a
                                    then (a ++ String c (d ++ s))%string
                                    else (a ++ "/" ++ String c (d ++ s))%string
                             end).
    { intros s.
      destruct c as [[] [] [] [] [] [] [] []]; try reflexivity. discriminate Ec. }
    rewrite !Hb.
    destruct a as [|c' a']; [exact Hne|].
    destruct (ends_with_slash (String c' a')).
    + intros H. apply append_cancel_l in H. contradiction.
    + intros H. apply append_cancel_l in H. apply append_cancel_l in H. contradiction.
Qed.

Lemma date_time_score_nonempty (now score : string) :
  date_time_score now score <> EmptyString.
Proof.
  unfold date_time_score. destruct (replace_space now); discriminate.
Qed.

(** The two file names of an episode. *)
Lemma episode_file_names_differ (path now score : string) :
  NoDup [ path_join path (date_time_score now score ++ ".mp4");
          path_join path (date_time_score now score ++ "_pre.mp4") ]%string.
Proof.
  constructor; [|constructor; [intros []|constructor]].
  intros [H|[]]. symmetry in H. revert H.
  apply path_join_suffixes; [apply date_time_score_nonempty | discriminate].
Qed.

Section FileNames.
Variable str_float : float -> string.
Variable SA : Atari.Simulator.
Variable SD : DMC.Simulator.

(** X26.  The two videos of an episode never go to the same file: the
    names of the files a [step] of either adapter writes are distinct,
    whatever the directory, the time stamp and the score. *)
Theorem episode_videos_have_distinct_names :
  (forall now (e e' : Atari.AtariEnv SA) action files t,
     Atari.step str_float now e action = Ok (e', files, t) ->
     NoDup (map filename files)) /\
  (forall now (e e' : DMC.DeepMindControlEnv SD) action files t,
     DMC.step str_float now e action = Ok (e', files, t) ->
     NoDup (map filename files)).
Proof.
  split.
  - intros now e e' action files t H. apply atari_step_inv in H.
    destruct H as (a & sim & raw & r & d & score & v & p & obs & _ & _ & _ & _
                   & Hsave & _).
    destruct d.
    + destruct (Atari.episode_saving_path (Atari.config e)) as [path|] eqn:Hp.
      * eapply atari_save_if_done_inv in Hsave; [|exact Hp].
        destruct Hsave as (fs & ps & sv & sp & p3 & _ & _ & _ & _ & _ & Hn & _).
        rewrite Hn. apply episode_file_names_differ.
      * unfold Atari.save_if_done in Hsave. rewrite Hp in Hsave.
        injection Hsave as _ _ <-. constructor.
    + unfold Atari.save_if_done in Hsave. simpl in Hsave.
      injection Hsave as _ _ <-. constructor.
  - intros now e e' action files t H. apply dmc_step_inv in H.
    destruct H as (n & l & score & _ & _ & _ & _ & Hsave & _).
    destruct (DMC.l_done l).
    + destruct (DMC.episode_saving_path (DMC.config e)) as [path|] eqn:Hp.
      * eapply dmc_save_if_done_inv in Hsave; [|exact Hp].
        destruct Hsave as (fs & ps & sv & sp & _ & _ & _ & _ & Hn & _).
        rewrite Hn. apply episode_file_names_differ.
      * unfold DMC.save_if_done in Hsave. rewrite Hp in Hsave.
        injection Hsave as _ _ <-. constructor.
    + unfold DMC.save_if_done in Hsave. simpl in Hsave.
      injection Hsave as _ _ <-. constructor.
Qed.

End FileNames.

(** ** [Module.to] *)

Section ModuleToFacts.
Import NNet.

(** Induction on a module object, with the property on its children and
    on the modules of its buffer. *)
Lemma module_obj_induction (P : module_obj -> Prop) :
  (forall id children, Forall P children -> P (Plain id children)) ->
  (forall id children modules_buffer,
     Forall P children -> Forall (fun kv => P (snd kv)) modules_buffer ->
     P (Repo id children modules_buffer)) ->
  forall m, P m.
Proof.
  intros HP HR. fix IH 1.
  intros [id children|id children modules_buffer].
  - apply HP. induction children as [|c children IHc]; constructor;
      [apply IH | exact IHc].
  - apply HR.
    + induction children as [|c children IHc]; constructor; [apply IH | exact IHc].
    + induction modules_buffer as [|[k b] modules_buffer IHb]; constructor;
        [apply IH | exact IHb].
Qed.

(** A loop of moves, each of which puts its own objects on [d] and leaves
    the others, puts the objects of all of them on [d]. *)
Lemma fold_moves {X} (get : placement -> ref -> device)
    (f : X -> placement -> placement) (ids : X -> list ref) (d : device)
    (l : list X) :
  Forall (fun x => forall pl r,
            get (f x pl) r = if existsb (Nat.eqb r) (ids x) then d else get pl r) l ->
  forall pl r,
    get (fold_left (fun pl x => f x pl) l pl) r
      = if existsb (Nat.eqb r) (flat_map ids l) then d else get pl r.
Proof.
  induction 1 as [|x l Hx _ IH]; intros pl r; simpl; [reflexivity|].
  rewrite IH, Hx, existsb_app. unfold ref in *.
  repeat match goal with |- context [existsb ?f ?l] => destruct (existsb f l) end;
    reflexivity.
Qed.

(** A loop of moves none of which touches [get] leaves it. *)
Lemma fold_keeps {X} (get : placement -> ref -> device)
    (f : X -> placement -> placement) (l : list X) :
  Forall (fun x => forall pl r, get (f x pl) r = get pl r) l ->
  forall pl r, get (fold_left (fun pl x => f x pl) l pl) r = get pl r.
Proof.
  induction 1 as [|x l Hx _ IH]; intros pl r; simpl; [reflexivity|].
  now rewrite IH, Hx.
Qed.

(** torch's [to] puts the parameters of the object and of its registered
    descendants on [d], and sets no [device] attribute. *)
Lemma nn_module_to_spec (d : device) (m : module_obj) :
  forall pl r,
    params_on (nn_module_to m d pl) r
      = (if existsb (Nat.eqb r) (registered m) then d else params_on pl r) /\
    device_attr (nn_module_to m d pl) r = device_attr pl r.
Proof.
  induction m as [id children IH|id children modules_buffer IH _]
    using module_obj_induction; intros pl r;
    cbn [nn_module_to registered set_params params_on device_attr existsb].
  - split.
    + destruct (Nat.eqb r id); [reflexivity|]. cbn [orb].
      apply (@fold_moves _ params_on (fun c pl => nn_module_to c d pl) registered d).
      eapply Forall_impl; [|exact IH]. intros c H pl0 r0. apply H.
    + apply (@fold_keeps _ device_attr (fun c pl => nn_module_to c d pl)).
      eapply Forall_impl; [|exact IH]. intros c H pl0 r0. apply H.
  - split.
    + destruct (Nat.eqb r id); [reflexivity|]. cbn [orb].
      apply (@fold_moves _ params_on (fun c pl => nn_module_to c d pl) registered d).
      eapply Forall_impl; [|exact IH]. intros c H pl0 r0. apply H.
    + apply (@fold_keeps _ device_attr (fun c pl => nn_module_to c d pl)).
      eapply Forall_impl; [|exact IH]. intros c H pl0 r0. apply H.
Qed.

(** [m.to(d)] puts on [d] the parameters of the objects of [moved m] and
    the [device] attribute of the objects of [retargeted m], and leaves
    every other object. *)
Lemma module_to_spec (d : device) (m : module_obj) :
  forall pl r,
    params_on (module_to m d pl) r
      = (if existsb (Nat.eqb r) (moved m) then d else params_on pl r) /\
    device_attr (module_to m d pl) r
      = (if existsb (Nat.eqb r) (retargeted m) then d else device_attr pl r).
Proof.
  induction m as [id children _|id children modules_buffer IHc IHb]
    using module_obj_induction; intros pl r.
  - cbn [module_to moved retargeted existsb]. apply nn_module_to_spec.
  - cbn [module_to moved retargeted].
    set (pl1 := set_attr id d pl).
    set (pl2 := fold_left (fun pl c => module_to c d pl) children pl1).
    set (pl3 := fold_left (fun pl kv => module_to (snd kv) d pl) modules_buffer pl2).
    destruct (nn_module_to_spec d (Repo id children modules_buffer) pl3 r) as [Hp Ha].
    rewrite Hp, Ha. subst pl3 pl2. split.
    + rewrite (@fold_moves _ params_on (fun kv pl => module_to (snd kv) d pl) (fun kv => moved (snd kv)) d)
        by (eapply Forall_impl; [|exact IHb]; intros kv H pl0 r0; apply H).
      rewrite (@fold_moves _ params_on (fun c pl => module_to c d pl) moved d)
        by (eapply Forall_impl; [|exact IHc]; intros kv H pl0 r0; apply H).
      rewrite !existsb_app. subst pl1. cbn [set_attr params_on]. unfold ref in *.
      repeat match goal with |- context [existsb ?f ?l] => destruct (existsb f l) end;
        reflexivity.
    + rewrite (@fold_moves _ device_attr (fun kv pl => module_to (snd kv) d pl) (fun kv => retargeted (snd kv)) d)
        by (eapply Forall_impl; [|exact IHb]; intros kv H pl0 r0; apply H).
      rewrite (@fold_moves _ device_attr (fun c pl => module_to c d pl) retargeted d)
        by (eapply Forall_impl; [|exact IHc]; intros kv H pl0 r0; apply H).
      cbn [existsb]. rewrite !existsb_app. subst pl1. cbn [set_attr device_attr].
      unfold ref in *.
      destruct (Nat.eqb r id);
        repeat match goal with |- context [existsb ?f ?l] => destruct (existsb f l) end;
        reflexivity.
Qed.

(** Where the objects are after the modules [ms] went to [d], one after
    the other. *)
Lemma fold_module_to (d : device) (ms : list module_obj) (pl : placement) (r : ref) :
  params_on (fold_left (fun pl m => module_to m d pl) ms pl) r
    = (if existsb (Nat.eqb r) (flat_map moved ms) then d else params_on pl r) /\
  device_attr (fold_left (fun pl m => module_to m d pl) ms pl) r
    = (if existsb (Nat.eqb r) (flat_map retargeted ms) then d else device_attr pl r).
Proof.
  split.
  - apply (@fold_moves _ params_on (fun m pl => module_to m d pl) moved d).
    apply Forall_forall. intros m _ pl0 r0. apply module_to_spec.
  - apply (@fold_moves _ device_attr (fun m pl => module_to m d pl) retargeted d).
    apply Forall_forall. intros m _ pl0 r0. apply module_to_spec.
Qed.

End ModuleToFacts.

(** ** [transfer_to_device] *)

Section TransferFacts.
Import NNet.
Variable T : Type.

(** Induction on a structure, with the property on every item of a
    container. *)
Lemma pystruct_induction (P : pystruct T -> Prop) :
  (forall plain items, Forall (fun kv => P (snd kv)) items -> P (SDict plain items)) ->
  (forall plain items, Forall P items -> P (SList plain items)) ->
  (forall plain items, Forall P items -> P (STuple plain items)) ->
  (forall t d, P (STensor t d)) ->
  (forall m, P (SModule T m)) ->
  P (SNone T) ->
  (forall type_name, P (SOther T type_name)) ->
  forall s, P s.
Proof.
  intros HD HL HT HTe HM HN HO. fix IH 1.
  intros [plain items|plain items|plain items|t d|m| |ty].
  - apply HD. induction items as [|[k v] items IHi]; constructor;
      [apply IH | exact IHi].
  - apply HL. induction items as [|v items IHi]; constructor; [apply IH | exact IHi].
  - apply HT. induction items as [|v items IHi]; constructor; [apply IH | exact IHi].
  - apply HTe.
  - apply HM.
  - apply HN.
  - apply HO.
Qed.

(** [distinct_keys] decides that no key occurs twice. *)
Lemma distinct_keys_NoDup (ks : list pykey) :
  distinct_keys ks = true <-> NoDup ks.
Proof.
  induction ks as [|k ks IH]; simpl.
  - split; [constructor | reflexivity].
  - rewrite andb_true_iff, negb_true_iff, IH. split.
    + intros [Hk Hks]. constructor; [|exact Hks].
      intros Hin. apply not_true_iff_false in Hk. apply Hk.
      apply existsb_exists. exists k. split; [exact Hin | apply pykey_eqb_refl].
    + intros H. inversion H as [|? ? Hk Hks]; subst. split; [|exact Hks].
      apply not_true_iff_false. intros Hex. apply existsb_exists in Hex.
      destruct Hex as (k' & Hin & E). apply pykey_eqb_eq in E. subst k'. contradiction.
Qed.

(** The list comprehension of [transfer_to_device]. *)
Lemma list_comprehension_spec (self_device : device) (dev : option device)
    (items : list (pystruct T)) :
  Forall (transfer_spec self_device dev) items ->
  let d := match dev with Some d => d | None => self_device end in
  let f := fun value => transfer_to_device self_device value dev in
  forall pl,
    snd (list_comprehension f items pl)
      = fold_left (fun pl m => module_to m d pl) (fst (walk_list (@walk T) items)) pl /\
    match snd (walk_list (@walk T) items) with
    | Some ty => fst (list_comprehension f items pl) = Raised (incorrect_struct_type ty)
    | None =>
        exists l, fst (list_comprehension f items pl) = Returned l /\
                  (forallb (@well_keyed T) items = true -> l = map (on_device d) items)
    end.
Proof.
  intros Hall d f. induction Hall as [|v items Hv _ IH]; intros pl.
  - simpl. split; [reflexivity|]. exists []. auto.
  - cbn [list_comprehension walk_list]. subst f.
    destruct (Hv pl) as [Hpl Hres]. fold d in Hpl.
    destruct (transfer_to_device self_device v dev pl) as [o pl1] eqn:E.
    cbn [fst snd] in Hpl, Hres.
    destruct (walk v) as [rs [ty|]] eqn:Ew; cbn [fst snd] in Hpl, Hres.
    + subst o. cbn [fst snd]. auto.
    + destruct Hres as (v' & -> & Hv').
      destruct (IH pl1) as [Hpl2 Hres2].
      destruct (list_comprehension _ items pl1) as [o2 pl2] eqn:E2.
      cbn [fst snd] in Hpl2, Hres2.
      destruct (walk_list (@walk T) items) as [rs' bad] eqn:Ew'.
      cbn [fst snd] in Hpl2, Hres2 |- *.
      split.
      * destruct o2; cbn [snd]; rewrite fold_left_app, <- Hpl; exact Hpl2.
      * destruct bad as [ty|].
        -- subst o2. reflexivity.
        -- destruct Hres2 as (l & -> & Hl). exists (v' :: l). split; [reflexivity|].
           cbn [forallb map]. rewrite andb_true_iff. intros [H1 H2].
           rewrite Hv', Hl by assumption. reflexivity.
Qed.

(** The dict comprehension of [transfer_to_device], from the entries [acc]. *)
Lemma dict_comprehension_spec (self_device : device) (dev : option device)
    (items : list (pykey * pystruct T)) :
  Forall (fun kv => transfer_spec self_device dev (snd kv)) items ->
  let d := match dev with Some d => d | None => self_device end in
  let f := fun value => transfer_to_device self_device value dev in
  forall acc pl,
    snd (dict_comprehension f items acc pl)
      = fold_left (fun pl m => module_to m d pl)
          (fst (walk_list (fun kv => walk (snd kv)) items)) pl /\
    match snd (walk_list (fun kv : pykey * pystruct T => walk (snd kv)) items) with
    | Some ty => fst (dict_comprehension f items acc pl) = Raised (incorrect_struct_type ty)
    | None =>
        exists r, fst (dict_comprehension f items acc pl) = Returned r /\
                  (NoDup (map fst acc ++ map fst items) ->
                   forallb (fun kv => well_keyed (snd kv)) items = true ->
                   r = acc ++ map (fun kv => (fst kv, on_device d (snd kv))) items)
    end.
Proof.
  intros Hall d f. induction Hall as [|[k v] items Hv _ IH]; intros acc pl.
  - simpl. split; [reflexivity|]. exists acc. rewrite !app_nil_r. auto.
  - cbn [dict_comprehension walk_list snd fst]. subst f.
    cbn [snd] in Hv.
    destruct (Hv pl) as [Hpl Hres]. fold d in Hpl.
    destruct (transfer_to_device self_device v dev pl) as [o pl1] eqn:E.
    cbn [fst snd] in Hpl, Hres.
    destruct (walk v) as [rs [ty|]] eqn:Ew; cbn [fst snd] in Hpl, Hres.
    + subst o. cbn [fst snd]. auto.
    + destruct Hres as (v' & -> & Hv').
      destruct (IH (dict_set acc k v') pl1) as [Hpl2 Hres2].
      destruct (walk_list (fun kv : pykey * pystruct T => walk (snd kv)) items)
        as [rs' bad] eqn:Ew'.
      cbn [fst snd] in Hpl2, Hres2 |- *.
      split.
      * rewrite fold_left_app, <- Hpl. exact Hpl2.
      * destruct bad as [ty|]; [exact Hres2|].
        destruct Hres2 as (r & Hr & Hr'). exists r. split; [exact Hr|].
        cbn [map fst snd forallb]. rewrite andb_true_iff. intros Hnd [H1 H2].
        assert (Hk : ~ In k (map fst acc)).
        { apply NoDup_remove_2 in Hnd. intros Hin. apply Hnd.
          apply in_or_app. now left. }
        rewrite dict_set_fresh in Hr' by exact Hk.
        rewrite Hr'; [|rewrite map_app; cbn [map fst]; rewrite <- app_assoc; exact Hnd
                      |exact H2].
        rewrite <- app_assoc. cbn [app]. rewrite Hv' by exact H1. reflexivity.
Qed.

(** Every structure meets [transfer_spec]. *)
Lemma transfer_to_device_spec (self_device : device) (dev : option device)
    (s : pystruct T) :
  transfer_spec self_device dev s.
Proof.
  induction s as [plain items IH|plain items IH|plain items IH|t d0|m| |ty]
    using pystruct_induction;
    unfold transfer_spec; intros pl.
  - pose proof (dict_comprehension_spec IH [] pl) as [Hpl Hres].
    cbn [transfer_to_device walk].
    destruct (dict_comprehension _ items [] pl) as [o pl1] eqn:E.
    cbn [fst snd] in Hpl, Hres.
    destruct (walk_list _ items) as [rs bad] eqn:Ew. cbn [fst snd] in Hpl, Hres |- *.
    split; [destruct o; exact Hpl|].
    destruct bad as [ty|]; [subst o; reflexivity|].
    destruct Hres as (r & -> & Hr). exists (SDict true r). split; [reflexivity|].
    cbn [well_keyed on_device]. rewrite andb_true_iff, distinct_keys_NoDup.
    intros [H1 H2]. rewrite Hr; auto.
  - pose proof (list_comprehension_spec IH pl) as [Hpl Hres].
    cbn [transfer_to_device walk].
    destruct (list_comprehension _ items pl) as [o pl1] eqn:E.
    cbn [fst snd] in Hpl, Hres.
    destruct (walk_list _ items) as [rs bad] eqn:Ew. cbn [fst snd] in Hpl, Hres |- *.
    split; [destruct o; exact Hpl|].
    destruct bad as [ty|]; [subst o; reflexivity|].
    destruct Hres as (r & -> & Hr). exists (SList true r). split; [reflexivity|].
    cbn [well_keyed on_device]. intros H. rewrite Hr; auto.
  - pose proof (list_comprehension_spec IH pl) as [Hpl Hres].
    cbn [transfer_to_device walk].
    destruct (list_comprehension _ items pl) as [o pl1] eqn:E.
    cbn [fst snd] in Hpl, Hres.
    destruct (walk_list _ items) as [rs bad] eqn:Ew. cbn [fst snd] in Hpl, Hres |- *.
    split; [destruct o; exact Hpl|].
    destruct bad as [ty|]; [subst o; reflexivity|].
    destruct Hres as (r & -> & Hr). exists (STuple true r). split; [reflexivity|].
    cbn [well_keyed on_device]. intros H. rewrite Hr; auto.
  - simpl. eauto.
  - simpl. eauto.
  - simpl. eauto.
  - simpl. eauto.
Qed.

End TransferFacts.

Section TransferTheorems.
Import NNet.
Variable T : Type.

(** X27.  [transfer_to_device] raises exactly when the structure holds,
    at any depth, a value that is no dict, list, tuple, tensor, module or
    [None]; the message names the type of the first such value in reading
    order. *)
Theorem transfer_to_device_raises_iff (self_device : device) (s : pystruct T)
    (dev : option device) (pl : placement) (message : string) :
  fst (transfer_to_device self_device s dev pl) = Raised message <->
  exists type_name,
    snd (walk s) = Some type_name /\ message = incorrect_struct_type type_name.
Proof.
  destruct (transfer_to_device_spec self_device dev s pl) as [_ H].
  destruct (snd (walk s)) as [ty|].
  - rewrite H. split.
    + intros E. injection E as <-. eauto.
    + intros (ty' & E & ->). injection E as <-. reflexivity.
  - destruct H as (s' & -> & _). split; [discriminate|].
    intros (ty & E & _). discriminate.
Qed.

(** X28.  On a structure without a value of another type (and with
    dicts whose keys are distinct, as Python's are), [transfer_to_device]
    returns the same structure in a plain dict, list or tuple, keys and
    order kept, with every tensor on the target device and every module
    object itself, and has called [to] of each module object of the
    structure, in reading order: [Module.to], which also moves the
    children and the [modules_buffer] of the object, or torch's. *)
Theorem transfer_to_device_returns (self_device : device) (s : pystruct T)
    (dev : option device) (pl : placement) :
  well_keyed s = true ->
  snd (walk s) = None ->
  let d := match dev with Some d => d | None => self_device end in
  transfer_to_device self_device s dev pl
    = (Returned (on_device d s),
       fold_left (fun pl m => module_to m d pl) (fst (walk s)) pl).
Proof.
  intros Hk Hw. cbv zeta.
  destruct (transfer_to_device_spec self_device dev s pl) as [Hpl H].
  rewrite Hw in H. destruct H as (s' & Hs' & Heq).
  rewrite <- (Heq Hk), <- Hs', <- Hpl. apply surjective_pairing.
Qed.

(** X29.  Whether it returns or raises, [transfer_to_device] leaves on
    the target device the parameters of exactly the objects that [to] of
    the modules it met before the first value of another type moves:
    each module met, its registered children at any depth and, through
    [Module.to], the modules of its [modules_buffer] and what the [to] of
    its children moves; it leaves the [device] attribute of the [Module]
    objects whose [to] ran at the target, and every other object as it
    was.  A call that raises has already moved the modules it read, and
    does not move them back.  The target is [device], or [self.device]
    when [device] is [None]. *)
Theorem transfer_to_device_moves_modules (self_device : device) (s : pystruct T)
    (dev : option device) (pl : placement) (r : ref) :
  let d := match dev with Some d => d | None => self_device end in
  let pl' := snd (transfer_to_device self_device s dev pl) in
  params_on pl' r
    = (if existsb (Nat.eqb r) (flat_map moved (fst (walk s)))
       then d else params_on pl r) /\
  device_attr pl' r
    = (if existsb (Nat.eqb r) (flat_map retargeted (fst (walk s)))
       then d else device_attr pl r).
Proof.
  cbv zeta.
  destruct (transfer_to_device_spec self_device dev s pl) as [Hpl _].
  rewrite Hpl. apply fold_module_to.
Qed.

(** Reading a list depends on how its items read only. *)
Lemma walk_list_ext {X} (f g : X -> list module_obj * option string) (l : list X) :
  Forall (fun x => f x = g x) l -> walk_list f l = walk_list g l.
Proof.
  induction 1 as [|x l Hx _ IH]; simpl; [reflexivity|]. now rewrite Hx, IH.
Qed.

Lemma walk_list_map {X Y} (f : Y -> list module_obj * option string) (g : X -> Y) (l : list X) :
  walk_list f (map g l) = walk_list (fun x => f (g x)) l.
Proof.
  induction l as [|x l IH]; simpl; [reflexivity|]. now rewrite IH.
Qed.

Lemma forallb_map_ext {X Y} (p : Y -> bool) (q : X -> bool) (g : X -> Y) (l : list X) :
  Forall (fun x => p (g x) = q x) l -> forallb p (map g l) = forallb q l.
Proof.
  induction 1 as [|x l Hx _ IH]; simpl; [reflexivity|]. now rewrite Hx, IH.
Qed.

Lemma map_map_ext {X Y} (g : Y -> Y) (f : X -> Y) (l : list X) :
  Forall (fun x => g (f x) = f x) l -> map g (map f l) = map f l.
Proof.
  induction 1 as [|x l Hx _ IH]; simpl; [reflexivity|]. now rewrite Hx, IH.
Qed.

(** A structure put on a device reads the same, keeps its keys, and is
    not changed by being put there again. *)
Lemma on_device_facts (d : device) (s : pystruct T) :
  walk (on_device d s) = walk s /\
  well_keyed (on_device d s) = well_keyed s /\
  on_device d (on_device d s) = on_device d s.
Proof.
  induction s as [plain items IH|plain items IH|plain items IH|t d0|m| |ty]
    using pystruct_induction;
    cbn [on_device walk well_keyed]; auto.
  - repeat split.
    + rewrite walk_list_map. apply walk_list_ext.
      eapply Forall_impl; [|exact IH]. intros kv H. apply H.
    + rewrite map_map. cbn [fst]. f_equal.
      apply forallb_map_ext.
      eapply Forall_impl; [|exact IH]. intros kv H. apply H.
    + f_equal. apply map_map_ext.
      eapply Forall_impl; [|exact IH]. intros kv (_ & _ & H). cbn [fst snd].
      now rewrite H.
  - repeat split.
    + rewrite walk_list_map. apply walk_list_ext.
      eapply Forall_impl; [|exact IH]. intros kv H. apply H.
    + apply forallb_map_ext.
      eapply Forall_impl; [|exact IH]. intros kv H. apply H.
    + f_equal. apply map_map_ext.
      eapply Forall_impl; [|exact IH]. intros kv H. apply H.
  - repeat split.
    + rewrite walk_list_map. apply walk_list_ext.
      eapply Forall_impl; [|exact IH]. intros kv H. apply H.
    + apply forallb_map_ext.
      eapply Forall_impl; [|exact IH]. intros kv H. apply H.
    + f_equal. apply map_map_ext.
      eapply Forall_impl; [|exact IH]. intros kv H. apply H.
Qed.

(** X30.  [transfer_to_device] is idempotent: transferring the structure
    it returned once more, to the same device, returns that structure
    again and moves no module: no parameter and no [device] attribute
    changes. *)
Theorem transfer_to_device_idempotent (self_device : device) (s s' : pystruct T)
    (dev : option device) (pl pl' : placement) :
  well_keyed s = true ->
  transfer_to_device self_device s dev pl = (Returned s', pl') ->
  exists pl'',
    transfer_to_device self_device s' dev pl' = (Returned s', pl'') /\
    forall r, params_on pl'' r = params_on pl' r /\
              device_attr pl'' r = device_attr pl' r.
Proof.
  intros Hk H.
  set (d := match dev with Some d => d | None => self_device end).
  destruct (transfer_to_device_spec self_device dev s pl) as [Hpl Hres].
  rewrite H in Hpl, Hres. cbn [fst snd] in Hpl, Hres. fold d in Hpl.
  destruct (snd (walk s)) as [ty|] eqn:Hw; [discriminate|].
  destruct Hres as (s0 & E & Hs0). injection E as <-.
  specialize (Hs0 Hk). fold d in Hs0. subst s'.
  destruct (on_device_facts d s) as (Hwalk & Hkeyed & Hidem).
  destruct (transfer_to_device_spec self_device dev (on_device d s) pl') as [Hpl2 Hres2].
  fold d in Hpl2, Hres2.
  rewrite Hwalk in Hpl2, Hres2. rewrite Hw in Hres2.
  destruct Hres2 as (s2 & Hs2 & Heq).
  rewrite Hkeyed, Hidem in Heq. specialize (Heq Hk). subst s2.
  exists (snd (transfer_to_device self_device (on_device d s) dev pl')).
  split.
  - rewrite <- Hs2. apply surjective_pairing.
  - intros r. rewrite Hpl2.
    destruct (fold_module_to d (fst (walk s)) pl' r) as [E1 E2]. rewrite E1, E2.
    destruct (fold_module_to d (fst (walk s)) pl r) as [E3 E4].
    rewrite Hpl, E3, E4.
    split; match goal with |- context [existsb ?f ?l] => destruct (existsb f l) end;
      reflexivity.
Qed.

End TransferTheorems.

(** A batch dict, of a dict subclass, holding a tensor and a list with a
    module and [None]: the module has a child and a module in its
    [modules_buffer]. *)
Lemma transfer_to_device_returns_witness :
  let net := NNet.Repo 0 [NNet.Plain 1 []] [(KStr "target", NNet.Plain 2 [])] in
  let s := NNet.SDict false
             [(KStr "x", NNet.STensor 7%Z "cpu"%string);
              (KStr "nets", NNet.SList true [NNet.SModule Z net; NNet.SNone Z])] in
  let pl := {| NNet.params_on := fun _ => "cpu"%string;
               NNet.device_attr := fun _ => "cpu"%string |} in
  NNet.well_keyed s = true /\
  snd (NNet.walk s) = None /\
  let d := match Some "cuda:0"%string with Some d => d | None => "cpu"%string end in
  NNet.transfer_to_device "cpu"%string s (Some "cuda:0"%string) pl
    = (NNet.Returned (NNet.on_device d s),
       fold_left (fun pl m => NNet.module_to m d pl) (fst (NNet.walk s)) pl) /\
  NNet.on_device d s
    = NNet.SDict true
        [(KStr "x", NNet.STensor 7%Z "cuda:0"%string);
         (KStr "nets", NNet.SList true [NNet.SModule Z net; NNet.SNone Z])] /\
  map (NNet.params_on
         (fold_left (fun pl m => NNet.module_to m d pl) (fst (NNet.walk s)) pl))
      [0; 1; 2; 3]
    = ["cuda:0"; "cuda:0"; "cuda:0"; "cpu"]%string.
Proof.
  cbv zeta. split; [reflexivity|]. split; [reflexivity|].
  split; [|split; reflexivity].
  apply (@transfer_to_device_returns Z "cpu"%string
           (NNet.SDict false
              [(KStr "x", NNet.STensor 7%Z "cpu"%string);
               (KStr "nets",
                NNet.SList true
                  [NNet.SModule Z
                     (NNet.Repo 0 [NNet.Plain 1 []] [(KStr "target", NNet.Plain 2 [])]);
                   NNet.SNone Z])])
           (Some "cuda:0"%string)
           {| NNet.params_on := fun _ => "cpu"%string;
              NNet.device_attr := fun _ => "cpu"%string |});
    reflexivity.
Defined.

(** A list that holds a module, then an [int]: the call raises, and has
    moved the module (object 0), its children (1, and 2 below it) and the
    module of its buffer (4, with its child 5), and set the [device] of 0
    and 4.  Object 3, in the buffer of a [Module] that is reached through
    a torch container only, and object 9, after the [int], stay. *)
Lemma transfer_to_device_moves_modules_witness :
  let net := NNet.Repo 0
               [NNet.Plain 1 [NNet.Repo 2 [] [(KStr "target", NNet.Plain 3 [])]]]
               [(KStr "frozen", NNet.Repo 4 [NNet.Plain 5 []] [])] in
  let s := NNet.STuple true
             [NNet.SModule Z net; NNet.SOther Z "<class 'int'>";
              NNet.SModule Z (NNet.Plain 9 [])] in
  let pl := {| NNet.params_on := fun _ => "cpu"%string;
               NNet.device_attr := fun _ => "cpu"%string |} in
  let pl' := snd (NNet.transfer_to_device "cuda:0"%string s None pl) in
  fst (NNet.transfer_to_device "cuda:0"%string s None pl)
    = NNet.Raised "Incorrect struct type: <class 'int'>. Must be dict, list module, tensor or None." /\
  (NNet.params_on pl' 0 = "cuda:0" /\ NNet.params_on pl' 1 = "cuda:0" /\
   NNet.params_on pl' 2 = "cuda:0" /\ NNet.params_on pl' 3 = "cpu" /\
   NNet.params_on pl' 4 = "cuda:0" /\ NNet.params_on pl' 5 = "cuda:0" /\
   NNet.params_on pl' 9 = "cpu")%string /\
  (NNet.device_attr pl' 0 = "cuda:0" /\ NNet.device_attr pl' 2 = "cpu" /\
   NNet.device_attr pl' 4 = "cuda:0")%string.
Proof.
  cbv zeta. split; [reflexivity|].
  pose (net := NNet.Repo 0
               [NNet.Plain 1 [NNet.Repo 2 [] [(KStr "target", NNet.Plain 3 [])]]]
               [(KStr "frozen", NNet.Repo 4 [NNet.Plain 5 []] [])]).
  pose (s := NNet.STuple true
             [NNet.SModule Z net; NNet.SOther Z "<class 'int'>";
              NNet.SModule Z (NNet.Plain 9 [])]).
  pose (pl := {| NNet.params_on := fun _ => "cpu"%string;
                 NNet.device_attr := fun _ => "cpu"%string |}).
  pose proof (fun r => @transfer_to_device_moves_modules Z "cuda:0"%string s None pl r)
    as moves.
  split; [|exact (conj (proj2 (moves 0)) (conj (proj2 (moves 2)) (proj2 (moves 4))))].
  exact (conj (proj1 (moves 0)) (conj (proj1 (moves 1)) (conj (proj1 (moves 2))
          (conj (proj1 (moves 3)) (conj (proj1 (moves 4)) (conj (proj1 (moves 5))
             (proj1 (moves 9)))))))).
Defined.

(** Moving the same batch a second time changes nothing. *)
Lemma transfer_to_device_idempotent_witness :
  let net := NNet.Repo 0 [NNet.Plain 1 []] [(KStr "target", NNet.Plain 2 [])] in
  let s := NNet.SDict false
             [(KStr "x", NNet.STensor 7%Z "cpu"%string);
              (KStr "nets", NNet.SList true [NNet.SModule Z net; NNet.SNone Z])] in
  let pl := {| NNet.params_on := fun _ => "cpu"%string;
               NNet.device_attr := fun _ => "cpu"%string |} in
  exists s' pl',
    NNet.transfer_to_device "cpu"%string s (Some "cuda:0"%string) pl = (NNet.Returned s', pl') /\
    exists pl'',
      NNet.transfer_to_device "cpu"%string s' (Some "cuda:0"%string) pl'
        = (NNet.Returned s', pl'') /\
      forall r, NNet.params_on pl'' r = NNet.params_on pl' r /\
                NNet.device_attr pl'' r = NNet.device_attr pl' r.
Proof.
  cbv zeta. eexists _, _. split; [reflexivity|].
  eapply (@transfer_to_device_idempotent Z "cpu"%string
            (NNet.SDict false
               [(KStr "x", NNet.STensor 7%Z "cpu"%string);
                (KStr "nets",
                 NNet.SList true
                   [NNet.SModule Z
                      (NNet.Repo 0 [NNet.Plain 1 []] [(KStr "target", NNet.Plain 2 [])]);
                    NNet.SNone Z])])
            _ (Some "cuda:0"%string)
            {| NNet.params_on := fun _ => "cpu"%string;
               NNet.device_attr := fun _ => "cpu"%string |});
    reflexivity.
Defined.
